(** * Metadata build and registry synchronisation (build-metadata)

    A shallow embedding of the [build-metadata] command of the adapters
    library: the orchestrator [buildMetadata], the artifact writer
    [writeMetadataToFile] and the source transformer [addStaticImport] with
    its two tree edits, [addAdapterMetadataImport] and
    [addAdapterMetadataEntry].

    Conventions of the embedding.
    - A syntax tree of the registry file is a value of [Node]; the root
      [Program] holds the top-level statements.  Property reads that yield
      [undefined] in the source are [None] here, a read on [undefined] is
      [Throw TypeError], and a node builder given [undefined] for a field
      is [Throw BuilderError].
    - A file on disk is represented by what it denotes: a JSON artifact by
      its payload, the registry source by its syntax tree (printing, the
      formatting pass and parsing are taken to preserve the tree).
    - Effects are explicit: a computation of type [M A] takes the [World]
      (the disk and the log of observable events) and returns a [Result]
      with the new world. *)

From Stdlib Require Import String Ascii ZArith List Lia Sorted.
From stdpp Require Import base option list strings gmap.
Local Open Scope string_scope.
Local Open Scope list_scope.
Set Warnings "-register-all".

(** ** Results of fallible code *)

Inductive Error : Type :=
| TypeError                        (* a property read on undefined *)
| IncorrectlyTypedMetadataFiles    (* Error('Incorrectly typed MetadataFiles new Map expression') *)
| ProviderMissingError (chainId : Z)
| AdapterError (message : string)  (* a rejection that is not a NotImplementedError *)
| RegistryUnreadable               (* fs.readFile or parse failed *)
| BuilderError.                    (* the Error of a node builder given undefined for a field *)

(** [Exhausted] is not a JavaScript outcome: it marks a traversal that ran
    past the depth bound it was given (see [visit_fuel_enough]). *)
Inductive Result (A : Type) : Type :=
| Ok (a : A)
| Throw (e : Error)
| Exhausted.
Arguments Ok {A} a.
Arguments Throw {A} e.
Arguments Exhausted {A}.

Definition bindR {A B : Type} (m : Result A) (k : A -> Result B) : Result B :=
  match m with
  | Ok a => k a
  | Throw e => Throw e
  | Exhausted => Exhausted
  end.

Notation "x <- m ;; k" := (bindR m (fun x => k))
  (at level 100, m at next level, right associativity).

Fixpoint mapR {A B : Type} (f : A -> Result B) (l : list A) : Result (list B) :=
  match l with
  | [] => Ok []
  | x :: xs => y <- f x ;; ys <- mapR f xs ;; Ok (y :: ys)
  end.

Definition optR {A B : Type} (f : A -> Result B) (o : option A) : Result (option B) :=
  match o with
  | None => Ok None
  | Some x => y <- f x ;; Ok (Some y)
  end.

(** Array.prototype.find with a callback that may throw. *)
Fixpoint findR {A : Type} (p : A -> Result bool) (l : list A) : Result (option A) :=
  match l with
  | [] => Ok None
  | x :: xs => b <- p x ;; if b then Ok (Some x) else findR p xs
  end.

(** ** Syntax trees (the node types of recast that the transformer handles) *)

Inductive SpecifierType : Type :=
| ImportDefaultSpecifier
| ImportNamespaceSpecifier
| ImportSpecifier (imported : string).

Inductive Node : Type :=
| Identifier (name : string)
| Literal (value : string)
| StringLiteral (value : string)
| MemberExpression (object property : Node)
| ObjectProperty (key value : Node)
| ObjectExpression (properties : list Node)
| CallExpression (callee : Node) (arguments : list Node)
| NewExpression (callee : Node) (arguments : list Node)
| ArrayExpression (elements : list Node)
| Specifier (type : SpecifierType) (local : option Node)
| ImportDeclaration (specifiers : list Node) (source : Node)
| VariableDeclarator (id : Node) (init : option Node)
| OtherNode (type : string) (children : list Node).

Record Program : Type := { body : list Node }.

(** The builders [b.*] of recast are the constructors; property reads: *)

Definition prop_name (n : Node) : option string :=
  match n with
  | Identifier name => Some name
  | _ => None
  end.

Definition prop_local (n : Node) : option Node :=
  match n with
  | Specifier _ local => local
  | _ => None
  end.

(** [n.ImportDeclaration.check] and [n.Identifier.check]. *)
Definition isImportDeclaration (n : Node) : bool :=
  match n with
  | ImportDeclaration _ _ => true
  | _ => false
  end.

Definition isIdentifier (n : Node) : bool :=
  match n with
  | Identifier _ => true
  | _ => false
  end.

(** The child nodes of a node, in field order. *)
Definition childNodes (n : Node) : list Node :=
  match n with
  | Identifier _ | Literal _ | StringLiteral _ => []
  | MemberExpression o p => [o; p]
  | ObjectProperty k v => [k; v]
  | ObjectExpression ps => ps
  | CallExpression c args => c :: args
  | NewExpression c args => c :: args
  | ArrayExpression es => es
  | Specifier _ l => option_list l
  | ImportDeclaration ss src => ss ++ [src]
  | VariableDeclarator i init => i :: option_list init
  | OtherNode _ cs => cs
  end.

(** [this.traverse(path)]: visit every child and put the results back. *)
Definition traverse (visit : Node -> Result Node) (n : Node) : Result Node :=
  match n with
  | Identifier _ | Literal _ | StringLiteral _ => Ok n
  | MemberExpression o p =>
      o' <- visit o ;; p' <- visit p ;; Ok (MemberExpression o' p')
  | ObjectProperty k v =>
      k' <- visit k ;; v' <- visit v ;; Ok (ObjectProperty k' v')
  | ObjectExpression ps =>
      ps' <- mapR visit ps ;; Ok (ObjectExpression ps')
  | CallExpression c args =>
      c' <- visit c ;; args' <- mapR visit args ;; Ok (CallExpression c' args')
  | NewExpression c args =>
      c' <- visit c ;; args' <- mapR visit args ;; Ok (NewExpression c' args')
  | ArrayExpression es =>
      es' <- mapR visit es ;; Ok (ArrayExpression es')
  | Specifier t l =>
      l' <- optR visit l ;; Ok (Specifier t l')
  | ImportDeclaration ss src =>
      ss' <- mapR visit ss ;; src' <- visit src ;; Ok (ImportDeclaration ss' src')
  | VariableDeclarator i init =>
      i' <- visit i ;; init' <- optR visit init ;; Ok (VariableDeclarator i' init')
  | OtherNode t cs =>
      cs' <- mapR visit cs ;; Ok (OtherNode t cs')
  end.

Fixpoint height (n : Node) : nat :=
  match n with
  | Identifier _ | Literal _ | StringLiteral _ => 1
  | MemberExpression o p => S (Nat.max (height o) (height p))
  | ObjectProperty k v => S (Nat.max (height k) (height v))
  | ObjectExpression ps => S (list_max (map height ps))
  | CallExpression c args => S (Nat.max (height c) (list_max (map height args)))
  | NewExpression c args => S (Nat.max (height c) (list_max (map height args)))
  | ArrayExpression es => S (list_max (map height es))
  | Specifier _ None => 1
  | Specifier _ (Some l) => S (height l)
  | ImportDeclaration ss src => S (Nat.max (list_max (map height ss)) (height src))
  | VariableDeclarator i None => S (height i)
  | VariableDeclarator i (Some init) => S (Nat.max (height i) (height init))
  | OtherNode _ cs => S (list_max (map height cs))
  end.

(** ** Payloads, keys and the collaborators outside the subsystem *)

Inductive Json : Type :=
| JNull
| JBool (b : bool)
| JNumber (z : Z)
| JString (s : string)
| JArray (items : list Json)
| JObject (members : list (string * Json)).

(** The identifying keys an adapter returns with its payload. *)
Record FileDetails : Type := {
  protocolId : string;
  productId : string;
  chainId : Z;
  fileKey : string
}.

Record MetadataDetails : Type := {
  metadata : Json;
  fileDetails : FileDetails
}.

(** An adapter, as far as the command sees it: the version in its settings
    and what its metadata-producing methods do when they are called with
    [writeToFile = true].  [adapterBuildMetadata] is [None] when the adapter
    has no [buildMetadata] function ([isIMetadataBuilder] is false). *)
Inductive Rejection : Type :=
| NotImplementedError
| OtherRejection (message : string).

Inductive Outcome : Type :=
| Resolves (details : MetadataDetails)
| Rejects (e : Rejection).

Record Adapter : Type := {
  adapterSettingsVersion : Z;
  getProtocolTokens : Outcome;
  adapterBuildMetadata : option Outcome
}.

(** What the transformer imports from the rest of the library.  None of it is
    part of the subsystem: [Protocol], [Chain] and [ChainName] are the
    constant objects of the library (property name, value) in declaration
    order, [supportedProtocols] lists each protocol with its chains,
    [pascalCase] is core/utils/caseConversion, [path_resolve] is node:path's
    resolve, [getMetadataInvalidAddresses] is the checksum validator. *)
Record Collaborators : Type := {
  pascalCase : string -> string;
  Protocol : list (string * string);
  Chain : list (string * Z);
  ChainName : list (Z * string);
  supportedProtocols : list (string * list Z);
  path_resolve : string -> string;
  getMetadataInvalidAddresses : Json -> list string
}.

(** [o[k]] on a constant object. *)
Definition getProp {K V : Type} `{EqDecision K} (o : list (K * V)) (k : K) : option V :=
  snd <$> List.find (fun kv => bool_decide (fst kv = k)) o.

(** [Object.keys(o)]. *)
Definition objectKeys {K V : Type} (o : list (K * V)) : list K := map fst o.

(** A template literal prints a missing value as the word undefined. *)
Definition interpolate (v : option string) : string :=
  match v with
  | Some s => s
  | None => "undefined"
  end.

(** ** The source transformer *)

Section Transformer.

Variable env : Collaborators.

(** The two lookups at the head of [addStaticImport]:
    [Object.keys(Protocol).find(k => Protocol[k] === protocolId)] and the
    same over [Chain]. *)
Definition findProtocolKey (protocolId : string) : option string :=
  List.find
    (fun protocolKey =>
       bool_decide (getProp (Protocol env) protocolKey = Some protocolId))
    (objectKeys (Protocol env)).

Definition findChainKey (chainId : Z) : option string :=
  List.find
    (fun chainKey => bool_decide (getProp (Chain env) chainKey = Some chainId))
    (objectKeys (Chain env)).

(** import <ProtocolKey><ProductKey><ChainKey><FileKey> from
    '../../adapters/<protocol-id>/products/<product-id>/metadata/<chain-name>.<file-key>.json' *)
Definition buildImportAdapterMetadataEntry
    (protocolKey : option string) (protocolId productId : string)
    (chainKey : option string) (chainId : Z) (fileKey : string) : Node :=
  ImportDeclaration
    [Specifier ImportDefaultSpecifier
       (Some (Identifier
          (interpolate protocolKey +:+ pascalCase env productId +:+
           interpolate chainKey +:+ pascalCase env fileKey)))]
    (Literal
       ("../../adapters/" +:+ protocolId +:+ "/products/" +:+ productId +:+
        "/metadata/" +:+ interpolate (getProp (ChainName env) chainId) +:+
        "." +:+ fileKey +:+ ".json")).

(** The callback of [importNodes.find]:
    [x.specifiers![0]!.local?.name === `${protocolKey}...`]. *)
Definition isMetadataImport
    (protocolKey : option string) (productId : string)
    (chainKey : option string) (fileKey : string) (x : Node) : Result bool :=
  match x with
  | ImportDeclaration specifiers _ =>
      match specifiers with
      | [] => Throw TypeError
      | first :: _ =>
          Ok (bool_decide
                ((prop_local first ≫= prop_name) =
                 Some (interpolate protocolKey +:+ pascalCase env productId +:+
                       interpolate chainKey +:+ pascalCase env fileKey)))
      end
  | _ => Ok false
  end.

(** Adds a new entry to the imports for the new adapter.  The function
    receives the body of the program node and returns the body it leaves
    there. *)
Definition addAdapterMetadataImport
    (programBody : list Node)
    (protocolKey : option string) (protocolId productId : string)
    (chainKey : option string) (chainId : Z) (fileKey : string)
    : Result (list Node) :=
  let '(importNodes, codeAfterImports) :=
    List.partition isImportDeclaration programBody in
  metadataImportEntry <-
    findR (isMetadataImport protocolKey productId chainKey fileKey) importNodes ;;
  match metadataImportEntry with
  | Some _ => Ok programBody
  | None =>
      let newMetadataImportEntry :=
        buildImportAdapterMetadataEntry
          protocolKey protocolId productId chainKey chainId fileKey in
      Ok (importNodes ++ [newMetadataImportEntry] ++ codeAfterImports)
  end.

(** The callback of [metadataEntries.elements.find]. *)
Definition isMetadataFileEntry
    (protocolKey : option string) (productId : string)
    (chainKey : option string) (fileKey : string) (x : Node) : bool :=
  match x with
  | ArrayExpression [_; Identifier name] =>
      bool_decide
        (name = interpolate protocolKey +:+ pascalCase env productId +:+
                interpolate chainKey +:+ pascalCase env fileKey)
  | _ => false
  end.

(** The key extractor handed to [sortEntries]:
    [(entry) => ((entry as n.ArrayExpression).elements[1] as n.Identifier).name].
    The casts do nothing at run time: an entry without elements, or with
    fewer than two, makes the read throw; a second element without a name
    yields undefined. *)
Definition entryName (entry : Node) : Result (option string) :=
  match entry with
  | ArrayExpression (_ :: second :: _) => Ok (prop_name second)
  | _ => Throw TypeError
  end.

(** [a < b] on two keys: false as soon as one side is undefined. *)
Definition keyLt (a b : option string) : bool :=
  match a, b with
  | Some x, Some y => String.ltb x y
  | _, _ => false
  end.

Fixpoint insertSorted {A : Type} (x : option string * A)
    (l : list (option string * A)) : list (option string * A) :=
  match l with
  | [] => [x]
  | y :: l' =>
      if keyLt (fst y) (fst x) then y :: insertSorted x l' else x :: y :: l'
  end.

(** Modelled from the spec: [sortEntries] of scripts/utils/sortEntries is not
    among the sources.  Section 4.5 gives its contract: the entries are put
    in the order of their keys, compared as strings, case-sensitive and
    locale-independent, and entries with equal keys keep their relative
    order.  The keys are read with the extractor the caller passes; a read
    that throws makes the sort throw. *)
Definition sortEntries {A : Type} (entries : list A)
    (extractKey : A -> Result (option string)) : Result (list A) :=
  keyed <- mapR (fun entry => k <- extractKey entry ;; Ok (k, entry)) entries ;;
  Ok (map snd (foldr insertSorted [] keyed)).

(** [b.identifier(name)], where [name] may be undefined: the casts
    [as keyof typeof Protocol] and [as keyof typeof Chain] on the results of
    the two lookups check nothing at run time, and the builder throws an
    Error when the value it is given for the field [name] is not a string.
    (A template literal is always a string: the builders that get one never
    throw.) *)
Definition b_identifier (name : option string) : Result Node :=
  match name with
  | Some s => Ok (Identifier s)
  | None => Throw BuilderError
  end.

(** Adds the [metadataKey(...)] pair of the adapter to the array of the
    MetadataFiles declarator.  The function receives the declarator node and
    returns the node as it leaves it.  The properties of the key object are
    built in the order of the source, so that a protocol or a chain without
    a name in its table makes the function throw before the array is
    touched. *)
Definition addAdapterMetadataEntry
    (metadataFilesDeclaratorNode : Node)
    (protocolKey : option string) (productId : string)
    (chainKey : option string) (fileKey : string) : Result Node :=
  match metadataFilesDeclaratorNode with
  | VariableDeclarator id
      (Some (NewExpression callee (ArrayExpression elements :: otherArguments))) =>
      let metadataFileEntry :=
        List.find (isMetadataFileEntry protocolKey productId chainKey fileKey)
          elements in
      match metadataFileEntry with
      | Some _ => Ok metadataFilesDeclaratorNode
      | None =>
          protocolKeyNode <- b_identifier protocolKey ;;
          let protocolIdProp :=
            ObjectProperty (Identifier "protocolId")
              (MemberExpression (Identifier "Protocol") protocolKeyNode) in
          let productIdProp :=
            ObjectProperty (Identifier "productId") (StringLiteral productId) in
          chainKeyNode <- b_identifier chainKey ;;
          let chainIdProp :=
            ObjectProperty (Identifier "chainId")
              (MemberExpression (Identifier "Chain") chainKeyNode) in
          let fileKeyProp :=
            ObjectProperty (Identifier "fileKey") (StringLiteral fileKey) in
          let metadataEntryKey :=
            CallExpression (Identifier "metadataKey")
              [ObjectExpression
                 [protocolIdProp; productIdProp; chainIdProp; fileKeyProp]] in
          let metadataEntryJson :=
            Identifier
              (interpolate protocolKey +:+ pascalCase env productId +:+
               interpolate chainKey +:+ pascalCase env fileKey) in
          let newMetadataEntry :=
            ArrayExpression [metadataEntryKey; metadataEntryJson] in
          sorted <- sortEntries (elements ++ [newMetadataEntry]) entryName ;;
          Ok (VariableDeclarator id
                (Some (NewExpression callee
                         (ArrayExpression sorted :: otherArguments))))
      end
  | _ => Throw IncorrectlyTypedMetadataFiles
  end.

(** [visitVariableDeclarator], and the default traversal for every other
    node.  [fuel] bounds the depth of the descent. *)
Fixpoint visitNode (fuel : nat)
    (protocolKey : option string) (productId : string)
    (chainKey : option string) (fileKey : string) (node : Node) : Result Node :=
  match fuel with
  | O => Exhausted
  | S fuel' =>
      let descend := visitNode fuel' protocolKey productId chainKey fileKey in
      match node with
      | VariableDeclarator id _ =>
          match id with
          | Identifier name =>
              edited <-
                (if bool_decide (name = "MetadataFiles")
                 then addAdapterMetadataEntry
                        node protocolKey productId chainKey fileKey
                 else Ok node) ;;
              traverse descend edited
          | _ => Ok node (* skips any other declaration *)
          end
      | _ => traverse descend node
      end
  end.

(** [visitProgram]: the import edit, then the traversal of the body. *)
Definition visitProgram (fuel : nat) (programNode : Program)
    (protocolKey : option string) (protocolId productId : string)
    (chainKey : option string) (chainId : Z) (fileKey : string)
    : Result Program :=
  body1 <-
    addAdapterMetadataImport (body programNode)
      protocolKey protocolId productId chainKey chainId fileKey ;;
  body2 <- mapR (visitNode fuel protocolKey productId chainKey fileKey) body1 ;;
  Ok {| body := body2 |}.

(** The depth [visit] allows itself: the height of the tree, and room for the
    nodes the two edits build. *)
Definition fuelFor (ast : Program) : nat :=
  list_max (map height (body ast)) + 10.

(** [visit(ast, {visitProgram, visitVariableDeclarator})]. *)
Definition visit (ast : Program) (details : FileDetails) : Result Program :=
  let protocolKey := findProtocolKey (protocolId details) in
  let chainKey := findChainKey (chainId details) in
  visitProgram (fuelFor ast) ast
    protocolKey (protocolId details) (productId details)
    chainKey (chainId details) (fileKey details).

End Transformer.

(** ** The world: the disk and what the command lets out *)

Inductive FileContent : Type :=
| JsonFile (payload : Json)      (* JSON.stringify(metadata, null, 2) *)
| SourceFile (ast : Program).    (* print(ast).code *)

Inductive Capability : Type := GetProtocolTokens | BuildMetadata.

Inductive Colour : Type := Yellow | Red | Green.

Inductive Event : Type :=
| Invoked (adapter : Adapter) (capability : Capability)
| ConsoleError (colour : Colour) (text : string)
| LoggerError (chainId : Z) (message : string)
| Written (path : string) (content : FileContent).

Record World : Type := {
  disk : gmap string FileContent;
  events : list Event
}.

Definition M (A : Type) : Type := World -> Result A * World.

Definition ret {A : Type} (a : A) : M A := fun w => (Ok a, w).

Definition throw {A : Type} (e : Error) : M A := fun w => (Throw e, w).

Definition bindM {A B : Type} (m : M A) (k : A -> M B) : M B :=
  fun w =>
    match m w with
    | (Ok a, w') => k a w'
    | (Throw e, w') => (Throw e, w')
    | (Exhausted, w') => (Exhausted, w')
    end.

Notation "x <~ m ;; k" := (bindM m (fun x => k))
  (at level 100, m at next level, right associativity).

Definition liftR {A : Type} (r : Result A) : M A := fun w => (r, w).

Definition emit (e : Event) : M unit :=
  fun w => (Ok tt, {| disk := disk w; events := events w ++ [e] |}).

(** Modelled from the spec: [writeAndLintFile] of core/utils is not among the
    sources.  Sections 4.3 and 4.4: a scoped write (the whole content or
    nothing) followed by the formatting pass, whose output is what is
    persisted; the formatted text denotes the same content. *)
Definition writeAndLintFile (path : string) (content : FileContent) : M unit :=
  fun w =>
    (Ok tt,
     {| disk := <[path := content]> (disk w);
        events := events w ++ [Written path content] |}).

(** [fs.readFile] followed by [parse]. *)
Definition readAndParse (path : string) : M Program :=
  fun w =>
    match disk w !! path with
    | Some (SourceFile ast) => (Ok ast, w)
    | _ => (Throw RegistryUnreadable, w)
    end.

(** ** The command *)

Section Command.

Variable env : Collaborators.

Definition writeMetadataToFile (details : FileDetails) (metadata : Json) : M unit :=
  let newFilePath :=
    path_resolve env
      ("./packages/adapters-library/src/adapters/" +:+ protocolId details +:+
       "/products/" +:+ productId details +:+ "/metadata/" +:+
       interpolate (getProp (ChainName env) (chainId details)) +:+ "." +:+
       fileKey details +:+ ".json") in
  writeAndLintFile newFilePath (JsonFile metadata).

Definition adapterMetadataFile : string :=
  path_resolve env
    "./packages/adapters-library/src/core/metadata/AdapterMetadata.ts".

Definition addStaticImport (details : FileDetails) : M unit :=
  ast <~ readAndParse adapterMetadataFile ;;
  edited <~ liftR (visit env ast details) ;;
  writeAndLintFile adapterMetadataFile (SourceFile edited).

(** A call of one capability and its [.catch]: a NotImplementedError becomes
    undefined, any other rejection is thrown again. *)
Definition invoke (adapter : Adapter) (capability : Capability)
    (outcome : Outcome) : M (option MetadataDetails) :=
  _ <~ emit (Invoked adapter capability) ;;
  match outcome with
  | Resolves details => ret (Some details)
  | Rejects NotImplementedError => ret None
  | Rejects (OtherRejection message) => throw (AdapterError message)
  end.

(** How a loop body ends: it falls through to the next iteration (also by
    [continue]), or it leaves the action by [return]. *)
Inductive Control : Type := Next | Return.

Fixpoint forOf {A : Type} (l : list A) (loopBody : A -> M Control) : M Control :=
  match l with
  | [] => ret Next
  | x :: xs =>
      c <~ loopBody x ;;
      match c with
      | Next => forOf xs loopBody
      | Return => ret Return
      end
  end.

Definition newline : string := String "010"%char "".

(** The body of the innermost loop, one adapter. *)
Definition processAdapter (adapter : Adapter) : M Control :=
  fromTokens <~
    (if bool_decide (adapterSettingsVersion adapter = 2%Z)
     then invoke adapter GetProtocolTokens (getProtocolTokens adapter)
     else ret None) ;;
  metadataDetails <~
    (match adapterBuildMetadata adapter with
     | Some outcome => invoke adapter BuildMetadata outcome
     | None => ret fromTokens
     end) ;;
  match metadataDetails with
  | None => ret Next
  | Some {| metadata := metadata; fileDetails := fileDetails |} =>
      let invalidAddresses := getMetadataInvalidAddresses env metadata in
      if bool_decide (0 < length invalidAddresses)
      then
        _ <~ emit (ConsoleError Yellow (String.concat newline invalidAddresses)) ;;
        _ <~ emit (ConsoleError Red
               (newline +:+ " * The above addresses found in the metadata file are not in checksum format.")) ;;
        _ <~ emit (ConsoleError Green
               (newline +:+ " * Please ensure that addresses are in checksum format by wrapping them with getAddress from the ethers package.")) ;;
        _ <~ emit (ConsoleError Green
               (newline +:+ " * Please checksum your addresses inside the buildMetadata() method.")) ;;
        ret Return
      else
        _ <~ writeMetadataToFile fileDetails metadata ;;
        _ <~ addStaticImport fileDetails ;;
        ret Next
  end.

(** [filter && !filter.includes(x)]. *)
Definition filteredOut {A : Type} `{EqDecision A}
    (filter : option (list A)) (x : A) : bool :=
  match filter with
  | Some allowed => negb (bool_decide (x ∈ allowed))
  | None => false
  end.

(** The action of the [build-metadata] command.  [filterProtocolIds] and
    [filterChainIds] are what [multiProtocolFilter] and [multiChainFilter]
    return for the two options. *)
Definition buildMetadata
    (chainProviders : Z -> bool)
    (fetchChainProtocolAdapters : Z -> string -> list Adapter)
    (filterProtocolIds : option (list string))
    (filterChainIds : option (list Z)) : M Control :=
  forOf (supportedProtocols env) (fun '(protocolId, supportedChains) =>
    if filteredOut filterProtocolIds protocolId then ret Next
    else
      forOf supportedChains (fun chainId =>
        if filteredOut filterChainIds chainId then ret Next
        else if negb (chainProviders chainId)
        then
          _ <~ emit (LoggerError chainId "No provider found for chain") ;;
          throw (ProviderMissingError chainId)
        else
          forOf (fetchChainProtocolAdapters chainId protocolId) processAdapter)).

End Command.

(** ** Vocabulary of the specification *)

(** Section 4.1: the generated identifier name and the relative artifact path
    of a key. *)
Definition generatedIdentifier (env : Collaborators)
    (protocolKey : option string) (productId : string)
    (chainKey : option string) (fileKey : string) : string :=
  interpolate protocolKey +:+ pascalCase env productId +:+
  interpolate chainKey +:+ pascalCase env fileKey.

Definition identifierOf (env : Collaborators) (details : FileDetails) : string :=
  generatedIdentifier env
    (findProtocolKey env (protocolId details)) (productId details)
    (findChainKey env (chainId details)) (fileKey details).

Definition artifactTemplate (env : Collaborators) (details : FileDetails) : string :=
  "adapters/" +:+ protocolId details +:+ "/products/" +:+ productId details +:+
  "/metadata/" +:+ interpolate (getProp (ChainName env) (chainId details)) +:+
  "." +:+ fileKey details +:+ ".json".

(** The two edits as [addStaticImport] applies them for a key. *)
Definition importEditFor (env : Collaborators) (details : FileDetails)
    (programBody : list Node) : Result (list Node) :=
  addAdapterMetadataImport env programBody
    (findProtocolKey env (protocolId details)) (protocolId details)
    (productId details)
    (findChainKey env (chainId details)) (chainId details) (fileKey details).

Definition entryEditFor (env : Collaborators) (details : FileDetails)
    (declarator : Node) : Result Node :=
  addAdapterMetadataEntry env declarator
    (findProtocolKey env (protocolId details)) (productId details)
    (findChainKey env (chainId details)) (fileKey details).

(** The protocol id and the chain id of the key have a name in the Protocol
    and Chain tables: each of the two lookups of [addStaticImport] finds a
    key. *)
Definition KeysFound (env : Collaborators) (details : FileDetails) : Prop :=
  (exists protocolKey, findProtocolKey env (protocolId details) = Some protocolKey) /\
  (exists chainKey, findChainKey env (chainId details) = Some chainKey).

Definition importFor (env : Collaborators) (details : FileDetails) : Node :=
  buildImportAdapterMetadataEntry env
    (findProtocolKey env (protocolId details)) (protocolId details)
    (productId details)
    (findChainKey env (chainId details)) (chainId details) (fileKey details).

(** An import statement that binds [name]: its first specifier, the only one
    of the imports the transformer writes, has [name] as local identifier. *)
Definition ImportedAs (name : string) (n : Node) : Prop :=
  exists t specifiers source,
    n = ImportDeclaration (Specifier t (Some (Identifier name)) :: specifiers) source.

(** No import statement is a bare one, without specifiers. *)
Definition HasSpecifier (n : Node) : Prop :=
  forall source, n <> ImportDeclaration [] source.

(** The import statements form a leading run: [imports] then [rest]. *)
Definition LeadingImports (imports rest : list Node) : Prop :=
  Forall (fun n => isImportDeclaration n = true) imports /\
  Forall (fun n => isImportDeclaration n = false) rest.

(** The visitor goes below every node but a declarator whose [id] is not an
    identifier. *)
Definition Descends (n : Node) : Prop :=
  forall id init, n = VariableDeclarator id init -> isIdentifier id = true.

(** [ReachedFrom n d]: the traversal started at [n] comes to [d]. *)
Inductive ReachedFrom : Node -> Node -> Prop :=
| reached_here (n : Node) : ReachedFrom n n
| reached_below (n c d : Node) :
    Descends n -> c ∈ childNodes n -> ReachedFrom c d -> ReachedFrom n d.

Definition Reached (ast : Program) (d : Node) : Prop :=
  exists n, n ∈ body ast /\ ReachedFrom n d.

(** No variable declarator anywhere in the tree. *)
Fixpoint declaratorFree (n : Node) : bool :=
  match n with
  | Identifier _ | Literal _ | StringLiteral _ => true
  | MemberExpression o p => declaratorFree o && declaratorFree p
  | ObjectProperty k v => declaratorFree k && declaratorFree v
  | ObjectExpression ps => forallb declaratorFree ps
  | CallExpression c args => declaratorFree c && forallb declaratorFree args
  | NewExpression c args => declaratorFree c && forallb declaratorFree args
  | ArrayExpression es => forallb declaratorFree es
  | Specifier _ None => true
  | Specifier _ (Some l) => declaratorFree l
  | ImportDeclaration ss src => forallb declaratorFree ss && declaratorFree src
  | VariableDeclarator _ _ => false
  | OtherNode _ cs => forallb declaratorFree cs
  end.

(** A declarator named MetadataFiles, with any initialiser. *)
Definition MetadataFilesDeclarator (d : Node) : Prop :=
  exists init, d = VariableDeclarator (Identifier "MetadataFiles") init.

(** The expected initialiser: a new-expression whose first argument is an
    array expression. *)
Definition NewMapOfArray (init : option Node) (elements : list Node) : Prop :=
  exists callee otherArguments,
    init = Some (NewExpression callee (ArrayExpression elements :: otherArguments)).

(** An entry of the array as the transformer writes it: a pair whose second
    element is an identifier. *)
Definition PairOf (name : string) (entry : Node) : Prop :=
  exists keyExpression, entry = ArrayExpression [keyExpression; Identifier name].

Definition IsPair (entry : Node) : Prop := exists name, PairOf name entry.

(** An entry from which the sort can read a key: an array with a second
    element. *)
Definition HasSecond (entry : Node) : Prop :=
  exists first second others, entry = ArrayExpression (first :: second :: others).

(** The declarator has the expected shape and its array holds a pair for
    [name]. *)
Definition HoldsPair (name : string) (d : Node) : Prop :=
  exists id init elements entry,
    d = VariableDeclarator id init /\ NewMapOfArray init elements /\
    entry ∈ elements /\ PairOf name entry.

(** Every MetadataFiles array the traversal reaches can be sorted. *)
Definition EntriesReadable (ast : Program) : Prop :=
  forall d init elements,
    Reached ast d ->
    d = VariableDeclarator (Identifier "MetadataFiles") init ->
    NewMapOfArray init elements -> Forall HasSecond elements.

(** Section 4.4: the pair the registry-entry edit adds for a key, the
    [metadataKey] wrapper around an object literal with the four fields,
    whose protocolId and chainId refer to the Protocol and Chain tables, and
    the generated identifier. *)
Definition entryFor (env : Collaborators)
    (protocolKey : option string) (productId : string)
    (chainKey : option string) (fileKey : string) : Node :=
  ArrayExpression
    [CallExpression (Identifier "metadataKey")
       [ObjectExpression
          [ObjectProperty (Identifier "protocolId")
             (MemberExpression (Identifier "Protocol")
                (Identifier (interpolate protocolKey)));
           ObjectProperty (Identifier "productId") (StringLiteral productId);
           ObjectProperty (Identifier "chainId")
             (MemberExpression (Identifier "Chain")
                (Identifier (interpolate chainKey)));
           ObjectProperty (Identifier "fileKey") (StringLiteral fileKey)]];
     Identifier (generatedIdentifier env protocolKey productId chainKey fileKey)].

(** The key of an entry, undefined where the read fails, and the array in
    the order of section 4.5. *)
Definition nameKey (entry : Node) : option string :=
  match entryName entry with
  | Ok k => k
  | _ => None
  end.

Definition sortByName (entries : list Node) : list Node :=
  map snd (foldr insertSorted [] (map (fun entry => (nameKey entry, entry)) entries)).

(** A declarator of the expected shape around [elements]. *)
Definition declaratorOf (id callee : Node) (otherArguments elements : list Node) : Node :=
  VariableDeclarator id
    (Some (NewExpression callee (ArrayExpression elements :: otherArguments))).

(** In a sorted array [x] may stand before [y]: both keys are strings and
    the first is not above the second. *)
Definition KeyLe {A : Type} (x y : option string * A) : Prop :=
  exists a b, fst x = Some a /\ fst y = Some b /\ String.le a b.

Definition withKey {A : Type} (k : option string) (x : option string * A) : bool :=
  bool_decide (fst x = k).

(** The disk after the writes of a run of events. *)
Fixpoint replay (log : list Event) (d : gmap string FileContent)
    : gmap string FileContent :=
  match log with
  | [] => d
  | Written path content :: log' => replay log' (<[path := content]> d)
  | _ :: log' => replay log' d
  end.

(** The world after a run of events on top of [w]. *)
Definition extend (w : World) (log : list Event) : World :=
  {| disk := replay log (disk w); events := events w ++ log |}.

(** Where the artifact of a key is written. *)
Definition artifactPath (env : Collaborators) (details : FileDetails) : string :=
  path_resolve env ("./packages/adapters-library/src/" +:+ artifactTemplate env details).

(** The calls the command makes on an adapter, in order. *)
Definition invocations (a : Adapter) : list Event :=
  (if bool_decide (adapterSettingsVersion a = 2%Z)
   then [Invoked a GetProtocolTokens] else []) ++
  (match adapterBuildMetadata a with
   | Some _ => [Invoked a BuildMetadata]
   | None => []
   end).

(** The adapter hands [details] to the command: its [buildMetadata] when it
    has one, its [getProtocolTokens] otherwise, and no call fails on the
    way. *)
Inductive Yields (a : Adapter) (details : MetadataDetails) : Prop :=
| yields_tokens :
    adapterSettingsVersion a = 2%Z ->
    getProtocolTokens a = Resolves details ->
    adapterBuildMetadata a = None -> Yields a details
| yields_build :
    adapterSettingsVersion a <> 2%Z ->
    adapterBuildMetadata a = Some (Resolves details) -> Yields a details
| yields_build_v2 :
    adapterSettingsVersion a = 2%Z ->
    (forall message, getProtocolTokens a <> Rejects (OtherRejection message)) ->
    adapterBuildMetadata a = Some (Resolves details) -> Yields a details.

(** The capability that decides for the adapter rejects with a
    NotImplementedError (and no call before it fails otherwise). *)
Inductive Declines (a : Adapter) : Prop :=
| declines_tokens :
    adapterSettingsVersion a = 2%Z ->
    getProtocolTokens a = Rejects NotImplementedError ->
    adapterBuildMetadata a = None -> Declines a
| declines_build :
    adapterSettingsVersion a <> 2%Z ->
    adapterBuildMetadata a = Some (Rejects NotImplementedError) -> Declines a
| declines_build_v2 :
    adapterSettingsVersion a = 2%Z ->
    (forall message, getProtocolTokens a <> Rejects (OtherRejection message)) ->
    adapterBuildMetadata a = Some (Rejects NotImplementedError) -> Declines a.

(** A capability of the adapter rejects with another error; [calls] are the
    calls made up to and including the failing one. *)
Inductive FailsWith (a : Adapter) (message : string) : list Event -> Prop :=
| fails_tokens :
    adapterSettingsVersion a = 2%Z ->
    getProtocolTokens a = Rejects (OtherRejection message) ->
    FailsWith a message [Invoked a GetProtocolTokens]
| fails_build :
    adapterSettingsVersion a <> 2%Z ->
    adapterBuildMetadata a = Some (Rejects (OtherRejection message)) ->
    FailsWith a message [Invoked a BuildMetadata]
| fails_build_v2 :
    adapterSettingsVersion a = 2%Z ->
    (forall other, getProtocolTokens a <> Rejects (OtherRejection other)) ->
    adapterBuildMetadata a = Some (Rejects (OtherRejection message)) ->
    FailsWith a message [Invoked a GetProtocolTokens; Invoked a BuildMetadata].

(** The adapter has no metadata-producing capability. *)
Definition Idle (a : Adapter) : Prop :=
  adapterSettingsVersion a <> 2%Z /\ adapterBuildMetadata a = None.

(** What the command prints for a payload with addresses that are not in
    checksum form. *)
Definition checksumReport (invalidAddresses : list string) : list Event :=
  [ConsoleError Yellow (String.concat newline invalidAddresses);
   ConsoleError Red
     (newline +:+ " * The above addresses found in the metadata file are not in checksum format.");
   ConsoleError Green
     (newline +:+ " * Please ensure that addresses are in checksum format by wrapping them with getAddress from the ethers package.");
   ConsoleError Green
     (newline +:+ " * Please checksum your addresses inside the buildMetadata() method.")].

(** The part of [processAdapter] that follows the calls: the checksum gate,
    then the two writes. *)
Definition afterCalls (env : Collaborators) (d : MetadataDetails) (w : World)
    : Result Control * World :=
  let invalidAddresses := getMetadataInvalidAddresses env (metadata d) in
  if bool_decide (0 < length invalidAddresses)
  then (Ok Return, extend w (checksumReport invalidAddresses))
  else
    match addStaticImport env (fileDetails d)
            (extend w [Written (artifactPath env (fileDetails d))
                         (JsonFile (metadata d))]) with
    | (Ok _, w') => (Ok Next, w')
    | (Throw e, w') => (Throw e, w')
    | (Exhausted, w') => (Exhausted, w')
    end.

(** A computation that only adds to the log, with outcomes and added events
    in [P]. *)
Definition Logs (m : M Control) (P : Result Control -> list Event -> Prop) : Prop :=
  forall w, exists r log, m w = (r, extend w log) /\ P r log.

(** As soon as a call on [a] is in the added events, the outcome is
    [expected] and the events end with [tail]. *)
Definition EndsAt (a : Adapter) (expected : Result Control) (tail : list Event)
    (r : Result Control) (log : list Event) : Prop :=
  (exists capability, Invoked a capability ∈ log) ->
  r = expected /\ exists before, log = before ++ tail.

(** Two nodes of one type, with the same own fields (the name of an
    identifier, the value of a literal, the kind of a specifier); the child
    nodes may differ. *)
Definition SameHead (n n' : Node) : Prop :=
  match n, n' with
  | Identifier a, Identifier b => a = b
  | Literal a, Literal b => a = b
  | StringLiteral a, StringLiteral b => a = b
  | MemberExpression _ _, MemberExpression _ _ => True
  | ObjectProperty _ _, ObjectProperty _ _ => True
  | ObjectExpression _, ObjectExpression _ => True
  | CallExpression _ _, CallExpression _ _ => True
  | NewExpression _ _, NewExpression _ _ => True
  | ArrayExpression _, ArrayExpression _ => True
  | Specifier t l, Specifier t' l' => t = t' /\ (l = None <-> l' = None)
  | ImportDeclaration _ _, ImportDeclaration _ _ => True
  | VariableDeclarator _ i, VariableDeclarator _ i' => i = None <-> i' = None
  | OtherNode t _, OtherNode t' _ => t = t'
  | _, _ => False
  end.

(** The registry file registers [name]: an import binds it, where the lookup
    of the import-section edit finds it, and every MetadataFiles declarator
    on the way of the visitor holds a pair for it. *)
Definition Registers (env : Collaborators) (details : FileDetails) (ast : Program)
    : Prop :=
  (exists found,
     findR (isMetadataImport env (findProtocolKey env (protocolId details))
              (productId details) (findChainKey env (chainId details))
              (fileKey details))
       (List.filter isImportDeclaration (body ast)) = Ok (Some found) /\
     ImportedAs (identifierOf env details) found) /\
  (forall d, Reached ast d -> MetadataFilesDeclarator d ->
             HoldsPair (identifierOf env details) d).

(** The chains a run comes to: a supported chain of a supported protocol,
    neither of them filtered out. *)
Definition ChainInScope (env : Collaborators)
    (filterProtocolIds : option (list string)) (filterChainIds : option (list Z))
    (protocolId : string) (chainId : Z) : Prop :=
  exists supportedChains,
    (protocolId, supportedChains) ∈ supportedProtocols env /\
    filteredOut filterProtocolIds protocolId = false /\
    chainId ∈ supportedChains /\
    filteredOut filterChainIds chainId = false.

(** The adapters a run comes to: those the controller returns for a chain in
    scope that has a provider. *)
Definition InScope (env : Collaborators) (chainProviders : Z -> bool)
    (fetchChainProtocolAdapters : Z -> string -> list Adapter)
    (filterProtocolIds : option (list string)) (filterChainIds : option (list Z))
    (a : Adapter) : Prop :=
  exists protocolId chainId,
    ChainInScope env filterProtocolIds filterChainIds protocolId chainId /\
    chainProviders chainId = true /\
    a ∈ fetchChainProtocolAdapters chainId protocolId.

(** A write of the command on behalf of an adapter in [scope]: the artifact
    of the payload the adapter yields, or the registry file with a tree that
    registers the key of that payload.  The payload has passed the checksum
    gate. *)
Definition OwnWrite (env : Collaborators) (scope : Adapter -> Prop)
    (path : string) (content : FileContent) : Prop :=
  exists a d,
    scope a /\ Yields a d /\ getMetadataInvalidAddresses env (metadata d) = [] /\
    ((path = artifactPath env (fileDetails d) /\ content = JsonFile (metadata d)) \/
     (path = adapterMetadataFile env /\
      exists ast, content = SourceFile ast /\ Registers env (fileDetails d) ast)).

(** The errors of a registration: the registry file cannot be read, a
    TypeError, the error for a mistyped MetadataFiles, or the Error of the
    node builder, the last one only for a key whose protocol or chain id has
    no name in its table. *)
Definition RegistrationFailure (env : Collaborators) (details : FileDetails)
    (e : Error) : Prop :=
  e = RegistryUnreadable \/ e = TypeError \/ e = IncorrectlyTypedMetadataFiles \/
  (e = BuilderError /\ ~ KeysFound env details).

(** How a run may end, and the events it then ends with: the checksum
    report of an adapter, the log line for a chain without provider, the
    calls up to the failing one of an adapter, or the artifact written
    before a registration that fails. *)
Definition RunOutcome (env : Collaborators) (scope : Adapter -> Prop)
    (chainScope : Z -> Prop) (chainProviders : Z -> bool)
    (r : Result Control) (log : list Event) : Prop :=
  match r with
  | Ok Next => True
  | Ok Return =>
      exists a d before,
        scope a /\ Yields a d /\
        getMetadataInvalidAddresses env (metadata d) <> [] /\
        log = before ++ invocations a ++
              checksumReport (getMetadataInvalidAddresses env (metadata d))
  | Throw e =>
      (exists chainId before,
         e = ProviderMissingError chainId /\
         chainScope chainId /\ chainProviders chainId = false /\
         log = before ++ [LoggerError chainId "No provider found for chain"]) \/
      (exists message a calls before,
         e = AdapterError message /\
         scope a /\ FailsWith a message calls /\ log = before ++ calls) \/
      (exists a d before,
         RegistrationFailure env (fileDetails d) e /\
         scope a /\ Yields a d /\
         getMetadataInvalidAddresses env (metadata d) = [] /\
         log = before ++ invocations a ++
               [Written (artifactPath env (fileDetails d)) (JsonFile (metadata d))])
  | Exhausted => False
  end.

(** The command has nothing left to do for an adapter on a disk: no
    capability of the adapter fails, and when it yields a payload, the
    payload passes the checksum gate, its artifact is on the disk, at a path
    that is not the registry file, and the registry file registers its key. *)
Definition Done (env : Collaborators) (a : Adapter)
    (files : gmap string FileContent) : Prop :=
  (forall message calls, ~ FailsWith a message calls) /\
  forall d, Yields a d ->
    getMetadataInvalidAddresses env (metadata d) = [] /\
    artifactPath env (fileDetails d) <> adapterMetadataFile env /\
    files !! artifactPath env (fileDetails d) = Some (JsonFile (metadata d)) /\
    exists ast,
      files !! adapterMetadataFile env = Some (SourceFile ast) /\
      Registers env (fileDetails d) ast.

(** A disk on which a run has nothing left to do: every chain in scope has a
    provider and every adapter in scope is done. *)
Definition Settled (env : Collaborators) (chainProviders : Z -> bool)
    (fetchChainProtocolAdapters : Z -> string -> list Adapter)
    (filterProtocolIds : option (list string)) (filterChainIds : option (list Z))
    (files : gmap string FileContent) : Prop :=
  (forall protocolId chainId,
     ChainInScope env filterProtocolIds filterChainIds protocolId chainId ->
     chainProviders chainId = true) /\
  (forall a,
     InScope env chainProviders fetchChainProtocolAdapters
       filterProtocolIds filterChainIds a ->
     Done env a files).

(** No two adapters in scope write different payloads to one artifact. *)
Definition PathsAgree (env : Collaborators) (scope : Adapter -> Prop) : Prop :=
  forall a b da db,
    scope a -> scope b -> Yields a da -> Yields b db ->
    artifactPath env (fileDetails da) = artifactPath env (fileDetails db) ->
    metadata da = metadata db.

(** The adapters of a run in the order of the three loops: the supported
    protocols, their chains, the adapters the controller returns, the
    filtered ones left out. *)
Definition plan (env : Collaborators)
    (fetchChainProtocolAdapters : Z -> string -> list Adapter)
    (filterProtocolIds : option (list string)) (filterChainIds : option (list Z))
    : list Adapter :=
  flat_map
    (fun entry : string * list Z =>
       if filteredOut filterProtocolIds (fst entry) then []
       else
         flat_map
           (fun chainId =>
              if filteredOut filterChainIds chainId then []
              else fetchChainProtocolAdapters chainId (fst entry))
           (snd entry))
    (supportedProtocols env).

(** The calls on adapters among the events. *)
Definition callsOf (log : list Event) : list Event :=
  List.filter (fun e => match e with Invoked _ _ => true | _ => false end) log.

(** A MetadataFiles declarator whose initialiser has not the expected
    shape, and one whose array holds an entry the sort cannot read. *)
Definition Mistyped (d : Node) : Prop :=
  exists init,
    d = VariableDeclarator (Identifier "MetadataFiles") init /\
    forall elements, ~ NewMapOfArray init elements.

Definition Unsortable (d : Node) : Prop :=
  exists init elements,
    d = VariableDeclarator (Identifier "MetadataFiles") init /\
    NewMapOfArray init elements /\ ~ Forall HasSecond elements.

(** A MetadataFiles declarator of the expected shape whose array holds no
    pair for [name]: the registry-entry edit will build one. *)
Definition Unregistered (name : string) (d : Node) : Prop :=
  exists init elements,
    d = VariableDeclarator (Identifier "MetadataFiles") init /\
    NewMapOfArray init elements /\
    forall entry, entry ∈ elements -> ~ PairOf name entry.

(** Why the registry-entry edit throws [e] at the declarator [d]: the
    declarator is mistyped, its array cannot be sorted, or a pair has to be
    built for a key that has no name for its protocol or its chain
    ([keyless]). *)
Definition EntryCause (name : string) (keyless : Prop) (e : Error) (d : Node) : Prop :=
  (e = IncorrectlyTypedMetadataFiles /\ Mistyped d) \/
  (e = TypeError /\ Unsortable d) \/
  (e = BuilderError /\ keyless /\ Unregistered name d).

(** Why the transform throws [e] on a tree: a bare import, or a MetadataFiles
    declarator on the way at which the registry-entry edit throws. *)
Definition ThrowCause (env : Collaborators) (details : FileDetails)
    (ast : Program) (e : Error) : Prop :=
  (e = TypeError /\ exists source, ImportDeclaration [] source ∈ body ast) \/
  (exists d,
     Reached ast d /\
     EntryCause (identifierOf env details) (~ KeysFound env details) e d).

(** ** A concrete setting for the examples *)

Module Sample.

Definition isAlphanumeric (c : ascii) : bool :=
  let n := nat_of_ascii c in
  (Nat.leb 48 n && Nat.leb n 57) || (Nat.leb 65 n && Nat.leb n 90) ||
  (Nat.leb 97 n && Nat.leb n 122).

Definition upperFirst (c : ascii) : ascii :=
  let n := nat_of_ascii c in
  if Nat.leb 97 n && Nat.leb n 122 then ascii_of_nat (n - 32) else c.

Fixpoint pascalWords (wordStart : bool) (s : string) : string :=
  match s with
  | EmptyString => EmptyString
  | String c rest =>
      if isAlphanumeric c
      then String (if wordStart then upperFirst c else c) (pascalWords false rest)
      else pascalWords true rest
  end.

(** Modelled from the spec: [pascalCase] of core/utils/caseConversion is not
    among the sources.  Sections 3 and 4.1 call it the fixed word-casing
    convention that pascal-cases an id: the words of the id, which its
    separators delimit, each with a capital first letter, put together
    without the separators. *)
Definition pascalCaseModel (s : string) : string := pascalWords true s.

Fixpoint jsonStrings (fuel : nat) (j : Json) : list string :=
  match fuel with
  | O => []
  | S fuel' =>
      match j with
      | JString s => [s]
      | JArray items => concat (map (jsonStrings fuel') items)
      | JObject members => concat (map (fun kv => jsonStrings fuel' (snd kv)) members)
      | _ => []
      end
  end.

Definition hasUpperCase (s : string) : bool :=
  existsb (fun c => let n := nat_of_ascii c in Nat.leb 65 n && Nat.leb n 90)
    (list_ascii_of_string s).

(** A stand-in for the checksum validator in the examples: it reports the
    strings of a payload (to depth 8) that begin with 0x and have no capital
    letter. *)
Definition invalidAddresses (j : Json) : list string :=
  List.filter (fun s => String.prefix "0x" s && negb (hasUpperCase s))
    (jsonStrings 8 j).

Definition env : Collaborators := {|
  pascalCase := pascalCaseModel;
  Protocol := [("AaveV2", "aave-v2"); ("Lido", "lido")];
  Chain := [("Ethereum", 1%Z); ("Optimism", 10%Z)];
  ChainName := [(1%Z, "ethereum"); (10%Z, "op")];
  supportedProtocols := [("aave-v2", [1%Z]); ("lido", [1%Z])];
  path_resolve := fun p => "/repo/" +:+ p;
  getMetadataInvalidAddresses := invalidAddresses
|}.

Definition stableDebt : FileDetails := {|
  protocolId := "aave-v2";
  productId := "stable-debt-token";
  chainId := 1%Z;
  fileKey := "stable-debt-token-v2"
|}.

Definition stableDebtId : string :=
  "AaveV2StableDebtTokenEthereumStableDebtTokenV2".

Definition lidoStEth : FileDetails := {|
  protocolId := "lido"; productId := "st-eth"; chainId := 1%Z;
  fileKey := "protocol-token"
|}.

(** Two keys that differ in the product id only, by the case of a letter. *)
Definition lowerKey : FileDetails := {|
  protocolId := "lido"; productId := "a"; chainId := 1%Z; fileKey := "f"
|}.

Definition upperKey : FileDetails := {|
  protocolId := "lido"; productId := "A"; chainId := 1%Z; fileKey := "f"
|}.

(** The key of the stable debt token on a chain that the Chain table does
    not name. *)
Definition unlistedChain : FileDetails := {|
  protocolId := "aave-v2";
  productId := "stable-debt-token";
  chainId := 5%Z;
  fileKey := "stable-debt-token-v2"
|}.

Definition importOf (name source : string) : Node :=
  ImportDeclaration [Specifier ImportDefaultSpecifier (Some (Identifier name))]
    (Literal source).

(** [import './polyfill'] *)
Definition bareImport : Node := ImportDeclaration [] (Literal "./polyfill").

Definition pairFor (name : string) : Node :=
  ArrayExpression [CallExpression (Identifier "metadataKey") []; Identifier name].

Definition declaration (declarators : list Node) : Node :=
  OtherNode "ExportNamedDeclaration" [OtherNode "VariableDeclaration" declarators].

Definition metadataFiles (entries : list Node) : Node :=
  VariableDeclarator (Identifier "MetadataFiles")
    (Some (NewExpression (Identifier "Map") [ArrayExpression entries])).

(** [export const MetadataFiles = {}] *)
Definition mistypedMetadataFiles : Node :=
  VariableDeclarator (Identifier "MetadataFiles") (Some (ObjectExpression [])).

Definition helperFunction : Node := OtherNode "FunctionDeclaration" [Identifier "metadataKey"].

(** A registry file that already registers the stable-debt artifact. *)
Definition registered : Program := {|
  body := [importOf stableDebtId "../../adapters/aave-v2/products/stable-debt-token/metadata/ethereum.stable-debt-token-v2.json";
           declaration [metadataFiles [pairFor stableDebtId]];
           helperFunction]
|}.

(** A registry file with one other artifact registered. *)
Definition registry : Program := {|
  body := [importOf "LidoWstEthEthereumProtocolToken" "../../adapters/lido/products/wst-eth/metadata/ethereum.protocol-token.json";
           declaration [metadataFiles [pairFor "LidoWstEthEthereumProtocolToken"]];
           helperFunction]
|}.

Definition mistyped : Program := {|
  body := [declaration [mistypedMetadataFiles]; helperFunction]
|}.

Definition mistypedWithBareImport : Program := {|
  body := [bareImport; declaration [mistypedMetadataFiles]]
|}.

Definition withoutMetadataFiles : Program := {| body := [helperFunction] |}.

(** The stable-debt artifact registered, and a bare import after it. *)
Definition registeredWithBareImport : Program := {|
  body := [importOf stableDebtId "../../adapters/aave-v2/products/stable-debt-token/metadata/ethereum.stable-debt-token-v2.json";
           bareImport;
           declaration [metadataFiles [pairFor stableDebtId]]]
|}.

(** The stable-debt artifact registered, its identifier bound by the second
    specifier of an import: [import { other as Other, X } from '...'] *)
Definition boundSecond : Program := {|
  body := [ImportDeclaration
             [Specifier (ImportSpecifier "other") (Some (Identifier "Other"));
              Specifier (ImportSpecifier stableDebtId) (Some (Identifier stableDebtId))]
             (Literal "./artifacts");
           declaration [metadataFiles [pairFor stableDebtId]]]
|}.

(** The stable-debt artifact registered, and a second declarator named
    MetadataFiles, local to a function, with an empty array. *)
Definition secondDeclarator : Program := {|
  body := [importOf stableDebtId "../../adapters/aave-v2/products/stable-debt-token/metadata/ethereum.stable-debt-token-v2.json";
           declaration [metadataFiles [pairFor stableDebtId]];
           OtherNode "FunctionDeclaration"
             [OtherNode "BlockStatement"
                [OtherNode "VariableDeclaration" [metadataFiles []]]]]
|}.

Definition worldWith (ast : Program) : World := {|
  disk := {[ adapterMetadataFile env := SourceFile ast ]};
  events := []
|}.

Definition checksummed : Json :=
  JObject [("0x7Fc66500c84A76Ad7e9c93437bFc5Ac33E2DDaE9",
            JObject [("address", JString "0x7Fc66500c84A76Ad7e9c93437bFc5Ac33E2DDaE9")])].

Definition lowercased : Json :=
  JArray [JString "0x7fc66500c84a76ad7e9c93437bfc5ac33e2ddae9";
          JString "0x6b175474e89094c44da98b954eedeac495271d0f"].

Definition adapterWith (outcome : Outcome) : Adapter := {|
  adapterSettingsVersion := 2%Z;
  getProtocolTokens := outcome;
  adapterBuildMetadata := None
|}.

Definition goodAdapter : Adapter :=
  adapterWith (Resolves {| metadata := checksummed; fileDetails := stableDebt |}).

Definition lidoAdapter : Adapter :=
  adapterWith (Resolves {| metadata := checksummed; fileDetails := lidoStEth |}).

Definition badAddressAdapter : Adapter :=
  adapterWith (Resolves {| metadata := lowercased; fileDetails := stableDebt |}).

Definition silentAdapter : Adapter := adapterWith (Rejects NotImplementedError).

Definition brokenAdapter : Adapter :=
  adapterWith (Rejects (OtherRejection "call revert exception")).

(** A version-2 adapter with both capabilities: getProtocolTokens is not
    implemented, buildMetadata resolves. *)
Definition overridingAdapter : Adapter := {|
  adapterSettingsVersion := 2%Z;
  getProtocolTokens := Rejects NotImplementedError;
  adapterBuildMetadata :=
    Some (Resolves {| metadata := checksummed; fileDetails := stableDebt |})
|}.

Definition allProviders (chainId : Z) : bool := true.

Definition adaptersOf (aave lido : list Adapter) (chainId : Z) (protocolId : string)
    : list Adapter :=
  if bool_decide (protocolId = "aave-v2") then aave
  else if bool_decide (protocolId = "lido") then lido else [].

End Sample.

(** * Properties *)

(** ** Results, [mapR] and [findR] *)

Lemma mapR_ok_same {A : Type} (f : A -> Result A) (l : list A) :
  (forall x, x ∈ l -> f x = Ok x) -> mapR f l = Ok l.
Proof.
  induction l as [|x l IH]; intros H; simpl; [reflexivity|].
  rewrite (H x) by (left; reflexivity). simpl.
  rewrite IH; [reflexivity|]. intros y Hy. apply H. right. exact Hy.
Qed.

Lemma mapR_ok_inv {A B : Type} (f : A -> Result B) (l : list A) (l' : list B) :
  mapR f l = Ok l' -> forall x, x ∈ l -> exists y, f x = Ok y.
Proof.
  revert l'. induction l as [|x l IH]; intros l' H y Hy.
  - inversion Hy.
  - simpl in H. destruct (f x) as [b| |] eqn:Hx; simpl in H; try discriminate.
    destruct (mapR f l) as [bs| |] eqn:Hl; simpl in H; try discriminate.
    apply elem_of_cons in Hy as [->|Hy]; [eauto|]. eapply IH; eauto.
Qed.

Lemma mapR_throw_inv {A B : Type} (f : A -> Result B) (l : list A) (e : Error) :
  mapR f l = Throw e -> exists x, x ∈ l /\ f x = Throw e.
Proof.
  induction l as [|x l IH]; simpl; intros H; [discriminate|].
  destruct (f x) as [b| |] eqn:Hx; simpl in H; try discriminate.
  - destruct (mapR f l) as [bs| |] eqn:Hl; simpl in H; try discriminate.
    injection H as ->. destruct IH as (y & Hy & Hfy); [reflexivity|].
    exists y. split; [right; exact Hy|exact Hfy].
  - injection H as ->. exists x. split; [left|exact Hx].
Qed.

Lemma mapR_exhausted_inv {A B : Type} (f : A -> Result B) (l : list A) :
  mapR f l = Exhausted -> exists x, x ∈ l /\ f x = Exhausted.
Proof.
  induction l as [|x l IH]; simpl; intros H; [discriminate|].
  destruct (f x) as [b| |] eqn:Hx; simpl in H; try discriminate.
  - destruct (mapR f l) as [bs| |] eqn:Hl; simpl in H; try discriminate.
    destruct IH as (y & Hy & Hfy); [reflexivity|].
    exists y. split; [right; exact Hy|exact Hfy].
  - exists x. split; [left|exact Hx].
Qed.

Lemma findR_none {A : Type} (p : A -> Result bool) (l : list A) :
  Forall (fun x => p x = Ok false) l -> findR p l = Ok None.
Proof.
  induction 1 as [|x l Hx _ IH]; simpl; [reflexivity|].
  rewrite Hx. simpl. exact IH.
Qed.

Lemma findR_some {A : Type} (p : A -> Result bool) (l : list A) (x : A) :
  Forall (fun y => exists b, p y = Ok b) l -> x ∈ l -> p x = Ok true ->
  exists y, findR p l = Ok (Some y).
Proof.
  induction 1 as [|z l [b Hz] _ IH]; intros Hin Hx; [inversion Hin|].
  simpl. rewrite Hz. simpl. destruct b; [eauto|].
  apply elem_of_cons in Hin as [->|Hin]; [congruence|]. apply IH; assumption.
Qed.

Lemma findR_none_inv {A : Type} (p : A -> Result bool) (l : list A) :
  findR p l = Ok None -> forall x, x ∈ l -> p x <> Ok true.
Proof.
  induction l as [|y l IH]; intros H x Hx; [inversion Hx|].
  simpl in H. destruct (p y) as [[]| |] eqn:Hy; simpl in H; try discriminate.
  apply elem_of_cons in Hx as [->|Hx]; [congruence|]. exact (IH H x Hx).
Qed.

(** A lookup never invents a failure: it throws only where its callback
    does. *)
Lemma findR_throw_inv {A : Type} (p : A -> Result bool) (l : list A) (e : Error) :
  findR p l = Throw e -> exists x, x ∈ l /\ p x = Throw e.
Proof.
  induction l as [|x l IH]; simpl; intros H; [discriminate|].
  destruct (p x) as [[]| |] eqn:Hx; simpl in H; try discriminate.
  - destruct (IH H) as (y & Hy & Hpy). exists y. split; [right|]; assumption.
  - injection H as ->. exists x. split; [left|exact Hx].
Qed.

Lemma findR_not_exhausted {A : Type} (p : A -> Result bool) (l : list A) :
  (forall x, p x <> Exhausted) -> findR p l <> Exhausted.
Proof.
  intros Hp. induction l as [|x l IH]; simpl; [discriminate|].
  destruct (p x) as [[]| |] eqn:Hx; simpl; try discriminate; [exact IH|].
  exfalso. exact (Hp x Hx).
Qed.

(** ** The import-section edit *)

Section ImportEdit.

Variable env : Collaborators.
Variables (protocolKey chainKey : option string).
Variables (protocolId productId fileKey : string) (chainId : Z).

Let name := generatedIdentifier env protocolKey productId chainKey fileKey.
Let isThis := isMetadataImport env protocolKey productId chainKey fileKey.
Let edit (programBody : list Node) :=
  addAdapterMetadataImport env programBody
    protocolKey protocolId productId chainKey chainId fileKey.

Lemma first_specifier_name (first : Node) (wanted : string) :
  prop_local first ≫= prop_name = Some wanted <->
  exists t, first = Specifier t (Some (Identifier wanted)).
Proof.
  split.
  - destruct first as [| | | | | | | | |t [l|]| | |]; simpl; try discriminate.
    destruct l; simpl; try discriminate. intros [= ->]. eauto.
  - intros [t ->]. reflexivity.
Qed.

Lemma isMetadataImport_found (n : Node) :
  ImportedAs name n -> isThis n = Ok true.
Proof.
  intros (t & specifiers & source & ->). unfold isThis, isMetadataImport. simpl.
  rewrite bool_decide_eq_true_2; reflexivity.
Qed.

Lemma isMetadataImport_other (n : Node) :
  HasSpecifier n -> ~ ImportedAs name n -> isThis n = Ok false.
Proof.
  intros Hspec Hnot. unfold isThis, isMetadataImport.
  destruct n; try reflexivity.
  destruct specifiers as [|first others]; [exfalso; eapply Hspec; reflexivity|].
  rewrite bool_decide_eq_false_2; [reflexivity|].
  intros Hname. apply first_specifier_name in Hname as [t ->].
  apply Hnot. unfold ImportedAs. eauto.
Qed.

Lemma isMetadataImport_throws (n : Node) (e : Error) :
  isThis n = Throw e -> e = TypeError /\ exists source, n = ImportDeclaration [] source.
Proof.
  unfold isThis, isMetadataImport. destruct n; try discriminate.
  destruct specifiers; [|discriminate]. intros [= <-]. eauto.
Qed.

Lemma isMetadataImport_not_exhausted (n : Node) : isThis n <> Exhausted.
Proof.
  unfold isThis, isMetadataImport. destruct n; try discriminate.
  destruct specifiers; discriminate.
Qed.

Lemma partition_leading (imports rest : list Node) :
  LeadingImports imports rest ->
  List.partition isImportDeclaration (imports ++ rest) = (imports, rest).
Proof.
  intros [Himports Hrest]. induction Himports as [|x l Hx _ IH]; simpl.
  - induction Hrest as [|y r Hy _ IHr]; simpl; [reflexivity|].
    rewrite IHr, Hy. reflexivity.
  - rewrite IH, Hx. reflexivity.
Qed.

Lemma partition_imports (programBody : list Node) :
  fst (List.partition isImportDeclaration programBody) =
  List.filter isImportDeclaration programBody.
Proof.
  rewrite (partition_as_filter isImportDeclaration programBody). reflexivity.
Qed.

Lemma edit_unfold (programBody : list Node) :
  edit programBody =
  (found <- findR isThis (List.filter isImportDeclaration programBody) ;;
   match found with
   | Some _ => Ok programBody
   | None =>
       Ok (List.filter isImportDeclaration programBody ++
           [buildImportAdapterMetadataEntry env
              protocolKey protocolId productId chainKey chainId fileKey] ++
           List.filter (fun n => negb (isImportDeclaration n)) programBody)
   end).
Proof.
  unfold edit, addAdapterMetadataImport.
  rewrite (partition_as_filter isImportDeclaration programBody). reflexivity.
Qed.

(** The edit throws nothing but the TypeError of a bare import, and never
    runs out of fuel (it has none). *)
Lemma edit_throws (programBody : list Node) (e : Error) :
  edit programBody = Throw e ->
  e = TypeError /\ exists source, ImportDeclaration [] source ∈ programBody.
Proof.
  rewrite edit_unfold.
  destruct (findR isThis _) as [[x|]| |] eqn:Hfind; simpl; try discriminate.
  intros [= <-]. apply findR_throw_inv in Hfind as (x & Hx & Hthrow).
  apply isMetadataImport_throws in Hthrow as [-> [source ->]].
  split; [reflexivity|]. exists source.
  apply list_elem_of_In, filter_In in Hx as [Hx _]. apply list_elem_of_In, Hx.
Qed.

Lemma edit_not_exhausted (programBody : list Node) : edit programBody <> Exhausted.
Proof.
  rewrite edit_unfold.
  destruct (findR isThis _) as [[x|]| |] eqn:Hfind; simpl; try discriminate.
  intros _. revert Hfind. apply findR_not_exhausted, isMetadataImport_not_exhausted.
Qed.

(** With a specifier on every import, the edit completes. *)
Lemma edit_total (programBody : list Node) :
  Forall HasSpecifier programBody -> exists body', edit programBody = Ok body'.
Proof.
  intros Hall. destruct (edit programBody) as [b|e|] eqn:Hedit; [eauto| |].
  - apply edit_throws in Hedit as [_ [source Hin]].
    rewrite Forall_forall in Hall. exfalso. exact (Hall _ Hin source eq_refl).
  - exfalso. exact (edit_not_exhausted _ Hedit).
Qed.

(** An import that binds the identifier, with a specifier on every import:
    the body is left as it is. *)
Lemma edit_registered (programBody : list Node) (n : Node) :
  Forall HasSpecifier programBody -> n ∈ programBody -> ImportedAs name n ->
  edit programBody = Ok programBody.
Proof.
  intros Hall Hin Hn. rewrite edit_unfold.
  destruct (findR_some isThis (List.filter isImportDeclaration programBody) n)
    as [y ->]; [| | |reflexivity].
  - apply Forall_forall. intros x Hx.
    apply list_elem_of_In, filter_In in Hx as [Hx _]. apply list_elem_of_In in Hx.
    rewrite Forall_forall in Hall.
    destruct (isThis x) as [b|e|] eqn:Hres; [eauto| |].
    + apply isMetadataImport_throws in Hres as [_ [source ->]].
      exfalso. exact (Hall _ Hx source eq_refl).
    + exfalso. exact (isMetadataImport_not_exhausted _ Hres).
  - apply list_elem_of_In, filter_In. split; [apply list_elem_of_In, Hin|].
    destruct Hn as (t & ss & src & ->). reflexivity.
  - apply isMetadataImport_found, Hn.
Qed.

(** Whatever the body, the edit leaves it as it is or fails on a bare import
    when some import binds the identifier. *)
Lemma edit_registered_weak (programBody : list Node) (n : Node) :
  n ∈ programBody -> ImportedAs name n ->
  edit programBody = Ok programBody \/ edit programBody = Throw TypeError.
Proof.
  intros Hin Hn. rewrite edit_unfold.
  destruct (findR isThis _) as [[x|]| |] eqn:Hfind; simpl.
  - left. reflexivity.
  - exfalso. eapply (findR_none_inv _ _ Hfind n).
    + apply list_elem_of_In, filter_In. split; [apply list_elem_of_In, Hin|].
      destruct Hn as (t & ss & src & ->). reflexivity.
    + apply isMetadataImport_found, Hn.
  - right. apply findR_throw_inv in Hfind as (x & _ & Hthrow).
    apply isMetadataImport_throws in Hthrow as [-> _]. reflexivity.
  - exfalso. revert Hfind. apply findR_not_exhausted, isMetadataImport_not_exhausted.
Qed.

End ImportEdit.

Lemma findR_throws_at {A : Type} (p : A -> Result bool) (l1 l2 : list A) (x : A) (e : Error) :
  Forall (fun y => p y = Ok false \/ p y = Throw e) l1 -> p x = Throw e ->
  findR p (l1 ++ x :: l2) = Throw e.
Proof.
  intros Hl1 Hx. induction Hl1 as [|y l [Hy|Hy] _ IH]; simpl.
  - rewrite Hx. reflexivity.
  - rewrite Hy. simpl. exact IH.
  - rewrite Hy. reflexivity.
Qed.

Lemma isMetadataImport_unbound (env : Collaborators)
    (protocolKey chainKey : option string) (productId fileKey : string) (n : Node) :
  ~ ImportedAs (generatedIdentifier env protocolKey productId chainKey fileKey) n ->
  isMetadataImport env protocolKey productId chainKey fileKey n = Ok false \/
  isMetadataImport env protocolKey productId chainKey fileKey n = Throw TypeError.
Proof.
  intros Hnot. destruct n; try (left; reflexivity).
  destruct specifiers as [|first others]; [right; reflexivity|].
  left. apply isMetadataImport_other; [|exact Hnot]. intros source. discriminate.
Qed.

(** C6 (as amended).  For a program body whose import statements form a
    leading run, each of them with at least one specifier, and none of them
    binding the generated identifier, the import-section edit returns all
    the imports in their order, then the one new import, which binds the
    generated identifier to the relative path of the artifact, then all the
    other statements in their order; the imports of the new body are again
    a leading run. *)
Theorem C6_import_placement (env : Collaborators) (details : FileDetails)
    (imports rest : list Node) :
  LeadingImports imports rest ->
  Forall HasSpecifier imports ->
  Forall (fun n => ~ ImportedAs (identifierOf env details) n) imports ->
  importEditFor env details (imports ++ rest) =
    Ok (imports ++ [importFor env details] ++ rest) /\
  importFor env details =
    ImportDeclaration
      [Specifier ImportDefaultSpecifier (Some (Identifier (identifierOf env details)))]
      (Literal ("../../" +:+ artifactTemplate env details)) /\
  LeadingImports (imports ++ [importFor env details]) rest.
Proof.
  intros Hlead Hspec Hnew. split; [|split].
  - unfold importEditFor, addAdapterMetadataImport.
    rewrite (partition_leading _ _ Hlead).
    rewrite findR_none; [reflexivity|].
    apply Forall_forall. intros n Hn. rewrite Forall_forall in Hspec, Hnew.
    apply isMetadataImport_other; [apply Hspec, Hn|apply Hnew, Hn].
  - reflexivity.
  - destruct Hlead as [Himports Hrest]. split; [|exact Hrest].
    apply Forall_app. split; [exact Himports|].
    constructor; [reflexivity|constructor].
Qed.

Lemma C6_import_placement_witness :
  importEditFor Sample.env Sample.stableDebt
    ([Sample.importOf "LidoWstEthEthereumProtocolToken" "./lido.json"] ++
     [Sample.helperFunction]) =
  Ok ([Sample.importOf "LidoWstEthEthereumProtocolToken" "./lido.json"] ++
      [importFor Sample.env Sample.stableDebt] ++ [Sample.helperFunction]).
Proof.
  apply (C6_import_placement Sample.env Sample.stableDebt
           [Sample.importOf "LidoWstEthEthereumProtocolToken" "./lido.json"]
           [Sample.helperFunction]).
  - split; repeat constructor.
  - repeat constructor. intros source. discriminate.
  - repeat constructor. intros (t & specifiers & source & H). discriminate.
Defined.

(** C6 as stated fails: a bare import belongs to the leading run, nothing
    binds the identifier, and the edit throws instead of returning a body. *)
Lemma C6_counterexample :
  LeadingImports [Sample.bareImport] [Sample.helperFunction] /\
  Forall (fun n => ~ ImportedAs (identifierOf Sample.env Sample.stableDebt) n)
    [Sample.bareImport] /\
  importEditFor Sample.env Sample.stableDebt
    ([Sample.bareImport] ++ [Sample.helperFunction]) = Throw TypeError.
Proof.
  split; [|split].
  - split; repeat constructor.
  - repeat constructor. intros (t & specifiers & source & H). discriminate.
  - reflexivity.
Qed.

(** C10 (as amended).  When the top-level statements include an import
    declaration with an empty specifier list and no statement before it
    binds the generated identifier, the lookup of the import-section edit
    throws a TypeError, and [addStaticImport] stops there: nothing is
    edited, written or printed.  The lookup completes whenever every import
    declaration of the file has at least one specifier. *)
Theorem C10_import_lookup_partial (env : Collaborators) (details : FileDetails)
    (before after : list Node) (source : Node) :
  Forall (fun n => ~ ImportedAs (identifierOf env details) n) before ->
  importEditFor env details (before ++ ImportDeclaration [] source :: after) =
    Throw TypeError /\
  (forall w,
     disk w !! adapterMetadataFile env =
       Some (SourceFile {| body := before ++ ImportDeclaration [] source :: after |}) ->
     addStaticImport env details w = (Throw TypeError, w)) /\
  (forall programBody,
     Forall HasSpecifier programBody ->
     exists body', importEditFor env details programBody = Ok body').
Proof.
  intros Hbefore.
  assert (Hthrow : importEditFor env details
                     (before ++ ImportDeclaration [] source :: after) = Throw TypeError).
  { unfold importEditFor. rewrite edit_unfold.
    rewrite List.filter_app. simpl.
    rewrite (findR_throws_at _ _ _ _ TypeError); [reflexivity| |reflexivity].
    apply Forall_forall. intros n Hn.
    apply list_elem_of_In, filter_In in Hn as [Hn _]. apply list_elem_of_In in Hn.
    rewrite Forall_forall in Hbefore.
    apply isMetadataImport_unbound, Hbefore, Hn. }
  split; [exact Hthrow|split].
  - intros w Hfile. unfold addStaticImport, bindM, readAndParse. rewrite Hfile.
    unfold liftR, visit, visitProgram. simpl body.
    unfold importEditFor in Hthrow. rewrite Hthrow. reflexivity.
  - intros programBody Hall. apply edit_total, Hall.
Qed.

Lemma C10_import_lookup_partial_witness :
  importEditFor Sample.env Sample.stableDebt
    ([Sample.importOf "LidoWstEthEthereumProtocolToken" "./lido.json"] ++
     ImportDeclaration [] (Literal "./polyfill") :: [Sample.helperFunction]) =
  Throw TypeError.
Proof.
  apply (C10_import_lookup_partial Sample.env Sample.stableDebt
           [Sample.importOf "LidoWstEthEthereumProtocolToken" "./lido.json"]
           [Sample.helperFunction] (Literal "./polyfill")).
  repeat constructor. intros (t & specifiers & src & H). discriminate.
Defined.

(** C10 as stated fails: the file has a bare import, yet the lookup finds the
    identifier in the import before it and does not throw. *)
Lemma C10_counterexample :
  Sample.bareImport ∈ body Sample.registeredWithBareImport /\
  Sample.bareImport = ImportDeclaration [] (Literal "./polyfill") /\
  importEditFor Sample.env Sample.stableDebt (body Sample.registeredWithBareImport) =
    Ok (body Sample.registeredWithBareImport) /\
  visit Sample.env Sample.registeredWithBareImport Sample.stableDebt =
    Ok Sample.registeredWithBareImport.
Proof.
  split; [|split; [|split]].
  - right. left.
  - reflexivity.
  - reflexivity.
  - reflexivity.
Qed.

(** ** The sorting rule *)

Section Sorting.

Context {A : Type}.

Local Abbreviation keyedList := (list (option string * A)).

Lemma string_ltb_le (a b : string) : String.ltb a b = false <-> String.le b a.
Proof.
  unfold String.le, String.ltb, String.leb. rewrite (String.compare_antisym b a).
  destruct (String.compare a b); simpl; split; intros H;
    solve [reflexivity | discriminate | exact I | contradiction].
Qed.

Lemma keyLt_irrefl (k : option string) : keyLt k k = false.
Proof.
  destruct k as [a|]; [|reflexivity]. simpl. apply string_ltb_le. reflexivity.
Qed.

Lemma insertSorted_elem (x y : option string * A) (l : keyedList) :
  y ∈ insertSorted x l <-> y = x \/ y ∈ l.
Proof.
  induction l as [|z l IH]; simpl.
  - rewrite list_elem_of_singleton. split; [auto|]. intros [H|H]; [exact H|inversion H].
  - destruct (keyLt (fst z) (fst x)).
    + rewrite !elem_of_cons, IH. tauto.
    + rewrite !elem_of_cons. tauto.
Qed.

Lemma sorted_elem (y : option string * A) (l : keyedList) :
  y ∈ foldr insertSorted [] l <-> y ∈ l.
Proof.
  induction l as [|x l IH]; simpl; [reflexivity|].
  rewrite insertSorted_elem, elem_of_cons, IH. reflexivity.
Qed.

(** Stability: among the entries of one key the order is the original one. *)
Lemma insertSorted_withKey (k : option string) (x : option string * A) (l : keyedList) :
  List.filter (withKey k) (insertSorted x l) =
  List.filter (withKey k) (x :: l).
Proof.
  induction l as [|y l IH]; [reflexivity|]. simpl insertSorted.
  destruct (keyLt (fst y) (fst x)) eqn:Hlt; [|reflexivity].
  assert (Hne : fst y <> fst x).
  { intros Heq. rewrite Heq, keyLt_irrefl in Hlt. discriminate. }
  change (List.filter (withKey k) (y :: insertSorted x l))
    with (if withKey k y then y :: List.filter (withKey k) (insertSorted x l)
          else List.filter (withKey k) (insertSorted x l)).
  rewrite IH. simpl. unfold withKey.
  destruct (bool_decide_reflect (fst x = k)) as [Hx|Hx];
    destruct (bool_decide_reflect (fst y = k)) as [Hy|Hy]; try reflexivity.
  congruence.
Qed.

Lemma sorted_withKey (k : option string) (l : keyedList) :
  List.filter (withKey k) (foldr insertSorted [] l) = List.filter (withKey k) l.
Proof.
  induction l as [|x l IH]; [reflexivity|]. simpl foldr.
  rewrite insertSorted_withKey. simpl. rewrite IH. reflexivity.
Qed.

Lemma insertSorted_sorted (x : option string * A) (l : keyedList) :
  is_Some (fst x) -> Forall (fun y => is_Some (fst y)) l ->
  StronglySorted KeyLe l -> StronglySorted KeyLe (insertSorted x l).
Proof.
  intros [a Ha] Hkeys Hsorted. induction Hsorted as [|y l Hl IH Hy]; simpl.
  - repeat constructor.
  - apply Forall_cons in Hkeys as [[b Hb] Hkeys].
    destruct (keyLt (fst y) (fst x)) eqn:Hlt.
    + constructor; [exact (IH Hkeys)|].
      apply Forall_forall. intros z Hz. apply insertSorted_elem in Hz as [->|Hz].
      * rewrite Ha, Hb in Hlt. simpl in Hlt. exists b, a. repeat split; try assumption.
        destruct (String.le_total b a) as [H|H]; [exact H|].
        apply string_ltb_le in H. congruence.
      * rewrite Forall_forall in Hy. exact (Hy z Hz).
    + assert (Hxy : KeyLe x y).
      { rewrite Ha, Hb in Hlt. simpl in Hlt. apply string_ltb_le in Hlt.
        exists a, b. auto. }
      constructor; [constructor; assumption|].
      constructor; [exact Hxy|].
      apply Forall_forall. intros z Hz. rewrite Forall_forall in Hy.
      destruct Hxy as (a1 & b1 & Ha1 & Hb1 & Hab), (Hy z Hz) as (b2 & c & Hb2 & Hc & Hbc).
      exists a1, c. repeat split; try assumption.
      assert (b1 = b2) as -> by congruence. etrans; eassumption.
Qed.

Lemma sorted_sorted (l : keyedList) :
  Forall (fun y => is_Some (fst y)) l ->
  StronglySorted KeyLe (foldr insertSorted [] l).
Proof.
  induction 1 as [|x l Hx Hl IH]; simpl; [constructor|].
  apply insertSorted_sorted; [exact Hx| |exact IH].
  apply Forall_forall. intros y Hy. apply (proj1 (sorted_elem _ _)) in Hy.
  rewrite Forall_forall in Hl. exact (Hl y Hy).
Qed.

Lemma withKey_head (x : option string * A) (l : keyedList) :
  List.filter (withKey (fst x)) (x :: l) = x :: List.filter (withKey (fst x)) l.
Proof. simpl. unfold withKey at 1. rewrite bool_decide_eq_true_2; reflexivity. Qed.

Lemma withKey_elem (x : option string * A) (l : keyedList) :
  x ∈ l <-> x ∈ List.filter (withKey (fst x)) l.
Proof.
  rewrite !list_elem_of_In, filter_In. unfold withKey.
  rewrite bool_decide_eq_true. tauto.
Qed.

(** Two sorted lists that agree key by key are the same list. *)
Lemma sorted_unique (l1 l2 : keyedList) :
  StronglySorted KeyLe l1 -> StronglySorted KeyLe l2 ->
  (forall k, List.filter (withKey k) l1 = List.filter (withKey k) l2) ->
  l1 = l2.
Proof.
  intros H1. revert l2. induction H1 as [|x l1 Hl1 IH Hx]; intros l2 H2 Hsame.
  - destruct l2 as [|y l2]; [reflexivity|].
    specialize (Hsame (fst y)). rewrite withKey_head in Hsame. discriminate.
  - destruct H2 as [|y l2 Hl2 Hy].
    { specialize (Hsame (fst x)). rewrite withKey_head in Hsame. discriminate. }
    assert (Hkey : fst x = fst y).
    { assert (Hxin : x ∈ y :: l2).
      { apply withKey_elem. rewrite <- Hsame, withKey_head. left. }
      assert (Hyin : y ∈ x :: l1).
      { apply withKey_elem. rewrite Hsame, withKey_head. left. }
      apply elem_of_cons in Hxin as [->|Hxin]; [reflexivity|].
      apply elem_of_cons in Hyin as [->|Hyin]; [reflexivity|].
      rewrite Forall_forall in Hx, Hy.
      destruct (Hy x Hxin) as (b & a & Hb & Ha & Hba).
      destruct (Hx y Hyin) as (a' & b' & Ha' & Hb' & Hab).
      assert (a' = a) as -> by congruence. assert (b' = b) as -> by congruence.
      rewrite Ha, Hb. f_equal. apply (anti_symm String.le); assumption. }
    assert (Hhead : x = y).
    { specialize (Hsame (fst x)). rewrite withKey_head in Hsame.
      rewrite Hkey, withKey_head in Hsame. congruence. }
    subst y. f_equal. apply IH; [exact Hl2|].
    intros k. specialize (Hsame k). simpl in Hsame.
    destruct (withKey k x); congruence.
Qed.

End Sorting.

(** ** The registry-entry edit *)

Lemma pair_has_second (entry : Node) : IsPair entry -> HasSecond entry.
Proof. intros [name [k ->]]. unfold HasSecond. eauto. Qed.

Lemma pair_nameKey (name : string) (entry : Node) :
  PairOf name entry -> nameKey entry = Some name.
Proof. intros [k ->]. reflexivity. Qed.

Lemma readable_entryName (entry : Node) :
  HasSecond entry -> entryName entry = Ok (nameKey entry).
Proof. intros (a & b & others & ->). reflexivity. Qed.

Lemma entryName_throws (entry : Node) (e : Error) :
  entryName entry = Throw e -> e = TypeError /\ ~ HasSecond entry.
Proof.
  intros H. split.
  - destruct entry; try (injection H as <-; reflexivity).
    destruct elements as [|a [|b others]]; simpl in H; congruence.
  - intros (a & b & others & ->). discriminate.
Qed.

Lemma entryName_not_exhausted (entry : Node) : entryName entry <> Exhausted.
Proof.
  destruct entry; try discriminate.
  destruct elements as [|a [|b others]]; discriminate.
Qed.

Lemma sortEntries_readable (entries : list Node) :
  Forall HasSecond entries -> sortEntries entries entryName = Ok (sortByName entries).
Proof.
  intros Hall. unfold sortEntries, sortByName.
  assert (mapR (fun entry => k <- entryName entry;; Ok (k, entry)) entries =
          Ok (map (fun entry => (nameKey entry, entry)) entries)) as ->; [|reflexivity].
  induction Hall as [|x l Hx _ IH]; simpl; [reflexivity|].
  rewrite (readable_entryName _ Hx). simpl. rewrite IH. reflexivity.
Qed.

Lemma entryName_ok (entry : Node) (k : option string) :
  entryName entry = Ok k -> HasSecond entry.
Proof.
  destruct entry; try discriminate.
  destruct elements as [|a [|b others]]; try discriminate.
  intros _. unfold HasSecond. eauto.
Qed.

Lemma sortEntries_ok (entries sorted : list Node) :
  sortEntries entries entryName = Ok sorted ->
  Forall HasSecond entries /\ sorted = sortByName entries.
Proof.
  intros H. assert (Hall : Forall HasSecond entries).
  { unfold sortEntries in H.
    destruct (mapR _ entries) as [keyed|e'|] eqn:Hmap; simpl in H; try discriminate.
    apply Forall_forall. intros x Hx.
    destruct (mapR_ok_inv _ _ _ Hmap x Hx) as [y Hy].
    destruct (entryName x) as [k|e'|] eqn:Hname; simpl in Hy; try discriminate.
    exact (entryName_ok _ _ Hname). }
  split; [exact Hall|]. rewrite (sortEntries_readable _ Hall) in H. congruence.
Qed.

Lemma sortEntries_throws (entries : list Node) (e : Error) :
  sortEntries entries entryName = Throw e ->
  e = TypeError /\ exists entry, entry ∈ entries /\ ~ HasSecond entry.
Proof.
  unfold sortEntries. intros H.
  destruct (mapR _ entries) as [keyed|e'|] eqn:Hmap; simpl in H; try discriminate.
  injection H as ->. apply mapR_throw_inv in Hmap as (x & Hx & Hthrow).
  destruct (entryName x) as [k|e'|] eqn:Hname; simpl in Hthrow; try discriminate.
  injection Hthrow as ->. apply entryName_throws in Hname as [-> Hno]. eauto.
Qed.

Lemma sortEntries_not_exhausted (entries : list Node) :
  sortEntries entries entryName <> Exhausted.
Proof.
  unfold sortEntries. intros H.
  destruct (mapR _ entries) as [keyed|e'|] eqn:Hmap; simpl in H; try discriminate.
  apply mapR_exhausted_inv in Hmap as (x & _ & Hx).
  destruct (entryName x) as [k|e'|] eqn:Hname; simpl in Hx; try discriminate.
  exact (entryName_not_exhausted _ Hname).
Qed.

Lemma sortByName_elem (entry : Node) (entries : list Node) :
  entry ∈ sortByName entries <-> entry ∈ entries.
Proof.
  unfold sortByName. rewrite !list_elem_of_fmap. split.
  - intros ([k x] & -> & Hin). apply sorted_elem, list_elem_of_fmap in Hin as (y & [= -> ->] & Hy).
    exact Hy.
  - intros Hin. exists (nameKey entry, entry). split; [reflexivity|].
    apply sorted_elem, list_elem_of_fmap. eauto.
Qed.

Lemma keyed_back (keyed : list (option string * Node)) :
  Forall (fun p => fst p = nameKey (snd p)) keyed ->
  map (fun entry => (nameKey entry, entry)) (map snd keyed) = keyed.
Proof.
  induction 1 as [|[k x] l Hx _ IH]; simpl; [reflexivity|].
  simpl in Hx. rewrite IH, Hx. reflexivity.
Qed.

Lemma keyed_sorted_back (entries : list Node) :
  map (fun entry => (nameKey entry, entry)) (sortByName entries) =
  foldr insertSorted [] (map (fun entry => (nameKey entry, entry)) entries).
Proof.
  unfold sortByName. apply keyed_back, Forall_forall. intros p Hp.
  apply sorted_elem, list_elem_of_fmap in Hp as (y & -> & _). reflexivity.
Qed.

(** Sorting after each of two insertions gives the array that holds both,
    whichever came first, when the two keys differ. *)
Lemma sortByName_twice (entries : list Node) (a b : Node) :
  Forall IsPair entries -> IsPair a -> IsPair b -> nameKey a <> nameKey b ->
  sortByName (sortByName (entries ++ [a]) ++ [b]) =
  sortByName (sortByName (entries ++ [b]) ++ [a]).
Proof.
  intros Hentries Ha Hb Hne.
  assert (Hsome : forall l : list Node, Forall IsPair l ->
            Forall (fun y : option string * Node => is_Some (fst y))
              (map (fun entry => (nameKey entry, entry)) l)).
  { intros l Hl. apply Forall_forall. intros p Hp.
    apply list_elem_of_fmap in Hp as (y & -> & Hy). rewrite Forall_forall in Hl.
    destruct (Hl y Hy) as [name Hname]. rewrite (pair_nameKey _ _ Hname). eauto. }
  assert (Hboth : forall x y : Node, IsPair x -> IsPair y ->
            Forall (fun p : option string * Node => is_Some (fst p))
              (foldr insertSorted [] (map (fun entry => (nameKey entry, entry)) (entries ++ [x])) ++
               map (fun entry => (nameKey entry, entry)) [y])).
  { intros x y Hx Hy. apply Forall_app. split.
    - apply Forall_forall. intros p Hp. apply (proj1 (sorted_elem _ _)) in Hp.
      revert p Hp. apply Forall_forall, Hsome, Forall_app. split; [exact Hentries|].
      constructor; [exact Hx|constructor].
    - apply Hsome. constructor; [exact Hy|constructor]. }
  unfold sortByName at 1 3. f_equal.
  rewrite !map_app, !keyed_sorted_back.
  apply sorted_unique.
  - apply sorted_sorted, Hboth; assumption.
  - apply sorted_sorted, Hboth; assumption.
  - intros k. rewrite !sorted_withKey, !List.filter_app, !sorted_withKey.
    rewrite !map_app, !List.filter_app, <- !app_assoc. f_equal.
    simpl. unfold withKey. simpl.
    destruct (bool_decide_reflect (nameKey a = k)) as [Hak|Hak];
      destruct (bool_decide_reflect (nameKey b = k)) as [Hbk|Hbk];
      try reflexivity.
    congruence.
Qed.

Section EntryEdit.

Variable env : Collaborators.
Variables (protocolKey chainKey : option string) (productId fileKey : string).

Let name := generatedIdentifier env protocolKey productId chainKey fileKey.
Let isThis := isMetadataFileEntry env protocolKey productId chainKey fileKey.
Let newEntry := entryFor env protocolKey productId chainKey fileKey.
Let edit (declarator : Node) :=
  addAdapterMetadataEntry env declarator protocolKey productId chainKey fileKey.

Lemma isMetadataFileEntry_spec (entry : Node) :
  isThis entry = true <-> PairOf name entry.
Proof.
  unfold isThis, isMetadataFileEntry, PairOf. split.
  - destruct entry; try discriminate.
    destruct elements as [|a [|b [|c others]]]; try discriminate;
      destruct b; try discriminate.
    intros H. apply bool_decide_eq_true in H. subst name0. eauto.
  - intros [k ->]. apply bool_decide_eq_true. reflexivity.
Qed.

Lemma newEntry_pair : PairOf name newEntry.
Proof. unfold newEntry, entryFor, PairOf. eauto. Qed.

Lemma edit_unfold_entry (id callee : Node) (others elements : list Node) :
  edit (declaratorOf id callee others elements) =
  match List.find isThis elements with
  | Some _ => Ok (declaratorOf id callee others elements)
  | None =>
      _ <- b_identifier protocolKey ;;
      _ <- b_identifier chainKey ;;
      sorted <- sortEntries (elements ++ [newEntry]) entryName ;;
      Ok (declaratorOf id callee others sorted)
  end.
Proof.
  unfold edit, isThis, addAdapterMetadataEntry, declaratorOf.
  destruct (List.find _ elements); [reflexivity|].
  destruct protocolKey, chainKey; reflexivity.
Qed.

(** With a name for the protocol and for the chain, the builders complete. *)
Lemma edit_unfold_keys (id callee : Node) (others elements : list Node) :
  (exists k, protocolKey = Some k) -> (exists k, chainKey = Some k) ->
  edit (declaratorOf id callee others elements) =
  match List.find isThis elements with
  | Some _ => Ok (declaratorOf id callee others elements)
  | None =>
      sorted <- sortEntries (elements ++ [newEntry]) entryName ;;
      Ok (declaratorOf id callee others sorted)
  end.
Proof.
  intros [pk Hp] [ck Hc]. rewrite edit_unfold_entry, Hp, Hc. reflexivity.
Qed.

(** Without one, and without a pair for the identifier in the array, the
    edit throws the builder's error, whatever the array holds. *)
Lemma edit_without_key (id callee : Node) (others elements : list Node) :
  protocolKey = None \/ chainKey = None ->
  List.find isThis elements = None ->
  edit (declaratorOf id callee others elements) = Throw BuilderError.
Proof.
  intros Hkey Hfind. rewrite edit_unfold_entry, Hfind.
  destruct Hkey as [-> | ->]; [reflexivity|].
  destruct protocolKey; reflexivity.
Qed.

Lemma edit_mistyped (id : Node) (init : option Node) :
  (forall elements, ~ NewMapOfArray init elements) ->
  edit (VariableDeclarator id init) = Throw IncorrectlyTypedMetadataFiles.
Proof.
  intros Hno. unfold edit, addAdapterMetadataEntry.
  destruct init as [[]|]; try reflexivity.
  destruct arguments as [|[] others]; try reflexivity.
  exfalso. eapply Hno. unfold NewMapOfArray. eauto.
Qed.

Lemma find_present (elements : list Node) (entry : Node) :
  entry ∈ elements -> PairOf name entry ->
  exists found, List.find isThis elements = Some found.
Proof.
  intros Hin Hpair. destruct (List.find isThis elements) eqn:Hfind; [eauto|].
  apply list_elem_of_In in Hin.
  pose proof (find_none _ _ Hfind _ Hin) as Hfalse.
  apply isMetadataFileEntry_spec in Hpair. congruence.
Qed.

Lemma find_absent (elements : list Node) :
  List.find isThis elements = None <->
  forall entry, entry ∈ elements -> ~ PairOf name entry.
Proof.
  split.
  - intros Hfind entry Hin Hpair.
    destruct (find_present _ _ Hin Hpair) as [found Hfound]. congruence.
  - intros Hno. destruct (List.find isThis elements) eqn:Hfind; [|reflexivity].
    apply find_some in Hfind as [Hin Htrue]. exfalso.
    apply (Hno n); [apply list_elem_of_In, Hin|apply isMetadataFileEntry_spec, Htrue].
Qed.

(** A pair for the identifier is there: the declarator is left as it is. *)
Lemma edit_registered_entry (d : Node) :
  HoldsPair name d -> edit d = Ok d.
Proof.
  intros (id & init & elements & entry & -> & (callee & others & ->) & Hin & Hpair).
  change (edit (declaratorOf id callee others elements) =
          Ok (declaratorOf id callee others elements)).
  rewrite edit_unfold_entry.
  destruct (find_present _ _ Hin Hpair) as [found ->]. reflexivity.
Qed.

End EntryEdit.

Lemma pair_unique_name (name1 name2 : string) (entry : Node) :
  PairOf name1 entry -> PairOf name2 entry -> name1 = name2.
Proof. intros [k1 ->] [k2 H]. congruence. Qed.

(** On an array of pairs the edit completes, with the array as it is or with
    the new pair sorted in. *)
Lemma edit_pairs (env : Collaborators) (details : FileDetails)
    (id callee : Node) (others elements : list Node) :
  KeysFound env details ->
  Forall IsPair elements ->
  exists elements',
    entryEditFor env details (declaratorOf id callee others elements) =
      Ok (declaratorOf id callee others elements') /\
    Forall IsPair elements' /\
    elements' =
      match List.find
              (isMetadataFileEntry env (findProtocolKey env (protocolId details))
                 (productId details) (findChainKey env (chainId details))
                 (fileKey details)) elements with
      | Some _ => elements
      | None =>
          sortByName
            (elements ++
             [entryFor env (findProtocolKey env (protocolId details))
                (productId details) (findChainKey env (chainId details))
                (fileKey details)])
      end.
Proof.
  intros [Hprotocol Hchain] Hpairs. unfold entryEditFor.
  rewrite (edit_unfold_keys _ _ _ _ _ _ _ _ _ Hprotocol Hchain).
  destruct (List.find _ elements) as [found|] eqn:Hfind.
  - exists elements. auto.
  - assert (Hall : Forall IsPair
              (elements ++
               [entryFor env (findProtocolKey env (protocolId details))
                  (productId details) (findChainKey env (chainId details))
                  (fileKey details)])).
    { apply Forall_app. split; [exact Hpairs|].
      constructor; [|constructor]. eexists. apply newEntry_pair. }
    rewrite sortEntries_readable.
    + simpl. eexists. split; [reflexivity|]. split; [|reflexivity].
      apply Forall_forall. intros x Hx. apply (proj1 (sortByName_elem _ _)) in Hx.
      rewrite Forall_forall in Hall. exact (Hall x Hx).
    + eapply Forall_impl; [exact Hall|]. intros x. apply pair_has_second.
Qed.

(** C2 (as amended).  For a MetadataFiles declarator of the expected shape,
    whose array holds pairs, and two keys A and B whose protocol and chain
    ids have names in the Protocol and Chain tables and whose generated
    identifiers differ, the registry-entry edit for A and then for B
    completes and leaves the same declarator, hence the same array, as the
    edit for B and then for A. *)
Theorem C2_order_independence (env : Collaborators) (A B : FileDetails)
    (id callee : Node) (others elements : list Node) :
  KeysFound env A -> KeysFound env B ->
  Forall IsPair elements ->
  identifierOf env A <> identifierOf env B ->
  exists final,
    (afterA <- entryEditFor env A (declaratorOf id callee others elements) ;;
     entryEditFor env B afterA) = Ok (declaratorOf id callee others final) /\
    (afterB <- entryEditFor env B (declaratorOf id callee others elements) ;;
     entryEditFor env A afterB) = Ok (declaratorOf id callee others final).
Proof.
  intros HkeysA HkeysB Hpairs Hne.
  destruct (edit_pairs env A id callee others elements HkeysA Hpairs)
    as (elementsA & HeditA & HpairsA & HelementsA).
  destruct (edit_pairs env B id callee others elements HkeysB Hpairs)
    as (elementsB & HeditB & HpairsB & HelementsB).
  destruct (edit_pairs env B id callee others elementsA HkeysB HpairsA)
    as (elementsAB & HeditAB & _ & HelementsAB).
  destruct (edit_pairs env A id callee others elementsB HkeysA HpairsB)
    as (elementsBA & HeditBA & _ & HelementsBA).
  exists elementsAB. rewrite HeditA, HeditB. cbn [bindR]. rewrite HeditAB, HeditBA.
  split; [reflexivity|]. do 2 f_equal.
  set (pA := isMetadataFileEntry env (findProtocolKey env (protocolId A))
               (productId A) (findChainKey env (chainId A)) (fileKey A)) in *.
  set (pB := isMetadataFileEntry env (findProtocolKey env (protocolId B))
               (productId B) (findChainKey env (chainId B)) (fileKey B)) in *.
  set (a := entryFor env (findProtocolKey env (protocolId A))
              (productId A) (findChainKey env (chainId A)) (fileKey A)) in *.
  set (b := entryFor env (findProtocolKey env (protocolId B))
              (productId B) (findChainKey env (chainId B)) (fileKey B)) in *.
  assert (Ha : PairOf (identifierOf env A) a) by apply newEntry_pair.
  assert (Hb : PairOf (identifierOf env B) b) by apply newEntry_pair.
  destruct (List.find pA elements) as [foundA|] eqn:HfindA;
    destruct (List.find pB elements) as [foundB|] eqn:HfindB; subst elementsA elementsB.
  - rewrite HfindB in HelementsAB. rewrite HfindA in HelementsBA. congruence.
  - rewrite HfindB in HelementsAB. subst elementsAB.
    apply find_some in HfindA as [HinA HtrueA].
    apply isMetadataFileEntry_spec in HtrueA.
    destruct (find_present env (findProtocolKey env (protocolId A)) (findChainKey env (chainId A))
                (productId A) (fileKey A) (sortByName (elements ++ [b])) foundA)
      as [found Hfound]; [|exact HtrueA|].
    + apply (proj2 (sortByName_elem _ _)), elem_of_app. left. apply list_elem_of_In, HinA.
    + fold pA in Hfound. rewrite Hfound in HelementsBA. exact HelementsBA.
  - rewrite HfindA in HelementsBA. subst elementsBA.
    apply find_some in HfindB as [HinB HtrueB].
    apply isMetadataFileEntry_spec in HtrueB.
    destruct (find_present env (findProtocolKey env (protocolId B)) (findChainKey env (chainId B))
                (productId B) (fileKey B) (sortByName (elements ++ [a])) foundB)
      as [found Hfound]; [|exact HtrueB|].
    + apply (proj2 (sortByName_elem _ _)), elem_of_app. left. apply list_elem_of_In, HinB.
    + fold pB in Hfound. rewrite Hfound in HelementsAB. symmetry. exact HelementsAB.
  - assert (HnoB : List.find pB (sortByName (elements ++ [a])) = None).
    { apply find_absent. intros x Hx Hpair.
      apply (proj1 (sortByName_elem _ _)), elem_of_app in Hx as [Hx|Hx].
      - exact (proj1 (find_absent env (findProtocolKey env (protocolId B)) (findChainKey env (chainId B))
                (productId B) (fileKey B) elements) HfindB x Hx Hpair).
      - apply list_elem_of_singleton in Hx as ->.
        apply Hne. exact (pair_unique_name _ _ _ Ha Hpair). }
    assert (HnoA : List.find pA (sortByName (elements ++ [b])) = None).
    { apply find_absent. intros x Hx Hpair.
      apply (proj1 (sortByName_elem _ _)), elem_of_app in Hx as [Hx|Hx].
      - exact (proj1 (find_absent env (findProtocolKey env (protocolId A)) (findChainKey env (chainId A))
                (productId A) (fileKey A) elements) HfindA x Hx Hpair).
      - apply list_elem_of_singleton in Hx as ->.
        apply Hne. symmetry. exact (pair_unique_name _ _ _ Hb Hpair). }
    rewrite HnoB in HelementsAB. rewrite HnoA in HelementsBA.
    subst elementsAB elementsBA. symmetry. apply sortByName_twice.
    + exact Hpairs.
    + eexists. exact Ha.
    + eexists. exact Hb.
    + rewrite (pair_nameKey _ _ Ha), (pair_nameKey _ _ Hb). congruence.
Qed.

Lemma C2_order_independence_witness :
  exists final,
    (afterA <- entryEditFor Sample.env Sample.stableDebt
                 (declaratorOf (Identifier "MetadataFiles") (Identifier "Map") []
                    [Sample.pairFor "LidoWstEthEthereumProtocolToken"]) ;;
     entryEditFor Sample.env Sample.lidoStEth afterA) =
      Ok (declaratorOf (Identifier "MetadataFiles") (Identifier "Map") [] final) /\
    (afterB <- entryEditFor Sample.env Sample.lidoStEth
                 (declaratorOf (Identifier "MetadataFiles") (Identifier "Map") []
                    [Sample.pairFor "LidoWstEthEthereumProtocolToken"]) ;;
     entryEditFor Sample.env Sample.stableDebt afterB) =
      Ok (declaratorOf (Identifier "MetadataFiles") (Identifier "Map") [] final).
Proof.
  apply (C2_order_independence Sample.env Sample.stableDebt Sample.lidoStEth).
  - split; eexists; reflexivity.
  - split; eexists; reflexivity.
  - repeat constructor. unfold IsPair, PairOf, Sample.pairFor. eauto.
  - vm_compute. discriminate.
Defined.

(** C2 as stated fails: two distinct keys with one generated identifier.  The
    key registered first keeps its pair, the other one is taken for
    registered, so the array depends on the order. *)
Lemma C2_counterexample :
  Sample.lowerKey <> Sample.upperKey /\
  exists lowerFirst upperFirst,
    (after <- entryEditFor Sample.env Sample.lowerKey (Sample.metadataFiles []) ;;
     entryEditFor Sample.env Sample.upperKey after) = Ok lowerFirst /\
    (after <- entryEditFor Sample.env Sample.upperKey (Sample.metadataFiles []) ;;
     entryEditFor Sample.env Sample.lowerKey after) = Ok upperFirst /\
    lowerFirst <> upperFirst.
Proof.
  split; [discriminate|].
  eexists _, _. split; [vm_compute; reflexivity|]. split; [vm_compute; reflexivity|].
  discriminate.
Qed.

(** ** Key derivation *)

Section TableLookup.

Context {V : Type} `{EqDecision V}.

Lemma getProp_some (o : list (string * V)) (k : string) (v : V) :
  getProp o k = Some v -> (k, v) ∈ o.
Proof.
  unfold getProp. destruct (List.find _ o) as [[k' v']|] eqn:Hfind; [|discriminate].
  simpl. intros [= ->]. apply find_some in Hfind as [Hin Hk].
  apply bool_decide_eq_true in Hk. simpl in Hk. subst k'. apply list_elem_of_In, Hin.
Qed.

Lemma getProp_unique (o : list (string * V)) (k : string) (v : V) :
  NoDup (map fst o) -> (k, v) ∈ o -> getProp o k = Some v.
Proof.
  unfold getProp. induction o as [|[k' v'] o IH]; intros Hnodup Hin; [inversion Hin|].
  simpl in Hnodup. apply NoDup_cons in Hnodup as [Hfresh Hnodup]. simpl.
  destruct (bool_decide_reflect (k' = k)) as [->|Hne].
  - apply elem_of_cons in Hin as [Hin|Hin]; [injection Hin as ->; reflexivity|].
    exfalso. apply Hfresh. apply list_elem_of_fmap. exists (k, v). auto.
  - apply elem_of_cons in Hin as [Hin|Hin]; [congruence|]. exact (IH Hnodup Hin).
Qed.

Lemma value_unique (o : list (string * V)) (k k' : string) (v : V) :
  NoDup (map snd o) -> (k, v) ∈ o -> (k', v) ∈ o -> k = k'.
Proof.
  induction o as [|[k0 v0] o IH]; intros Hnodup H1 H2; [inversion H1|].
  simpl in Hnodup. apply NoDup_cons in Hnodup as [Hfresh Hnodup].
  apply elem_of_cons in H1 as [H1|H1]; apply elem_of_cons in H2 as [H2|H2];
    try (injection H1 as ? ?); try (injection H2 as ? ?); subst.
  - reflexivity.
  - exfalso. apply Hfresh. apply list_elem_of_fmap. exists (k', v0). auto.
  - exfalso. apply Hfresh. apply list_elem_of_fmap. exists (k, v0). auto.
  - exact (IH Hnodup H1 H2).
Qed.

Lemma find_key_sound (o : list (string * V)) (v : V) (k : string) :
  List.find (fun key => bool_decide (getProp o key = Some v)) (objectKeys o) = Some k ->
  (k, v) ∈ o.
Proof.
  intros Hfind. apply find_some in Hfind as [_ Hk].
  apply bool_decide_eq_true in Hk. exact (getProp_some _ _ _ Hk).
Qed.

Lemma find_key_none (o : list (string * V)) (v : V) :
  NoDup (map fst o) ->
  List.find (fun key => bool_decide (getProp o key = Some v)) (objectKeys o) = None ->
  forall k, (k, v) ∉ o.
Proof.
  intros Hnodup Hfind k Hin.
  assert (Hkey : In k (objectKeys o)).
  { apply list_elem_of_In, list_elem_of_fmap. exists (k, v). auto. }
  pose proof (find_none _ _ Hfind k Hkey) as Hk. simpl in Hk.
  rewrite bool_decide_eq_true_2 in Hk by exact (getProp_unique _ _ _ Hnodup Hin).
  discriminate.
Qed.

Lemma find_key_complete (o : list (string * V)) (v : V) (k : string) :
  NoDup (map fst o) -> NoDup (map snd o) -> (k, v) ∈ o ->
  List.find (fun key => bool_decide (getProp o key = Some v)) (objectKeys o) = Some k.
Proof.
  intros Hkeys Hvalues Hin.
  destruct (List.find _ (objectKeys o)) as [k'|] eqn:Hfind.
  - f_equal. apply find_key_sound in Hfind.
    exact (value_unique _ _ _ _ Hvalues Hfind Hin).
  - exfalso. exact (find_key_none _ _ Hkeys Hfind k Hin).
Qed.

End TableLookup.






(** The example of section 8, with the tables of the sample setting. *)
Example key_derivation_stable_debt :
  identifierOf Sample.env Sample.stableDebt =
    "AaveV2StableDebtTokenEthereumStableDebtTokenV2" /\
  artifactTemplate Sample.env Sample.stableDebt =
    "adapters/aave-v2/products/stable-debt-token/metadata/ethereum.stable-debt-token-v2.json".
Proof. split; reflexivity. Qed.

(** ** Trees and their traversal *)

Lemma list_max_elem (l : list Node) (c : Node) :
  c ∈ l -> height c <= list_max (map height l).
Proof.
  induction l as [|x l IH]; intros H; [inversion H|].
  simpl. apply elem_of_cons in H as [->|H]; [lia|]. specialize (IH H). lia.
Qed.

Lemma height_pos (n : Node) : 1 <= height n.
Proof. destruct n as [| | | | | | | | |t [l|]| |i [init|]|]; simpl; lia. Qed.

Lemma height_child (n c : Node) : c ∈ childNodes n -> height c < height n.
Proof.
  destruct n as [| | | | | | | | |t [l|]| |i [init|]|]; simpl; intros H;
    repeat match goal with
    | H : _ ∈ [] |- _ => inversion H
    | H : _ ∈ _ :: _ |- _ => apply elem_of_cons in H as [->|H]
    | H : _ ∈ _ ++ _ |- _ => apply elem_of_app in H as [H|H]
    | H : _ ∈ _ |- _ => apply list_max_elem in H
    end; lia.
Qed.

Lemma optR_ok_same (visit : Node -> Result Node) (o : option Node) :
  (forall x, x ∈ option_list o -> visit x = Ok x) -> optR visit o = Ok o.
Proof.
  destruct o as [x|]; simpl; [|reflexivity].
  intros H. rewrite H by left. reflexivity.
Qed.

(** The outcome of a traversal, from the outcomes at the children. *)
Lemma traverse_same (visit : Node -> Result Node) (n : Node) :
  (forall c, c ∈ childNodes n -> visit c = Ok c) -> traverse visit n = Ok n.
Proof.
  destruct n as [| | | | | | | | |t l| |i init|]; simpl; intros H;
    try reflexivity;
    repeat first
      [ rewrite mapR_ok_same by (intros; apply H; set_solver)
      | rewrite optR_ok_same by (intros; apply H; set_solver)
      | rewrite H by set_solver ];
    reflexivity.
Qed.

Lemma traverse_ok_inv (visit : Node -> Result Node) (n n' : Node) :
  traverse visit n = Ok n' ->
  forall c, c ∈ childNodes n -> exists c', visit c = Ok c'.
Proof.
  destruct n as [| | | | | | | | |t [l|]| |i [init|]|]; simpl; intros H c Hc;
    repeat match goal with
    | H : _ ∈ [] |- _ => inversion H
    | H : bindR ?m _ = Ok _ |- _ =>
        let E := fresh "E" in destruct m eqn:E; simpl in H; try discriminate H
    | H : _ ∈ _ :: _ |- _ => apply elem_of_cons in H as [->|H]
    | H : _ ∈ _ ++ _ |- _ => apply elem_of_app in H as [H|H]
    end;
    eauto using mapR_ok_inv.
Qed.

Lemma traverse_throw_inv (visit : Node -> Result Node) (n : Node) (e : Error) :
  traverse visit n = Throw e -> exists c, c ∈ childNodes n /\ visit c = Throw e.
Proof.
  destruct n as [| | | | | | | | |t [l|]| |i [init|]|]; simpl; intros H;
    repeat match goal with
    | H : Ok _ = Throw _ |- _ => discriminate H
    | H : bindR ?m _ = Throw _ |- _ =>
        let E := fresh "E" in destruct m eqn:E; simpl in H; try discriminate H
    | H : Throw _ = Throw _ |- _ => injection H as ->
    | H : mapR _ _ = Throw _ |- _ => apply mapR_throw_inv in H as (? & ? & ?)
    end;
    eexists; (split; [|eassumption]); set_solver.
Qed.

Lemma traverse_exhausted_inv (visit : Node -> Result Node) (n : Node) :
  traverse visit n = Exhausted -> exists c, c ∈ childNodes n /\ visit c = Exhausted.
Proof.
  destruct n as [| | | | | | | | |t [l|]| |i [init|]|]; simpl; intros H;
    repeat match goal with
    | H : Ok _ = Exhausted |- _ => discriminate H
    | H : bindR ?m _ = Exhausted |- _ =>
        let E := fresh "E" in destruct m eqn:E; simpl in H; try discriminate H
    | H : mapR _ _ = Exhausted |- _ => apply mapR_exhausted_inv in H as (? & ? & ?)
    end;
    eexists; (split; [|eassumption]); set_solver.
Qed.

Lemma declaratorFree_child (n c : Node) :
  declaratorFree n = true -> c ∈ childNodes n -> declaratorFree c = true.
Proof.
  destruct n as [| | | | | | | | |t [l|]| |i [init|]|]; simpl; intros Hn Hc;
    try discriminate;
    repeat match goal with
    | H : _ && _ = true |- _ => apply andb_true_iff in H as [? ?]
    | H : _ ∈ [] |- _ => inversion H
    | H : _ ∈ _ :: _ |- _ => apply elem_of_cons in H as [->|H]
    | H : _ ∈ _ ++ _ |- _ => apply elem_of_app in H as [H|H]
    end;
    try assumption;
    match goal with
    | H : forallb _ ?l = true, Hc : _ ∈ ?l |- _ =>
        rewrite forallb_forall in H; apply H, list_elem_of_In, Hc
    end.
Qed.

Lemma declaratorFree_reached (n d : Node) :
  declaratorFree n = true -> ReachedFrom n d ->
  forall id init, d <> VariableDeclarator id init.
Proof.
  intros Hfree Hreach. induction Hreach as [n|n c d _ Hc _ IH].
  - intros id init ->. discriminate.
  - apply IH. exact (declaratorFree_child _ _ Hfree Hc).
Qed.

(** ** The visitor *)

Ltac not_declarator :=
  let H := fresh in intros ? ? H; discriminate H.

Section Visitor.

Variable env : Collaborators.
Variables (protocolKey chainKey : option string) (productId fileKey : string).

Let name := generatedIdentifier env protocolKey productId chainKey fileKey.
Let newEntry := entryFor env protocolKey productId chainKey fileKey.
Let edit (declarator : Node) :=
  addAdapterMetadataEntry env declarator protocolKey productId chainKey fileKey.
Let visitAt (fuel : nat) := visitNode env fuel protocolKey productId chainKey fileKey.

Lemma visitAt_O (n : Node) : visitAt 0 n = Exhausted.
Proof. reflexivity. Qed.

Lemma visitAt_S (fuel : nat) (n : Node) :
  visitAt (S fuel) n =
  match n with
  | VariableDeclarator (Identifier declared) _ =>
      edited <- (if bool_decide (declared = "MetadataFiles") then edit n else Ok n) ;;
      traverse (visitAt fuel) edited
  | VariableDeclarator _ _ => Ok n
  | _ => traverse (visitAt fuel) n
  end.
Proof. destruct n as [| | | | | | | | | | |[] init|]; reflexivity. Qed.

Lemma visitAt_other (fuel : nat) (n : Node) :
  (forall id init, n <> VariableDeclarator id init) ->
  visitAt (S fuel) n = traverse (visitAt fuel) n.
Proof.
  intros Hn. rewrite visitAt_S. destruct n; try reflexivity.
  exfalso. eapply Hn. reflexivity.
Qed.

(** The traversal of a declarator after the registry-entry edit. *)
Lemma traverse_declaratorOf (fuel : nat) (declared : string) (callee : Node)
    (others elements : list Node) :
  traverse (visitAt fuel) (declaratorOf (Identifier declared) callee others elements) =
  match fuel with
  | S (S fuel') =>
      callee' <- visitAt (S fuel') callee ;;
      elements' <- mapR (visitAt fuel') elements ;;
      others' <- mapR (visitAt (S fuel')) others ;;
      Ok (declaratorOf (Identifier declared) callee' others' elements')
  | _ => Exhausted
  end.
Proof.
  destruct fuel as [|[|fuel']]; try reflexivity.
  unfold declaratorOf. cbn [traverse optR].
  change (visitAt (S (S fuel')) (Identifier declared)) with (Ok (Identifier declared)).
  cbn [bindR].
  rewrite (visitAt_other (S fuel')
             (NewExpression callee (ArrayExpression elements :: others)))
    by not_declarator.
  cbn [traverse mapR].
  rewrite (visitAt_other fuel' (ArrayExpression elements)) by not_declarator.
  cbn [traverse].
  destruct (visitAt (S fuel') callee); cbn [bindR]; try reflexivity.
  destruct (mapR (visitAt fuel') elements); cbn [bindR]; try reflexivity.
  destruct (mapR (visitAt (S fuel')) others); reflexivity.
Qed.

Lemma reached_child (n c d : Node) :
  Descends n -> c ∈ childNodes n -> ReachedFrom c d -> ReachedFrom n d.
Proof. apply reached_below. Qed.

Lemma descends_other (n : Node) :
  (forall id init, n <> VariableDeclarator id init) -> Descends n.
Proof. intros Hn id init ->. exfalso. eapply Hn. reflexivity. Qed.

Lemma descends_named (declared : string) (init : option Node) :
  Descends (VariableDeclarator (Identifier declared) init).
Proof. intros id init' [= <- _]. reflexivity. Qed.

(** What lies below a declarator of the expected shape. *)
Lemma reached_callee (declared : string) (callee : Node) (others elements : list Node)
    (d : Node) :
  ReachedFrom callee d ->
  ReachedFrom (declaratorOf (Identifier declared) callee others elements) d.
Proof.
  intros H. eapply reached_below; [apply descends_named|right; left|].
  eapply reached_below; [apply descends_other; not_declarator|left|exact H].
Qed.

Lemma reached_other (declared : string) (callee : Node) (others elements : list Node)
    (o d : Node) :
  o ∈ others -> ReachedFrom o d ->
  ReachedFrom (declaratorOf (Identifier declared) callee others elements) d.
Proof.
  intros Ho H. eapply reached_below; [apply descends_named|right; left|].
  eapply reached_below; [apply descends_other; not_declarator| |exact H].
  simpl. right. right. exact Ho.
Qed.

Lemma reached_element (declared : string) (callee : Node) (others elements : list Node)
    (x d : Node) :
  x ∈ elements -> ReachedFrom x d ->
  ReachedFrom (declaratorOf (Identifier declared) callee others elements) d.
Proof.
  intros Hx H. eapply reached_below; [apply descends_named|right; left|].
  eapply reached_below; [apply descends_other; not_declarator|right; left|].
  eapply reached_below; [apply descends_other; not_declarator|exact Hx|exact H].
Qed.

Lemma reached_declarator_inv (declared : string) (callee : Node)
    (others elements : list Node) (d : Node) :
  ReachedFrom (declaratorOf (Identifier declared) callee others elements) d ->
  (exists id init, d = VariableDeclarator id init) ->
  d = declaratorOf (Identifier declared) callee others elements \/
  ReachedFrom callee d \/
  (exists x, x ∈ elements /\ ReachedFrom x d) \/
  (exists o, o ∈ others /\ ReachedFrom o d).
Proof.
  intros Hreach (id & init & ->).
  inversion Hreach as [|n c d' _ Hc Hbelow]; subst; [left; reflexivity|].
  right. simpl in Hc. apply elem_of_cons in Hc as [->|Hc].
  { inversion Hbelow as [|n c d' _ Hc' _]; subst. inversion Hc'. }
  apply list_elem_of_singleton in Hc as ->.
  inversion Hbelow as [|n c d' _ Hc Hbelow']; subst.
  simpl in Hc. apply elem_of_cons in Hc as [->|Hc]; [left; exact Hbelow'|].
  apply elem_of_cons in Hc as [->|Hc]; [|right; right; eauto].
  inversion Hbelow' as [|n c' d' _ Hc' Hbelow'']; subst.
  right. left. eauto.
Qed.

Lemma edit_shape (n : Node) :
  (exists id callee others elements, n = declaratorOf id callee others elements) \/
  edit n = Throw IncorrectlyTypedMetadataFiles.
Proof.
  destruct n as [| | | | | | | | | | |id [[]|]|]; try (right; reflexivity).
  destruct arguments as [|[] others]; try (right; reflexivity).
  left. unfold declaratorOf. eauto.
Qed.

(** What the registry-entry edit can return. *)
Lemma edit_ok_inv (n edited : Node) :
  edit n = Ok edited ->
  edited = n \/
  exists id callee others elements,
    n = declaratorOf id callee others elements /\
    Forall HasSecond elements /\
    edited = declaratorOf id callee others (sortByName (elements ++ [newEntry])).
Proof.
  destruct (edit_shape n) as [(id & callee & others & elements & ->)|Hbad];
    [|rewrite Hbad; discriminate].
  unfold edit. rewrite edit_unfold_entry.
  destruct (List.find _ elements); [intros [= <-]; left; reflexivity|].
  destruct (b_identifier protocolKey); cbn [bindR]; try discriminate.
  destruct (b_identifier chainKey); cbn [bindR]; try discriminate.
  destruct (sortEntries _ entryName) as [sorted|e|] eqn:Hsort; simpl; try discriminate.
  intros [= <-]. right. apply sortEntries_ok in Hsort as [Hall ->].
  apply Forall_app in Hall as [Hall _]. eexists _, _, _, _.
  split; [reflexivity|]. split; [exact Hall|reflexivity].
Qed.

(** An edit that changes the declarator has built the key object: the
    protocol and the chain have names. *)
Lemma edit_ok_keys (n edited : Node) :
  edit n = Ok edited -> edited <> n ->
  (exists k, protocolKey = Some k) /\ (exists k, chainKey = Some k).
Proof.
  destruct (edit_shape n) as [(id & callee & others & elements & ->)|Hbad];
    [|rewrite Hbad; discriminate].
  unfold edit. rewrite edit_unfold_entry.
  destruct (List.find _ elements); [intros [= <-] Hne; destruct (Hne eq_refl)|].
  destruct protocolKey as [pk|]; cbn [b_identifier bindR]; try discriminate.
  destruct chainKey as [ck|]; cbn [b_identifier bindR]; try discriminate.
  eauto.
Qed.

Lemma edit_throw_inv (n : Node) (e : Error) :
  edit n = Throw e ->
  e = IncorrectlyTypedMetadataFiles \/
  (e = TypeError /\
   exists id callee others elements,
     n = declaratorOf id callee others elements /\ ~ Forall HasSecond elements) \/
  (e = BuilderError /\
   (protocolKey = None \/ chainKey = None) /\
   exists id callee others elements,
     n = declaratorOf id callee others elements /\
     forall entry, entry ∈ elements -> ~ PairOf name entry).
Proof.
  destruct (edit_shape n) as [(id & callee & others & elements & ->)|Hbad];
    [|rewrite Hbad; intros [= <-]; left; reflexivity].
  unfold edit. rewrite edit_unfold_entry.
  destruct (List.find _ elements) eqn:Hfind; [discriminate|].
  pose proof (proj1 (find_absent env protocolKey chainKey productId fileKey elements)
                Hfind) as Habsent.
  clear Hfind. rename Habsent into Hfind.
  destruct protocolKey as [pk|] eqn:Hp; cbn [b_identifier bindR];
    [|intros [= <-]; right; right; split; [reflexivity|];
      split; [left; reflexivity|]; eexists _, _, _, _; split; [reflexivity|exact Hfind]].
  destruct chainKey as [ck|] eqn:Hc; cbn [b_identifier bindR];
    [|intros [= <-]; right; right; split; [reflexivity|];
      split; [right; reflexivity|]; eexists _, _, _, _; split; [reflexivity|exact Hfind]].
  destruct (sortEntries _ entryName) as [sorted|e'|] eqn:Hsort; simpl; try discriminate.
  intros [= <-]. right. left. apply sortEntries_throws in Hsort as [-> (x & Hx & Hno)].
  split; [reflexivity|]. eexists _, _, _, _. split; [reflexivity|].
  intros Hall. apply elem_of_app in Hx as [Hx|Hx].
  - rewrite Forall_forall in Hall. exact (Hno (Hall x Hx)).
  - apply list_elem_of_singleton in Hx as ->. apply Hno.
    apply pair_has_second. eexists. apply (newEntry_pair env (Some pk) (Some ck)).
Qed.

Lemma edit_not_exhausted_entry (n : Node) : edit n <> Exhausted.
Proof.
  destruct (edit_shape n) as [(id & callee & others & elements & ->)|Hbad];
    [|rewrite Hbad; discriminate].
  unfold edit. rewrite edit_unfold_entry.
  destruct (List.find _ elements); [discriminate|].
  destruct protocolKey; cbn [b_identifier bindR]; try discriminate.
  destruct chainKey; cbn [b_identifier bindR]; try discriminate.
  destruct (sortEntries _ entryName) as [sorted|e'|] eqn:Hsort; simpl; try discriminate.
  intros _. exact (sortEntries_not_exhausted _ Hsort).
Qed.

(** Idempotence of the traversal: where every MetadataFiles declarator it
    reaches holds a pair for the identifier, the tree comes back as it is. *)
Lemma visit_registered (fuel : nat) (n : Node) :
  height n <= fuel ->
  (forall d, ReachedFrom n d -> MetadataFilesDeclarator d -> HoldsPair name d) ->
  visitAt fuel n = Ok n.
Proof.
  revert n. induction fuel as [|fuel IH]; intros n Hfuel Hall.
  { pose proof (height_pos n). lia. }
  assert (Hchildren : Descends n -> traverse (visitAt fuel) n = Ok n).
  { intros Hdesc. apply traverse_same. intros c Hc. apply IH.
    - apply height_child in Hc. lia.
    - intros d Hd. apply Hall. exact (reached_below _ _ _ Hdesc Hc Hd). }
  rewrite visitAt_S.
  destruct n as [| | | | | | | | | | |id init|];
    try (apply Hchildren, descends_other; intros; discriminate).
  destruct id as [declared| | | | | | | | | | | |]; try reflexivity.
  destruct (bool_decide_reflect (declared = "MetadataFiles")) as [->|Hother].
  - unfold edit. rewrite edit_registered_entry.
    + apply Hchildren, descends_named.
    + apply Hall; [constructor|]. eexists. reflexivity.
  - apply Hchildren, descends_named.
Qed.

Lemma visit_declaratorFree (fuel : nat) (n : Node) :
  height n <= fuel -> declaratorFree n = true -> visitAt fuel n = Ok n.
Proof.
  intros Hfuel Hfree. apply visit_registered; [exact Hfuel|].
  intros d Hd [init ->]. exfalso.
  exact (declaratorFree_reached _ _ Hfree Hd _ _ eq_refl).
Qed.

Lemma newEntry_free : declaratorFree newEntry = true.
Proof. reflexivity. Qed.

Lemma newEntry_height : height newEntry = 6.
Proof. reflexivity. Qed.

End Visitor.

Section VisitorOutcomes.

Variable env : Collaborators.
Variables (protocolKey chainKey : option string) (productId fileKey : string).

Local Abbreviation newEntry := (entryFor env protocolKey productId chainKey fileKey).
Local Abbreviation visitAt fuel :=
  (visitNode env fuel protocolKey productId chainKey fileKey).

(** A mistyped MetadataFiles declarator on the way: the traversal does not
    complete. *)
Lemma visit_mistyped_not_ok (fuel : nat) :
  forall (n r : Node) (init : option Node),
    ReachedFrom n (VariableDeclarator (Identifier "MetadataFiles") init) ->
    (forall elements, ~ NewMapOfArray init elements) ->
    visitAt fuel n <> Ok r.
Proof.
  induction fuel as [fuel IH] using lt_wf_ind. intros n r init Hreach Hbad Hok.
  destruct fuel as [|fuel]; [discriminate|].
  assert (Hstep : forall m r', traverse (visitAt fuel) m = Ok r' ->
            forall c, c ∈ childNodes m ->
            ReachedFrom c (VariableDeclarator (Identifier "MetadataFiles") init) ->
            False).
  { intros m r' Ht c Hc Hcd. destruct (traverse_ok_inv _ _ _ Ht c Hc) as [c' Hc'].
    exact (IH fuel (Nat.lt_succ_diag_r _) c c' init Hcd Hbad Hc'). }
  rewrite visitAt_S in Hok.
  inversion Hreach as [|n0 c d0 Hdesc Hc Hbelow]; subst.
  { rewrite bool_decide_eq_true_2 in Hok by reflexivity.
    rewrite edit_mistyped in Hok by exact Hbad. discriminate. }
  destruct n as [| | | | | | | | | | |id init0|]; try (exact (Hstep _ _ Hok c Hc Hbelow)).
  destruct id as [declared| | | | | | | | | | | |];
    try (specialize (Hdesc _ _ eq_refl); discriminate).
  destruct (bool_decide_reflect (declared = "MetadataFiles")) as [->|Hother];
    [|exact (Hstep _ _ Hok c Hc Hbelow)].
  destruct (addAdapterMetadataEntry env _ protocolKey productId chainKey fileKey)
    as [edited| |] eqn:Hedit; try discriminate.
  cbn [bindR] in Hok.
  apply edit_ok_inv in Hedit
    as [->|(id & callee & others & elements & Hn & _ & ->)];
    [exact (Hstep _ _ Hok c Hc Hbelow)|].
  injection Hn as <- ->.
  rewrite traverse_declaratorOf in Hok.
  destruct fuel as [|[|fuel']]; try discriminate.
  destruct (visitAt (S fuel') callee) as [callee'| |] eqn:Hcallee; try discriminate.
  cbn [bindR] in Hok.
  destruct (mapR (visitAt fuel') _) as [elements'| |] eqn:Helements; try discriminate.
  cbn [bindR] in Hok.
  destruct (mapR (visitAt (S fuel')) others) as [others'| |] eqn:Hothers;
    try discriminate.
  apply reached_declarator_inv in Hreach
    as [Hsame|[Hcd|[(x & Hx & Hxd)|(o & Ho & Hod)]]]; [| | | |eauto].
  - injection Hsame as ->. eapply Hbad. unfold NewMapOfArray. eauto.
  - eapply (IH (S fuel')); [lia|exact Hcd|exact Hbad|exact Hcallee].
  - destruct (mapR_ok_inv _ _ _ Helements x) as [x' Hx'].
    { apply (proj2 (sortByName_elem _ _)), elem_of_app. left. exact Hx. }
    eapply (IH fuel'); [lia|exact Hxd|exact Hbad|exact Hx'].
  - destruct (mapR_ok_inv _ _ _ Hothers o Ho) as [o' Ho'].
    eapply (IH (S fuel')); [lia|exact Hod|exact Hbad|exact Ho'].
Qed.

Lemma height_declaratorOf (id callee : Node) (others elements : list Node) :
  height (declaratorOf id callee others elements) =
  S (Nat.max (height id)
       (S (Nat.max (height callee)
             (Nat.max (S (list_max (map height elements)))
                (list_max (map height others)))))).
Proof. reflexivity. Qed.

(** The depth bound of [visit] is never reached. *)
Lemma visit_fuel_enough (fuel : nat) :
  forall n, height n + 10 <= fuel -> visitAt fuel n <> Exhausted.
Proof.
  induction fuel as [fuel IH] using lt_wf_ind. intros n Hfuel Hout.
  destruct fuel as [|fuel]; [lia|].
  assert (Hstep : forall m, height m <= height n ->
            traverse (visitAt fuel) m <> Exhausted).
  { intros m Hm Ht. apply traverse_exhausted_inv in Ht as (c & Hc & Hcout).
    apply height_child in Hc.
    apply (IH fuel (Nat.lt_succ_diag_r _) c); [lia|exact Hcout]. }
  rewrite visitAt_S in Hout.
  destruct n as [| | | | | | | | | | |id init0|];
    try (exact (Hstep _ (Nat.le_refl _) Hout)).
  destruct id as [declared| | | | | | | | | | | |]; try discriminate.
  destruct (bool_decide_reflect (declared = "MetadataFiles")) as [->|Hother];
    [|exact (Hstep _ (Nat.le_refl _) Hout)].
  destruct (addAdapterMetadataEntry env _ protocolKey productId chainKey fileKey)
    as [edited| |] eqn:Hedit; try discriminate;
    [|exact (edit_not_exhausted_entry _ _ _ _ _ _ Hedit)].
  cbn [bindR] in Hout.
  apply edit_ok_inv in Hedit
    as [->|(id & callee & others & elements & Hn & _ & ->)];
    [exact (Hstep _ (Nat.le_refl _) Hout)|].
  injection Hn as <- ->.
  change (VariableDeclarator (Identifier "MetadataFiles")
            (Some (NewExpression callee (ArrayExpression elements :: others))))
    with (declaratorOf (Identifier "MetadataFiles") callee others elements) in Hfuel.
  rewrite height_declaratorOf in Hfuel.
  rewrite traverse_declaratorOf in Hout.
  destruct fuel as [|[|fuel']]; try lia.
  destruct (visitAt (S fuel') callee) as [callee'| |] eqn:Hcallee; try discriminate.
  - cbn [bindR] in Hout.
    destruct (mapR (visitAt fuel') _) as [elements'| |] eqn:Helements; try discriminate.
    + cbn [bindR] in Hout.
      destruct (mapR (visitAt (S fuel')) others) as [others'| |] eqn:Hothers;
        try discriminate.
      apply mapR_exhausted_inv in Hothers as (o & Ho & Hoout).
      apply list_max_elem in Ho.
      apply (IH (S fuel')) in Hoout; [exact Hoout|lia|lia].
    + apply mapR_exhausted_inv in Helements as (x & Hx & Hxout).
      apply (proj1 (sortByName_elem _ _)), elem_of_app in Hx as [Hx|Hx].
      * apply list_max_elem in Hx.
        apply (IH fuel') in Hxout; [exact Hxout|lia|lia].
      * apply list_elem_of_singleton in Hx as ->.
        rewrite visit_declaratorFree in Hxout;
          [discriminate| |reflexivity].
        rewrite newEntry_height. lia.
  - apply (IH (S fuel')) in Hcallee; [exact Hcallee|lia|lia].
Qed.

(** With arrays that can be sorted, the only errors of the traversal are
    the one for a mistyped MetadataFiles and, for a key without a name for
    its protocol or its chain, the one of the builder. *)
Lemma visit_throw_kind (fuel : nat) :
  forall (n : Node) (e : Error),
    (forall d init elements,
       ReachedFrom n d ->
       d = VariableDeclarator (Identifier "MetadataFiles") init ->
       NewMapOfArray init elements -> Forall HasSecond elements) ->
    visitAt fuel n = Throw e ->
    e = IncorrectlyTypedMetadataFiles \/
    (e = BuilderError /\ (protocolKey = None \/ chainKey = None)).
Proof.
  induction fuel as [fuel IH] using lt_wf_ind. intros n e Hreadable Hthrow.
  destruct fuel as [|fuel]; [discriminate|].
  assert (Hstep : Descends n -> traverse (visitAt fuel) n = Throw e ->
            e = IncorrectlyTypedMetadataFiles \/
            (e = BuilderError /\ (protocolKey = None \/ chainKey = None))).
  { intros Hdesc Ht. apply traverse_throw_inv in Ht as (c & Hc & Hcthrow).
    apply (IH fuel (Nat.lt_succ_diag_r _) c); [|exact Hcthrow].
    intros d init elements Hd. apply Hreadable.
    exact (reached_below _ _ _ Hdesc Hc Hd). }
  rewrite visitAt_S in Hthrow.
  destruct n as [| | | | | | | | | | |id init0|];
    try (apply Hstep; [apply descends_other; not_declarator|exact Hthrow]).
  destruct id as [declared| | | | | | | | | | | |]; try discriminate.
  destruct (bool_decide_reflect (declared = "MetadataFiles")) as [->|Hother];
    [|apply Hstep; [apply descends_named|exact Hthrow]].
  destruct (addAdapterMetadataEntry env _ protocolKey productId chainKey fileKey)
    as [edited|e'|] eqn:Hedit; try discriminate.
  - cbn [bindR] in Hthrow.
    apply edit_ok_inv in Hedit
      as [->|(id & callee & others & elements & Hn & _ & ->)];
      [apply Hstep; [apply descends_named|exact Hthrow]|].
    injection Hn as <- ->.
    rewrite traverse_declaratorOf in Hthrow.
    destruct fuel as [|[|fuel']]; try discriminate.
    destruct (visitAt (S fuel') callee) as [callee'|e1|] eqn:Hcallee;
      try discriminate.
    + cbn [bindR] in Hthrow.
      destruct (mapR (visitAt fuel') _) as [elements'|e2|] eqn:Helements;
        try discriminate.
      * cbn [bindR] in Hthrow.
        destruct (mapR (visitAt (S fuel')) others) as [others'|e3|] eqn:Hothers;
          try discriminate.
        injection Hthrow as ->.
        apply mapR_throw_inv in Hothers as (o & Ho & Hothrow).
        apply (IH (S fuel')) in Hothrow; [exact Hothrow|lia|].
        intros d init elements0 Hd. apply Hreadable.
        exact (reached_other _ _ _ _ _ _ Ho Hd).
      * injection Hthrow as ->.
        apply mapR_throw_inv in Helements as (x & Hx & Hxthrow).
        apply (IH fuel') in Hxthrow; [exact Hxthrow|lia|].
        apply (proj1 (sortByName_elem _ _)), elem_of_app in Hx as [Hx|Hx].
        -- intros d init elements0 Hd. apply Hreadable.
           exact (reached_element _ _ _ _ _ _ Hx Hd).
        -- apply list_elem_of_singleton in Hx as ->.
           intros d init elements0 Hd ->. exfalso.
           exact (declaratorFree_reached _ _ (newEntry_free env _ _ _ _) Hd _ _ eq_refl).
    + injection Hthrow as ->.
      apply (IH (S fuel')) in Hcallee; [exact Hcallee|lia|].
      intros d init elements0 Hd. apply Hreadable.
      exact (reached_callee _ _ _ _ _ Hd).
  - cbn [bindR] in Hthrow. injection Hthrow as ->.
    apply edit_throw_inv in Hedit
      as [->|[[_ (id & callee & others & elements & Hn & Hno)]|(-> & Hkey & _)]];
      [left; reflexivity| |right; auto].
    exfalso. apply Hno. injection Hn as <- ->.
    eapply Hreadable; [constructor|reflexivity|]. unfold NewMapOfArray. eauto.
Qed.

End VisitorOutcomes.

(** ** The transform of the registry file *)

Section Transform.

Variable env : Collaborators.
Variable details : FileDetails.

Local Abbreviation name := (identifierOf env details).
Local Abbreviation visitAt fuel :=
  (visitNode env fuel (findProtocolKey env (protocolId details)) (productId details)
     (findChainKey env (chainId details)) (fileKey details)).

Lemma visit_unfold (ast : Program) :
  visit env ast details =
  (body1 <- importEditFor env details (body ast) ;;
   body2 <- mapR (visitAt (fuelFor ast)) body1 ;;
   Ok {| body := body2 |}).
Proof. reflexivity. Qed.

Lemma importEdit_elements (programBody body' : list Node) :
  importEditFor env details programBody = Ok body' ->
  (forall n, n ∈ programBody -> n ∈ body') /\
  (forall n, n ∈ body' -> n ∈ programBody \/ n = importFor env details).
Proof.
  unfold importEditFor. rewrite edit_unfold.
  destruct (findR _ _) as [[found|]| |]; cbn [bindR]; try discriminate.
  - intros [= <-]. auto.
  - intros [= <-]. split; intros n Hn.
    + rewrite !elem_of_app.
      destruct (isImportDeclaration n) eqn:Himport; [left|right; right];
        apply list_elem_of_In, filter_In; rewrite Himport;
        (split; [apply list_elem_of_In, Hn|reflexivity]).
    + apply elem_of_app in Hn as [Hn|Hn];
        [|apply elem_of_cons in Hn as [Hn|Hn]; [right; exact Hn|]];
        apply list_elem_of_In, filter_In in Hn as [Hn _];
        left; apply list_elem_of_In, Hn.
Qed.

Lemma importFor_free : declaratorFree (importFor env details) = true.
Proof. reflexivity. Qed.

Lemma importFor_height : height (importFor env details) = 3.
Proof. reflexivity. Qed.

Lemma body_height (ast : Program) (n : Node) :
  n ∈ body ast -> height n + 10 <= fuelFor ast.
Proof. intros Hn. apply list_max_elem in Hn. unfold fuelFor. lia. Qed.

(** [visit] always comes to an end within its depth bound. *)
Lemma visit_not_exhausted (ast : Program) : visit env ast details <> Exhausted.
Proof.
  rewrite visit_unfold.
  destruct (importEditFor env details (body ast)) as [body1| |] eqn:Hedit;
    cbn [bindR]; try discriminate.
  - destruct (mapR _ body1) as [body2| |] eqn:Hmap; cbn [bindR]; try discriminate.
    intros _. apply mapR_exhausted_inv in Hmap as (x & Hx & Hout).
    apply (importEdit_elements _ _ Hedit) in Hx as [Hx| ->].
    + exact (visit_fuel_enough _ _ _ _ _ _ _ (body_height _ _ Hx) Hout).
    + rewrite visit_declaratorFree in Hout;
        [discriminate| |apply importFor_free].
      rewrite importFor_height. unfold fuelFor. lia.
  - intros _. exact (edit_not_exhausted _ _ _ _ _ _ _ _ Hedit).
Qed.

(** The outcomes of [addStaticImport]: an error and the world as it was, or
    one write of the edited tree. *)
Lemma addStaticImport_unfold (ast : Program) (w : World) :
  disk w !! adapterMetadataFile env = Some (SourceFile ast) ->
  addStaticImport env details w =
  match visit env ast details with
  | Ok edited =>
      (Ok tt,
       {| disk := <[adapterMetadataFile env := SourceFile edited]> (disk w);
          events := events w ++ [Written (adapterMetadataFile env) (SourceFile edited)] |})
  | Throw e => (Throw e, w)
  | Exhausted => (Exhausted, w)
  end.
Proof.
  intros Hfile. unfold addStaticImport, bindM, readAndParse, liftR. rewrite Hfile.
  destruct (visit env ast details); reflexivity.
Qed.

Lemma addStaticImport_unreadable (w : World) :
  (forall ast, disk w !! adapterMetadataFile env <> Some (SourceFile ast)) ->
  addStaticImport env details w = (Throw RegistryUnreadable, w).
Proof.
  intros Hfile. unfold addStaticImport, bindM, readAndParse.
  destruct (disk w !! adapterMetadataFile env) as [[payload|ast]|] eqn:Hlookup;
    try reflexivity.
  exfalso. exact (Hfile ast eq_refl).
Qed.

Lemma addStaticImport_outcomes (w : World) :
  (exists e, addStaticImport env details w = (Throw e, w)) \/
  (exists edited,
     addStaticImport env details w =
     (Ok tt,
      {| disk := <[adapterMetadataFile env := SourceFile edited]> (disk w);
         events := events w ++ [Written (adapterMetadataFile env) (SourceFile edited)] |})).
Proof.
  destruct (disk w !! adapterMetadataFile env) as [[payload|ast]|] eqn:Hlookup.
  - left. exists RegistryUnreadable. apply addStaticImport_unreadable.
    intros ast. rewrite Hlookup. discriminate.
  - rewrite (addStaticImport_unfold ast w Hlookup).
    destruct (visit env ast details) as [edited|e|] eqn:Hvisit; [right|left|]; eauto.
    exfalso. exact (visit_not_exhausted _ Hvisit).
  - left. exists RegistryUnreadable. apply addStaticImport_unreadable.
    intros ast. rewrite Hlookup. discriminate.
Qed.

(** Nothing to add: the tree comes back as it is. *)
Lemma visit_registered_program (ast : Program) :
  importEditFor env details (body ast) = Ok (body ast) ->
  (forall d, Reached ast d -> MetadataFilesDeclarator d -> HoldsPair name d) ->
  visit env ast details = Ok ast.
Proof.
  intros Himport Hentries. rewrite visit_unfold, Himport. cbn [bindR].
  rewrite mapR_ok_same; [destruct ast; reflexivity|].
  intros n Hn. apply visit_registered.
  - apply body_height in Hn. lia.
  - intros d Hd. apply Hentries. exists n. auto.
Qed.

(** A mistyped MetadataFiles on the way: [visit] throws. *)
Lemma visit_mistyped (ast : Program) (init : option Node) :
  Reached ast (VariableDeclarator (Identifier "MetadataFiles") init) ->
  (forall elements, ~ NewMapOfArray init elements) ->
  exists e, visit env ast details = Throw e.
Proof.
  intros (n & Hn & Hreach) Hbad.
  destruct (visit env ast details) as [edited|e|] eqn:Hvisit; [|eauto|].
  - exfalso. rewrite visit_unfold in Hvisit.
    destruct (importEditFor env details (body ast)) as [body1| |] eqn:Hedit;
      cbn [bindR] in Hvisit; try discriminate.
    destruct (mapR _ body1) as [body2| |] eqn:Hmap; try discriminate.
    apply (importEdit_elements _ _ Hedit) in Hn.
    destruct (mapR_ok_inv _ _ _ Hmap n Hn) as [n' Hn'].
    exact (visit_mistyped_not_ok _ _ _ _ _ _ _ _ _ Hreach Hbad Hn').
  - exfalso. exact (visit_not_exhausted _ Hvisit).
Qed.

Lemma visit_error_kind (ast : Program) (e : Error) :
  Forall HasSpecifier (body ast) -> EntriesReadable ast ->
  visit env ast details = Throw e ->
  e = IncorrectlyTypedMetadataFiles \/
  (e = BuilderError /\ ~ KeysFound env details).
Proof.
  intros Hspec Hreadable Hvisit. rewrite visit_unfold in Hvisit.
  destruct (importEditFor env details (body ast)) as [body1|e1|] eqn:Hedit;
    cbn [bindR] in Hvisit; try discriminate.
  - destruct (mapR _ body1) as [body2|e2|] eqn:Hmap; try discriminate.
    cbn [bindR] in Hvisit. injection Hvisit as ->.
    apply mapR_throw_inv in Hmap as (x & Hx & Hthrow).
    apply (importEdit_elements _ _ Hedit) in Hx as [Hx| ->].
    + apply visit_throw_kind in Hthrow as [->|[-> Hkey]].
      * left. reflexivity.
      * right. split; [reflexivity|]. intros [[pk Hp] [ck Hc]].
        destruct Hkey as [Hkey|Hkey]; congruence.
      * intros d init elements Hd. apply Hreadable. exists x. auto.
    + rewrite visit_declaratorFree in Hthrow;
        [discriminate| |apply importFor_free].
      rewrite importFor_height. unfold fuelFor. lia.
  - exfalso. apply edit_throws in Hedit as [_ [source Hin]].
    rewrite Forall_forall in Hspec. exact (Hspec _ Hin source eq_refl).
Qed.


End Transform.

(** On a concrete tree: the nodes the traversal reaches, one by one. *)
Ltac reach_cases :=
  cbv [Sample.registered Sample.registry Sample.mistyped
       Sample.mistypedWithBareImport Sample.withoutMetadataFiles
       Sample.registeredWithBareImport Sample.boundSecond
       Sample.importOf Sample.bareImport
       Sample.declaration Sample.metadataFiles Sample.mistypedMetadataFiles
       Sample.helperFunction Sample.pairFor body] in *;
  repeat match goal with
  | H : Reached _ _ |- _ => destruct H as (? & H & ?); simpl in H
  | H : _ ∈ [] |- _ => inversion H
  | H : _ ∈ _ :: _ |- _ => apply elem_of_cons in H as [->|H]
  | H : ReachedFrom _ _ |- _ => inversion H; subst; clear H; simpl childNodes in *
  end.

(** C1 (as amended).  Registration is idempotent.  When the registry file
    holds an import whose first specifier binds the generated identifier of
    the key, and every MetadataFiles declarator the visitor reaches holds a
    pair whose value-identifier is that identifier, the transform changes
    nothing: [visit] returns the tree it was given (or stops on a
    bare import before any edit), and the file on disk after
    [addStaticImport] is the file before it, with no second import and no
    second entry.  With a specifier on every import the transform completes
    and writes back the very same tree. *)
Theorem C1_registration_idempotent (env : Collaborators) (details : FileDetails)
    (ast : Program) (w : World) :
  disk w !! adapterMetadataFile env = Some (SourceFile ast) ->
  (exists n, n ∈ body ast /\ ImportedAs (identifierOf env details) n) ->
  (forall d, Reached ast d -> MetadataFilesDeclarator d ->
             HoldsPair (identifierOf env details) d) ->
  (visit env ast details = Ok ast \/ visit env ast details = Throw TypeError) /\
  disk (snd (addStaticImport env details w)) = disk w /\
  (Forall HasSpecifier (body ast) ->
   visit env ast details = Ok ast /\
   addStaticImport env details w =
     (Ok tt,
      {| disk := disk w;
         events := events w ++ [Written (adapterMetadataFile env) (SourceFile ast)] |})).
Proof.
  intros Hfile (n & Hn & Himported) Hentries.
  assert (Hvisit : visit env ast details = Ok ast \/
                   visit env ast details = Throw TypeError).
  { destruct (edit_registered_weak env _ _ (protocolId details) _ _ (chainId details)
                _ _ Hn Himported) as [Hedit|Hedit].
    - left. apply visit_registered_program; assumption.
    - right. rewrite visit_unfold. unfold importEditFor. rewrite Hedit. reflexivity. }
  assert (Hsame : <[adapterMetadataFile env := SourceFile ast]> (disk w) = disk w)
    by (apply insert_id, Hfile).
  split; [exact Hvisit|]. split.
  - rewrite (addStaticImport_unfold env details ast w Hfile).
    destruct Hvisit as [-> | ->]; [exact Hsame|reflexivity].
  - intros Hspec.
    assert (Hok : visit env ast details = Ok ast).
    { apply visit_registered_program; [|exact Hentries].
      exact (edit_registered env _ _ (protocolId details) _ _ (chainId details)
               _ _ Hspec Hn Himported). }
    split; [exact Hok|].
    rewrite (addStaticImport_unfold env details ast w Hfile), Hok, Hsame.
    reflexivity.
Qed.

Lemma C1_registration_idempotent_witness :
  visit Sample.env Sample.registered Sample.stableDebt = Ok Sample.registered /\
  disk (snd (addStaticImport Sample.env Sample.stableDebt
               (Sample.worldWith Sample.registered))) =
  disk (Sample.worldWith Sample.registered).
Proof.
  destruct (C1_registration_idempotent Sample.env Sample.stableDebt
              Sample.registered (Sample.worldWith Sample.registered))
    as (_ & Hdisk & Hcompletes).
  - apply lookup_singleton_eq.
  - eexists. split; [left|]. unfold ImportedAs. eauto.
  - intros d Hd [init Hnamed]. reach_cases; try congruence.
    unfold HoldsPair, NewMapOfArray, PairOf.
    eexists _, _, _, _. split; [reflexivity|]. split; [eauto|].
    split; [left|]. eexists. reflexivity.
  - split; [|exact Hdisk]. apply Hcompletes.
    repeat constructor; intros source; discriminate.
Defined.

(** C1 as stated fails, in two ways.  The generated identifier is bound by
    an existing import, as its second specifier, and is the value-identifier
    of the pair of the one MetadataFiles declarator: the lookup reads the
    first specifier only, and the transform adds a second import of the
    identifier.  And the identifier is bound by an import and is the
    value-identifier of an existing MetadataFiles pair, but the file has a
    second declarator named MetadataFiles: the transform adds a pair
    there. *)
Lemma C1_counterexample :
  identifierOf Sample.env Sample.stableDebt = Sample.stableDebtId /\
  ((exists specifiers source t,
      ImportDeclaration specifiers source ∈ body Sample.boundSecond /\
      Specifier t (Some (Identifier Sample.stableDebtId)) ∈ specifiers) /\
   (forall d, Reached Sample.boundSecond d -> MetadataFilesDeclarator d ->
              HoldsPair Sample.stableDebtId d) /\
   exists kept pairs,
     body Sample.boundSecond = [kept; pairs] /\
     visit Sample.env Sample.boundSecond Sample.stableDebt =
       Ok {| body := [kept; importFor Sample.env Sample.stableDebt; pairs] |}) /\
  ((exists n, n ∈ body Sample.secondDeclarator /\ ImportedAs Sample.stableDebtId n) /\
   (exists d, Reached Sample.secondDeclarator d /\ MetadataFilesDeclarator d /\
              HoldsPair Sample.stableDebtId d) /\
   exists kept pairs,
     body Sample.secondDeclarator =
       [kept; pairs;
        OtherNode "FunctionDeclaration"
          [OtherNode "BlockStatement"
             [OtherNode "VariableDeclaration" [Sample.metadataFiles []]]]] /\
     visit Sample.env Sample.secondDeclarator Sample.stableDebt =
       Ok {| body :=
               [kept; pairs;
                OtherNode "FunctionDeclaration"
                  [OtherNode "BlockStatement"
                     [OtherNode "VariableDeclaration"
                        [Sample.metadataFiles
                           [entryFor Sample.env (Some "AaveV2") "stable-debt-token"
                              (Some "Ethereum") "stable-debt-token-v2"]]]]] |}).
Proof.
  split; [reflexivity|]. split; [split; [|split]|split; [|split]].
  - eexists _, _, _. split; [left|]. right. left.
  - intros d Hd [init Hnamed]. reach_cases; try congruence.
    unfold HoldsPair, NewMapOfArray, PairOf.
    eexists _, _, _, _. split; [reflexivity|]. split; [eauto|].
    split; [left|]. eexists. reflexivity.
  - eexists _, _. split; [reflexivity|]. vm_compute. reflexivity.
  - eexists. split; [left|]. unfold ImportedAs. eauto.
  - exists (Sample.metadataFiles [Sample.pairFor Sample.stableDebtId]).
    split; [|split].
    + eexists. split; [right; left|].
      eapply reached_below; [intros id init H; discriminate H|left|].
      eapply reached_below; [intros id init H; discriminate H|left|].
      constructor.
    + eexists. reflexivity.
    + unfold HoldsPair, NewMapOfArray, PairOf, Sample.metadataFiles, Sample.pairFor.
      eexists _, _, _, _. split; [reflexivity|]. split; [eauto|].
      split; [left|]. eexists. reflexivity.
  - eexists _, _. split; [reflexivity|]. vm_compute. reflexivity.
Qed.

Lemma findR_found {A : Type} (p : A -> Result bool) (l : list A) (x : A) :
  findR p l = Ok (Some x) -> x ∈ l /\ p x = Ok true.
Proof.
  induction l as [|y l IH]; simpl; [discriminate|].
  destruct (p y) as [[]| |] eqn:Hy; simpl; try discriminate.
  - intros [= <-]. split; [left|exact Hy].
  - intros H. destruct (IH H) as [Hin Hp]. split; [right; exact Hin|exact Hp].
Qed.

Lemma isMetadataImport_true_inv (env : Collaborators)
    (protocolKey chainKey : option string) (productId fileKey : string) (n : Node) :
  isMetadataImport env protocolKey productId chainKey fileKey n = Ok true ->
  ImportedAs (generatedIdentifier env protocolKey productId chainKey fileKey) n.
Proof.
  unfold isMetadataImport. destruct n; try discriminate.
  destruct specifiers as [|first others]; [discriminate|].
  intros [= H]. apply bool_decide_eq_true in H.
  apply first_specifier_name in H as [t ->]. unfold ImportedAs. eauto.
Qed.

(** C4 (as amended).  When the visitor reaches a variable declarator named
    MetadataFiles whose initialiser is not a new-expression with an
    array-expression first argument, the transform throws before the
    serialize-and-write step: the world is as it was, the file on disk is
    not mutated.  The error is the 'Incorrectly typed MetadataFiles' one
    when every import has a specifier, every MetadataFiles array on the way
    can be sorted and the protocol and chain ids of the key have names in
    the Protocol and Chain tables; with the first two alone it is that
    error or, for a key without such a name, the Error of the builder;
    otherwise a TypeError may come first.  In every run the write happens
    at most once, after all the tree edits. *)
Theorem C4_mistyped_registry_untouched (env : Collaborators) (details : FileDetails)
    (ast : Program) (w : World) (init : option Node) :
  disk w !! adapterMetadataFile env = Some (SourceFile ast) ->
  Reached ast (VariableDeclarator (Identifier "MetadataFiles") init) ->
  (forall elements, ~ NewMapOfArray init elements) ->
  (exists e,
     addStaticImport env details w = (Throw e, w) /\
     (Forall HasSpecifier (body ast) -> EntriesReadable ast ->
      (KeysFound env details -> e = IncorrectlyTypedMetadataFiles) /\
      (e = IncorrectlyTypedMetadataFiles \/
       (e = BuilderError /\ ~ KeysFound env details)))) /\
  (forall w0,
     (exists e, addStaticImport env details w0 = (Throw e, w0)) \/
     (exists edited,
        addStaticImport env details w0 =
        (Ok tt,
         {| disk := <[adapterMetadataFile env := SourceFile edited]> (disk w0);
            events :=
              events w0 ++ [Written (adapterMetadataFile env) (SourceFile edited)] |}))).
Proof.
  intros Hfile Hreach Hbad. split; [|apply addStaticImport_outcomes].
  destruct (visit_mistyped env details ast init Hreach Hbad) as [e He].
  exists e. split.
  - rewrite (addStaticImport_unfold env details ast w Hfile), He. reflexivity.
  - intros Hspec Hreadable.
    pose proof (visit_error_kind env details ast e Hspec Hreadable He) as Hkind.
    split; [|exact Hkind]. intros Hkeys.
    destruct Hkind as [Hkind|[_ Hno]]; [exact Hkind|destruct (Hno Hkeys)].
Qed.

Lemma C4_mistyped_registry_untouched_witness :
  addStaticImport Sample.env Sample.stableDebt (Sample.worldWith Sample.mistyped) =
  (Throw IncorrectlyTypedMetadataFiles, Sample.worldWith Sample.mistyped).
Proof.
  destruct (C4_mistyped_registry_untouched Sample.env Sample.stableDebt
              Sample.mistyped (Sample.worldWith Sample.mistyped)
              (Some (ObjectExpression [])))
    as [(e & Hthrow & Hkind) _].
  - apply lookup_singleton_eq.
  - eexists. split; [left|].
    eapply reached_below; [intros id init H; discriminate H|left|].
    eapply reached_below; [intros id init H; discriminate H|left|].
    constructor.
  - intros elements (callee & others & H). discriminate H.
  - rewrite Hthrow. destruct Hkind as [Hkind _].
    + repeat constructor; intros source; discriminate.
    + intros d init elements Hd -> (callee & others & ->).
      reach_cases; congruence.
    + rewrite Hkind; [reflexivity|]. split; eexists; reflexivity.
Defined.

(** C4 as stated fails: the file holds a mistyped MetadataFiles, but the
    bare import before it makes the transform throw a TypeError, not the
    'Incorrectly typed MetadataFiles' error. *)
Lemma C4_counterexample :
  Reached Sample.mistypedWithBareImport Sample.mistypedMetadataFiles /\
  Sample.mistypedMetadataFiles =
    VariableDeclarator (Identifier "MetadataFiles") (Some (ObjectExpression [])) /\
  addStaticImport Sample.env Sample.stableDebt
    (Sample.worldWith Sample.mistypedWithBareImport) =
  (Throw TypeError, Sample.worldWith Sample.mistypedWithBareImport).
Proof.
  split; [|split; [reflexivity|]].
  - eexists. split; [right; left|].
    eapply reached_below; [intros id init H; discriminate H|left|].
    eapply reached_below; [intros id init H; discriminate H|left|].
    constructor.
  - rewrite (addStaticImport_unfold _ _ Sample.mistypedWithBareImport);
      [reflexivity|apply lookup_singleton_eq].
Qed.





(** ** The orchestrator *)

Lemma world_eq (w1 w2 : World) :
  disk w1 = disk w2 -> events w1 = events w2 -> w1 = w2.
Proof. destruct w1, w2. simpl. intros -> ->. reflexivity. Qed.

Lemma replay_app (l1 l2 : list Event) (d : gmap string FileContent) :
  replay (l1 ++ l2) d = replay l2 (replay l1 d).
Proof.
  revert d. induction l1 as [|[] l1 IH]; intros d; simpl; try apply IH. reflexivity.
Qed.

Lemma extend_nil (w : World) : extend w [] = w.
Proof. apply world_eq; simpl; [reflexivity|apply app_nil_r]. Qed.

Lemma extend_extend (w : World) (l1 l2 : list Event) :
  extend (extend w l1) l2 = extend w (l1 ++ l2).
Proof. apply world_eq; simpl; [symmetry; apply replay_app|symmetry; apply app_assoc]. Qed.

Lemma replay_invocations (a : Adapter) (d : gmap string FileContent) :
  replay (invocations a) d = d.
Proof.
  unfold invocations.
  destruct (bool_decide _), (adapterBuildMetadata a); reflexivity.
Qed.

Lemma replay_report (invalid : list string) (d : gmap string FileContent) :
  replay (checksumReport invalid) d = d.
Proof. reflexivity. Qed.

Lemma invocations_of (a b : Adapter) (capability : Capability) :
  Invoked b capability ∈ invocations a -> b = a.
Proof.
  unfold invocations. intros H. apply elem_of_app in H as [H|H].
  - destruct (bool_decide _); [|inversion H].
    apply list_elem_of_singleton in H. congruence.
  - destruct (adapterBuildMetadata a); [|inversion H].
    apply list_elem_of_singleton in H. congruence.
Qed.

Section Orchestrator.

Variable env : Collaborators.

Lemma writeAndLintFile_extend (path : string) (content : FileContent) (w : World) :
  writeAndLintFile path content w = (Ok tt, extend w [Written path content]).
Proof. reflexivity. Qed.

Lemma writeMetadataToFile_extend (details : FileDetails) (metadata : Json) (w : World) :
  writeMetadataToFile env details metadata w =
  (Ok tt, extend w [Written (artifactPath env details) (JsonFile metadata)]).
Proof. reflexivity. Qed.

Lemma addStaticImport_extend (details : FileDetails) (w : World) :
  exists r log,
    addStaticImport env details w = (r, extend w log) /\
    (forall b capability, Invoked b capability ∉ log) /\
    ((exists e, r = Throw e) /\ log = [] \/
     r = Ok tt /\
     exists edited, log = [Written (adapterMetadataFile env) (SourceFile edited)]).
Proof.
  destruct (addStaticImport_outcomes env details w) as [[e He]|[edited He]].
  - exists (Throw e), []. rewrite extend_nil. split; [exact He|].
    split; [intros b c H; inversion H|]. left. eauto.
  - exists (Ok tt), [Written (adapterMetadataFile env) (SourceFile edited)].
    split; [exact He|]. split; [|right; eauto].
    intros b c H. apply list_elem_of_singleton in H. discriminate.
Qed.

Lemma bindM_ok {A B : Type} (m : M A) (k : A -> M B) (w w' : World) (x : A) :
  m w = (Ok x, w') -> bindM m k w = k x w'.
Proof. unfold bindM. intros ->. reflexivity. Qed.

Lemma bindM_throw {A B : Type} (m : M A) (k : A -> M B) (w w' : World) (e : Error) :
  m w = (Throw e, w') -> bindM m k w = (Throw e, w').
Proof. unfold bindM. intros ->. reflexivity. Qed.

Lemma bindM_ext {A B : Type} (m : M A) (k1 k2 : A -> M B) (w : World) :
  (forall x w', k1 x w' = k2 x w') -> bindM m k1 w = bindM m k2 w.
Proof. intros H. unfold bindM. destruct (m w) as [[x| |] w']; auto. Qed.

Lemma invoke_extend (a : Adapter) (capability : Capability) (outcome : Outcome)
    (w : World) :
  invoke a capability outcome w =
  (match outcome with
   | Resolves d => Ok (Some d)
   | Rejects NotImplementedError => Ok None
   | Rejects (OtherRejection message) => Throw (AdapterError message)
   end,
   extend w [Invoked a capability]).
Proof. destruct outcome as [d|[|message]]; reflexivity. Qed.

Lemma processAdapter_unfold (a : Adapter) (w : World) :
  processAdapter env a w =
  bindM
    (if bool_decide (adapterSettingsVersion a = 2%Z)
     then invoke a GetProtocolTokens (getProtocolTokens a)
     else ret None)
    (fun fromTokens =>
       bindM
         (match adapterBuildMetadata a with
          | Some outcome => invoke a BuildMetadata outcome
          | None => ret fromTokens
          end)
         (fun metadataDetails w0 =>
            match metadataDetails with
            | None => (Ok Next, w0)
            | Some d => afterCalls env d w0
            end)) w.
Proof.
  unfold processAdapter. apply bindM_ext. intros fromTokens w1.
  apply bindM_ext. intros [[md fd]|] w2; [|reflexivity].
  unfold afterCalls. simpl.
  destruct (bool_decide (0 < length (getMetadataInvalidAddresses env md))).
  - unfold bindM, emit, ret. simpl. f_equal.
    apply world_eq; simpl; rewrite <- ?app_assoc; reflexivity.
  - unfold bindM at 1. rewrite writeMetadataToFile_extend.
    unfold bindM, ret.
    destruct (addStaticImport env fd _) as [[[]| |] w']; reflexivity.
Qed.

(** One adapter, by what its capabilities do. *)
Lemma processAdapter_idle (a : Adapter) (w : World) :
  Idle a -> processAdapter env a w = (Ok Next, w).
Proof.
  intros [Hversion Hbuild]. rewrite processAdapter_unfold.
  rewrite bool_decide_eq_false_2 by exact Hversion. rewrite Hbuild. reflexivity.
Qed.

Lemma collect_two (a : Adapter) (w : World) (k : option MetadataDetails -> M Control)
    (r : option MetadataDetails) :
  adapterSettingsVersion a = 2%Z ->
  (forall message, getProtocolTokens a <> Rejects (OtherRejection message)) ->
  forall outcome,
    adapterBuildMetadata a = Some outcome ->
    bindM
      (if bool_decide (adapterSettingsVersion a = 2%Z)
       then invoke a GetProtocolTokens (getProtocolTokens a)
       else ret None)
      (fun fromTokens =>
         bindM
           (match adapterBuildMetadata a with
            | Some outcome => invoke a BuildMetadata outcome
            | None => ret fromTokens
            end) k) w =
    bindM (invoke a BuildMetadata outcome) k (extend w [Invoked a GetProtocolTokens]).
Proof.
  intros Hversion Htokens outcome Hbuild.
  rewrite bool_decide_eq_true_2 by exact Hversion. rewrite Hbuild.
  unfold bindM at 1. rewrite invoke_extend.
  destruct (getProtocolTokens a) as [d|[|message]]; try reflexivity.
  exfalso. exact (Htokens message eq_refl).
Qed.

Lemma invocations_two (a : Adapter) (outcome : Outcome) :
  adapterSettingsVersion a = 2%Z -> adapterBuildMetadata a = Some outcome ->
  invocations a = [Invoked a GetProtocolTokens; Invoked a BuildMetadata].
Proof.
  intros Hversion Hbuild. unfold invocations.
  rewrite bool_decide_eq_true_2 by exact Hversion. rewrite Hbuild. reflexivity.
Qed.

Lemma invocations_tokens (a : Adapter) :
  adapterSettingsVersion a = 2%Z -> adapterBuildMetadata a = None ->
  invocations a = [Invoked a GetProtocolTokens].
Proof.
  intros Hversion Hbuild. unfold invocations.
  rewrite bool_decide_eq_true_2 by exact Hversion. rewrite Hbuild. reflexivity.
Qed.

Lemma invocations_build (a : Adapter) (outcome : Outcome) :
  adapterSettingsVersion a <> 2%Z -> adapterBuildMetadata a = Some outcome ->
  invocations a = [Invoked a BuildMetadata].
Proof.
  intros Hversion Hbuild. unfold invocations.
  rewrite bool_decide_eq_false_2 by exact Hversion. rewrite Hbuild. reflexivity.
Qed.

Lemma processAdapter_declines (a : Adapter) (w : World) :
  Declines a -> processAdapter env a w = (Ok Next, extend w (invocations a)).
Proof.
  intros Hdeclines. rewrite processAdapter_unfold.
  destruct Hdeclines as [Hversion Htokens Hbuild|Hversion Hbuild|Hversion Htokens Hbuild].
  - rewrite (invocations_tokens a Hversion Hbuild).
    rewrite bool_decide_eq_true_2 by exact Hversion. rewrite Htokens, Hbuild.
    reflexivity.
  - rewrite (invocations_build a _ Hversion Hbuild).
    rewrite bool_decide_eq_false_2 by exact Hversion. rewrite Hbuild.
    reflexivity.
  - rewrite (invocations_two a _ Hversion Hbuild).
    rewrite (collect_two a w _ None Hversion Htokens _ Hbuild).
    unfold bindM. rewrite invoke_extend, extend_extend. reflexivity.
Qed.

Lemma processAdapter_fails (a : Adapter) (message : string) (calls : list Event)
    (w : World) :
  FailsWith a message calls ->
  processAdapter env a w = (Throw (AdapterError message), extend w calls).
Proof.
  intros Hfails. rewrite processAdapter_unfold.
  destruct Hfails as [Hversion Htokens|Hversion Hbuild|Hversion Htokens Hbuild].
  - rewrite bool_decide_eq_true_2 by exact Hversion. rewrite Htokens. reflexivity.
  - rewrite bool_decide_eq_false_2 by exact Hversion. rewrite Hbuild. reflexivity.
  - rewrite (collect_two a w _ None Hversion Htokens _ Hbuild).
    unfold bindM. rewrite invoke_extend, extend_extend. reflexivity.
Qed.

Lemma processAdapter_yields (a : Adapter) (d : MetadataDetails) (w : World) :
  Yields a d ->
  processAdapter env a w = afterCalls env d (extend w (invocations a)).
Proof.
  intros Hyields. rewrite processAdapter_unfold.
  destruct Hyields as [Hversion Htokens Hbuild|Hversion Hbuild|Hversion Htokens Hbuild].
  - rewrite (invocations_tokens a Hversion Hbuild).
    rewrite bool_decide_eq_true_2 by exact Hversion. rewrite Htokens, Hbuild.
    reflexivity.
  - rewrite (invocations_build a _ Hversion Hbuild).
    rewrite bool_decide_eq_false_2 by exact Hversion. rewrite Hbuild.
    reflexivity.
  - rewrite (invocations_two a _ Hversion Hbuild).
    rewrite (collect_two a w _ None Hversion Htokens _ Hbuild).
    unfold bindM. rewrite invoke_extend, extend_extend. reflexivity.
Qed.

End Orchestrator.

Section Run.

Variable env : Collaborators.

Lemma classify (a : Adapter) :
  Idle a \/ Declines a \/ (exists d, Yields a d) \/
  (exists message calls, FailsWith a message calls).
Proof.
  destruct (decide (adapterSettingsVersion a = 2%Z)) as [Hversion|Hversion].
  - destruct (getProtocolTokens a) as [d|[|message]] eqn:Htokens.
    + destruct (adapterBuildMetadata a) as [[d'|[|message]]|] eqn:Hbuild.
      * right. right. left. exists d'. apply yields_build_v2; try assumption.
        intros m. rewrite Htokens. discriminate.
      * right. left. apply declines_build_v2; try assumption.
        intros m. rewrite Htokens. discriminate.
      * right. right. right. eexists _, _. apply fails_build_v2; try eassumption.
        intros m. rewrite Htokens. discriminate.
      * right. right. left. exists d. apply yields_tokens; assumption.
    + destruct (adapterBuildMetadata a) as [[d'|[|message]]|] eqn:Hbuild.
      * right. right. left. exists d'. apply yields_build_v2; try assumption.
        intros m. rewrite Htokens. discriminate.
      * right. left. apply declines_build_v2; try assumption.
        intros m. rewrite Htokens. discriminate.
      * right. right. right. eexists _, _. apply fails_build_v2; try eassumption.
        intros m. rewrite Htokens. discriminate.
      * right. left. apply declines_tokens; assumption.
    + right. right. right. eexists _, _. apply fails_tokens; eassumption.
  - destruct (adapterBuildMetadata a) as [[d'|[|message]]|] eqn:Hbuild.
    + right. right. left. exists d'. apply yields_build; assumption.
    + right. left. apply declines_build; assumption.
    + right. right. right. eexists _, _. apply fails_build; eassumption.
    + left. split; assumption.
Qed.

Lemma fails_calls (a b : Adapter) (message : string) (calls : list Event)
    (capability : Capability) :
  FailsWith a message calls -> Invoked b capability ∈ calls -> b = a.
Proof.
  intros [| |] Hin;
    repeat (apply elem_of_cons in Hin as [Hin|Hin]; [congruence|]); inversion Hin.
Qed.

(** Every call in the events of one adapter is a call on that adapter. *)
Lemma processAdapter_log (a : Adapter) (w : World) :
  exists r log,
    processAdapter env a w = (r, extend w log) /\
    forall b capability, Invoked b capability ∈ log -> b = a.
Proof.
  destruct (classify a) as [Hidle|[Hdeclines|[[d Hyields]|(message & calls & Hfails)]]].
  - exists (Ok Next), []. rewrite extend_nil. split; [apply processAdapter_idle, Hidle|].
    intros b c H. inversion H.
  - exists (Ok Next), (invocations a). split; [apply processAdapter_declines, Hdeclines|].
    intros b c. apply invocations_of.
  - rewrite (processAdapter_yields env a d w Hyields). unfold afterCalls. cbv zeta.
    destruct (bool_decide _).
    + exists (Ok Return),
        (invocations a ++
         checksumReport (getMetadataInvalidAddresses env (metadata d))).
      rewrite extend_extend. split; [reflexivity|].
      intros b c H. apply elem_of_app in H as [H|H]; [exact (invocations_of _ _ _ H)|].
      unfold checksumReport in H.
      repeat (apply elem_of_cons in H as [H|H]; [discriminate H|]). inversion H.
    + destruct (addStaticImport_extend env (fileDetails d)
                  (extend (extend w (invocations a))
                     [Written (artifactPath env (fileDetails d)) (JsonFile (metadata d))]))
        as (r & log & -> & Hnone & _).
      rewrite !extend_extend.
      exists (match r with Ok _ => Ok Next | Throw e => Throw e | Exhausted => Exhausted end).
      exists ((invocations a ++
               [Written (artifactPath env (fileDetails d)) (JsonFile (metadata d))]) ++ log).
      split; [rewrite <- app_assoc; destruct r; reflexivity|].
      intros b c H. apply elem_of_app in H as [H|H].
      * apply elem_of_app in H as [H|H]; [exact (invocations_of _ _ _ H)|].
        apply list_elem_of_singleton in H. discriminate H.
      * exfalso. exact (Hnone _ _ H).
  - exists (Throw (AdapterError message)), calls.
    split; [apply processAdapter_fails, Hfails|].
    intros b c. apply (fails_calls _ _ _ _ _ Hfails).
Qed.

Lemma extend_inj (w : World) (l1 l2 : list Event) :
  extend w l1 = extend w l2 -> l1 = l2.
Proof.
  intros H. apply (f_equal events) in H. simpl in H.
  exact (app_inv_head _ _ _ H).
Qed.

(** Loops keep a property of outcomes and events that holds of an empty step
    and composes with the steps before. *)
Lemma forOf_logs {A : Type} (P : Result Control -> list Event -> Prop)
    (l : list A) (loopBody : A -> M Control) :
  P (Ok Next) [] ->
  (forall l1 r l2, P (Ok Next) l1 -> P r l2 -> P r (l1 ++ l2)) ->
  (forall x, x ∈ l -> Logs (loopBody x) P) ->
  Logs (forOf l loopBody) P.
Proof.
  intros Hnil Hseq. induction l as [|x l IH]; intros Hbody w.
  - exists (Ok Next), []. rewrite extend_nil. split; [reflexivity|exact Hnil].
  - destruct (Hbody x (list_elem_of_here _ _) w) as (r1 & l1 & Hx & Hp1).
    simpl. unfold bindM. rewrite Hx.
    destruct r1 as [[]| |].
    + destruct (IH (fun y Hy => Hbody y (list_elem_of_further _ _ _ Hy)) (extend w l1))
        as (r2 & l2 & Hrest & Hp2).
      exists r2, (l1 ++ l2). rewrite Hrest, extend_extend. split; [reflexivity|].
      exact (Hseq _ _ _ Hp1 Hp2).
    + exists (Ok Return), l1. split; [reflexivity|exact Hp1].
    + exists (Throw e), l1. split; [reflexivity|exact Hp1].
    + exists Exhausted, l1. split; [reflexivity|exact Hp1].
Qed.

Lemma buildMetadata_logs (P : Result Control -> list Event -> Prop)
    (chainProviders : Z -> bool)
    (fetchChainProtocolAdapters : Z -> string -> list Adapter)
    (filterProtocolIds : option (list string)) (filterChainIds : option (list Z)) :
  P (Ok Next) [] ->
  (forall l1 r l2, P (Ok Next) l1 -> P r l2 -> P r (l1 ++ l2)) ->
  (forall chainId,
     P (Throw (ProviderMissingError chainId))
       [LoggerError chainId "No provider found for chain"]) ->
  (forall a, Logs (processAdapter env a) P) ->
  Logs (buildMetadata env chainProviders fetchChainProtocolAdapters
          filterProtocolIds filterChainIds) P.
Proof.
  intros Hnil Hseq Hmissing Hadapter. unfold buildMetadata.
  apply forOf_logs; [exact Hnil|exact Hseq|]. intros [protocolId supportedChains] _.
  destruct (filteredOut filterProtocolIds protocolId).
  { intros w. exists (Ok Next), []. rewrite extend_nil. split; [reflexivity|exact Hnil]. }
  apply forOf_logs; [exact Hnil|exact Hseq|]. intros chainId _.
  destruct (filteredOut filterChainIds chainId).
  { intros w. exists (Ok Next), []. rewrite extend_nil. split; [reflexivity|exact Hnil]. }
  destruct (chainProviders chainId); simpl.
  - apply forOf_logs; [exact Hnil|exact Hseq|]. intros a _. apply Hadapter.
  - intros w. exists (Throw (ProviderMissingError chainId)),
      [LoggerError chainId "No provider found for chain"].
    split; [reflexivity|apply Hmissing].
Qed.

Lemma endsAt_nil (a : Adapter) (expected : Result Control) (tail : list Event) :
  EndsAt a expected tail (Ok Next) [].
Proof. intros [c H]. inversion H. Qed.

Lemma endsAt_seq (a : Adapter) (expected : Result Control) (tail : list Event) :
  expected <> Ok Next ->
  forall l1 r l2,
    EndsAt a expected tail (Ok Next) l1 -> EndsAt a expected tail r l2 ->
    EndsAt a expected tail r (l1 ++ l2).
Proof.
  intros Hexpected l1 r l2 H1 H2 [c Hin]. apply elem_of_app in Hin as [Hin|Hin].
  - destruct H1 as [Hr _]; [eauto|]. congruence.
  - destruct H2 as [-> [before ->]]; [eauto|]. split; [reflexivity|].
    exists (l1 ++ before). apply app_assoc.
Qed.

(** The run stops at the adapter whose step always ends with [expected] and
    adds [tail]. *)
Lemma buildMetadata_endsAt (a : Adapter) (expected : Result Control) (tail : list Event)
    (chainProviders : Z -> bool)
    (fetchChainProtocolAdapters : Z -> string -> list Adapter)
    (filterProtocolIds : option (list string)) (filterChainIds : option (list Z)) :
  expected <> Ok Next ->
  (forall w, processAdapter env a w = (expected, extend w tail)) ->
  Logs (buildMetadata env chainProviders fetchChainProtocolAdapters
          filterProtocolIds filterChainIds) (EndsAt a expected tail).
Proof.
  intros Hexpected Hstep. apply buildMetadata_logs.
  - apply endsAt_nil.
  - apply endsAt_seq, Hexpected.
  - intros chainId [c H]. apply list_elem_of_singleton in H. discriminate H.
  - intros b w. destruct (processAdapter_log b w) as (r & log & Hrun & Hcalls).
    exists r, log. split; [exact Hrun|]. intros [c Hin].
    assert (a = b) as <- by exact (Hcalls _ _ Hin).
    rewrite Hstep in Hrun.
    assert (Hr : expected = r) by congruence.
    assert (Hworld : extend w tail = extend w log) by congruence.
    apply extend_inj in Hworld as <-. split; [congruence|]. exists []. reflexivity.
Qed.

End Run.



(** C9 (as amended).  An adapter whose deciding capability (buildMetadata
    when it has one, getProtocolTokens otherwise) rejects with a
    NotImplementedError gives nothing to register: its step only records the
    calls, leaves the disk as it is, and the loop goes on with the next
    adapter.  A NotImplementedError of getProtocolTokens is discarded when
    the adapter has buildMetadata too: the step goes on as for the payload
    buildMetadata resolves to, through the checksum gate to the two writes.
    An adapter with a capability that rejects with another error
    stops the run with that error: once it has been called the events end
    with the failing call, so no later adapter is attempted, and the disk is
    the one the earlier adapters left. *)
Theorem C9_not_implemented_and_failure (env : Collaborators) (a : Adapter) :
  (Declines a ->
   forall w later,
     processAdapter env a w = (Ok Next, extend w (invocations a)) /\
     disk (extend w (invocations a)) = disk w /\
     forOf (a :: later) (processAdapter env) w =
       forOf later (processAdapter env) (extend w (invocations a))) /\
  (forall message calls,
     FailsWith a message calls ->
     forall (chainProviders : Z -> bool)
            (fetchChainProtocolAdapters : Z -> string -> list Adapter)
            (filterProtocolIds : option (list string))
            (filterChainIds : option (list Z)) (w : World),
     (forall later,
        forOf (a :: later) (processAdapter env) w =
          (Throw (AdapterError message), extend w calls)) /\
     exists r log,
       buildMetadata env chainProviders fetchChainProtocolAdapters
         filterProtocolIds filterChainIds w = (r, extend w log) /\
       ((exists capability, Invoked a capability ∈ log) ->
        r = Throw (AdapterError message) /\
        exists before,
          log = before ++ calls /\ disk (extend w log) = replay before (disk w))) /\
  (forall d,
     adapterSettingsVersion a = 2%Z ->
     getProtocolTokens a = Rejects NotImplementedError ->
     adapterBuildMetadata a = Some (Resolves d) ->
     forall w,
       processAdapter env a w =
       afterCalls env d
         (extend w [Invoked a GetProtocolTokens; Invoked a BuildMetadata])).
Proof.
  split; [|split].
  - intros Hdeclines w later.
    pose proof (processAdapter_declines env a w Hdeclines) as Hstep.
    split; [exact Hstep|]. split.
    + simpl. apply replay_invocations.
    + simpl. unfold bindM. rewrite Hstep. reflexivity.
  - intros message calls Hfails chainProviders fetchChainProtocolAdapters
      filterProtocolIds filterChainIds w.
    split.
    { intros later. simpl. unfold bindM.
      rewrite (processAdapter_fails env a message calls w Hfails). reflexivity. }
    destruct (buildMetadata_endsAt env a (Throw (AdapterError message)) calls
                chainProviders fetchChainProtocolAdapters filterProtocolIds
                filterChainIds ltac:(discriminate)
                (fun w0 => processAdapter_fails env a message calls w0 Hfails) w)
      as (r & log & Hrun & Hends).
    exists r, log. split; [exact Hrun|]. intros Hcalled.
    destruct (Hends Hcalled) as [-> [before ->]]. split; [reflexivity|].
    exists before. split; [reflexivity|].
    simpl. rewrite replay_app. destruct Hfails; reflexivity.
  - intros d Hversion Htokens Hbuild w.
    assert (Hyields : Yields a d).
    { apply yields_build_v2; [exact Hversion| |exact Hbuild].
      intros message. rewrite Htokens. discriminate. }
    rewrite (processAdapter_yields env a d w Hyields).
    rewrite (invocations_two a _ Hversion Hbuild). reflexivity.
Qed.

(** C9 as stated fails: getProtocolTokens of the adapter rejects with a
    NotImplementedError, and the adapter is not skipped: buildMetadata is
    called and its payload is written and registered. *)
Lemma C9_counterexample :
  getProtocolTokens Sample.overridingAdapter = Rejects NotImplementedError /\
  events (snd (processAdapter Sample.env Sample.overridingAdapter
                 (Sample.worldWith Sample.registry))) =
    [Invoked Sample.overridingAdapter GetProtocolTokens;
     Invoked Sample.overridingAdapter BuildMetadata;
     Written (artifactPath Sample.env Sample.stableDebt) (JsonFile Sample.checksummed);
     Written (adapterMetadataFile Sample.env)
       (SourceFile
          {| body :=
               [Sample.importOf "LidoWstEthEthereumProtocolToken"
                  "../../adapters/lido/products/wst-eth/metadata/ethereum.protocol-token.json";
                importFor Sample.env Sample.stableDebt;
                Sample.declaration
                  [Sample.metadataFiles
                     [entryFor Sample.env (Some "AaveV2") "stable-debt-token"
                        (Some "Ethereum") "stable-debt-token-v2";
                      Sample.pairFor "LidoWstEthEthereumProtocolToken"]];
                Sample.helperFunction] |})].
Proof. split; [reflexivity|]. vm_compute. reflexivity. Qed.

Lemma C9_not_implemented_and_failure_witness :
  processAdapter Sample.env Sample.silentAdapter (Sample.worldWith Sample.registry) =
    (Ok Next,
     extend (Sample.worldWith Sample.registry) (invocations Sample.silentAdapter)) /\
  forOf [Sample.brokenAdapter; Sample.goodAdapter] (processAdapter Sample.env)
    (Sample.worldWith Sample.registry) =
    (Throw (AdapterError "call revert exception"),
     extend (Sample.worldWith Sample.registry)
       [Invoked Sample.brokenAdapter GetProtocolTokens]).
Proof.
  split.
  - apply (C9_not_implemented_and_failure Sample.env Sample.silentAdapter).
    + apply declines_tokens; reflexivity.
    + exact [].
  - apply (C9_not_implemented_and_failure Sample.env Sample.brokenAdapter).
    + apply fails_tokens; reflexivity.
    + exact Sample.allProviders.
    + exact (fun _ _ => []).
    + exact None.
    + exact None.
Defined.

(** C5 (as amended).  When the registration of an adapter fails while the
    registry file is edited, the registry file is not rewritten, but the
    artifact JSON file of the adapter has been written before and stays on
    disk: the disk after the failure is the disk before the adapter with
    that one file set.  All that earlier adapters committed is still there,
    and the error ends the loop. *)
Theorem C5_failed_registration_keeps_artifact (env : Collaborators) (a : Adapter)
    (d : MetadataDetails) (e : Error) (w : World) :
  Yields a d ->
  getMetadataInvalidAddresses env (metadata d) = [] ->
  fst (addStaticImport env (fileDetails d)
         (extend w (invocations a ++
                    [Written (artifactPath env (fileDetails d))
                       (JsonFile (metadata d))]))) = Throw e ->
  let log :=
    invocations a ++
    [Written (artifactPath env (fileDetails d)) (JsonFile (metadata d))] in
  processAdapter env a w = (Throw e, extend w log) /\
  disk (extend w log) =
    <[artifactPath env (fileDetails d) := JsonFile (metadata d)]> (disk w) /\
  (forall later,
     forOf (a :: later) (processAdapter env) w = (Throw e, extend w log)).
Proof.
  intros Hyields Hvalid Hfails log.
  assert (Hstep : processAdapter env a w = (Throw e, extend w log)).
  { rewrite (processAdapter_yields env a d w Hyields).
    unfold afterCalls. cbv zeta. rewrite Hvalid.
    rewrite bool_decide_eq_false_2 by (simpl; lia).
    rewrite extend_extend. fold log. fold log in Hfails.
    destruct (addStaticImport_outcomes env (fileDetails d) (extend w log))
      as [[e' He]|[edited He]]; rewrite He in Hfails |- *; simpl in Hfails.
    - congruence.
    - discriminate. }
  split; [exact Hstep|]. split.
  - unfold log. simpl. rewrite replay_app, replay_invocations. reflexivity.
  - intros later. simpl. unfold bindM. rewrite Hstep. reflexivity.
Qed.

Lemma C5_failed_registration_keeps_artifact_witness :
  processAdapter Sample.env Sample.goodAdapter (Sample.worldWith Sample.mistyped) =
  (Throw IncorrectlyTypedMetadataFiles,
   extend (Sample.worldWith Sample.mistyped)
     (invocations Sample.goodAdapter ++
      [Written (artifactPath Sample.env Sample.stableDebt)
         (JsonFile Sample.checksummed)])).
Proof.
  apply (C5_failed_registration_keeps_artifact Sample.env Sample.goodAdapter
           {| metadata := Sample.checksummed; fileDetails := Sample.stableDebt |}
           IncorrectlyTypedMetadataFiles (Sample.worldWith Sample.mistyped)).
  - apply yields_tokens; reflexivity.
  - vm_compute. reflexivity.
  - vm_compute. reflexivity.
Defined.

(** C5 as stated fails: the registry file is mistyped, the run of the one
    adapter ends with the fatal error of the registry-entry edit, and the
    artifact file of the adapter, which was not there before, is on disk. *)
Lemma C5_counterexample :
  let run :=
    buildMetadata Sample.env Sample.allProviders
      (Sample.adaptersOf [Sample.goodAdapter] []) None None
      (Sample.worldWith Sample.mistyped) in
  fst run = Throw IncorrectlyTypedMetadataFiles /\
  disk (Sample.worldWith Sample.mistyped)
    !! artifactPath Sample.env Sample.stableDebt = None /\
  disk (snd run) !! artifactPath Sample.env Sample.stableDebt =
    Some (JsonFile Sample.checksummed) /\
  disk (snd run) !! adapterMetadataFile Sample.env = Some (SourceFile Sample.mistyped).
Proof.
  cbv zeta. split; [|split; [|split]]; vm_compute; reflexivity.
Qed.

(** ** Runs of the command in the sample setting *)

(** The second adapter fails the checksum gate: the run returns there, the
    third adapter is never called and nothing is written. *)
Example run_stops_at_checksum_gate :
  let run :=
    buildMetadata Sample.env Sample.allProviders
      (Sample.adaptersOf
         [Sample.silentAdapter; Sample.badAddressAdapter; Sample.goodAdapter]
         [Sample.lidoAdapter])
      None None (Sample.worldWith Sample.registry) in
  fst run = Ok Return /\
  events (snd run) =
    [Invoked Sample.silentAdapter GetProtocolTokens;
     Invoked Sample.badAddressAdapter GetProtocolTokens] ++
    checksumReport
      ["0x7fc66500c84a76ad7e9c93437bfc5ac33e2ddae9";
       "0x6b175474e89094c44da98b954eedeac495271d0f"] /\
  disk (snd run) !! artifactPath Sample.env Sample.stableDebt = None /\
  disk (snd run) !! adapterMetadataFile Sample.env = Some (SourceFile Sample.registry).
Proof. cbv zeta. repeat split; vm_compute; reflexivity. Qed.

(** The first adapter is registered, the second one fails: the run stops with
    its error, the artifact and the registry entry of the first one stay,
    and the adapter of the next protocol is never called. *)
Example run_stops_at_failure :
  let run :=
    buildMetadata Sample.env Sample.allProviders
      (Sample.adaptersOf [Sample.goodAdapter; Sample.brokenAdapter]
         [Sample.lidoAdapter])
      None None (Sample.worldWith Sample.registry) in
  fst run = Throw (AdapterError "call revert exception") /\
  (exists edited,
     events (snd run) =
       [Invoked Sample.goodAdapter GetProtocolTokens;
        Written (artifactPath Sample.env Sample.stableDebt)
          (JsonFile Sample.checksummed);
        Written (adapterMetadataFile Sample.env) (SourceFile edited);
        Invoked Sample.brokenAdapter GetProtocolTokens] /\
     disk (snd run) !! adapterMetadataFile Sample.env = Some (SourceFile edited)) /\
  disk (snd run) !! artifactPath Sample.env Sample.stableDebt =
    Some (JsonFile Sample.checksummed).
Proof.
  cbv zeta. split; [vm_compute; reflexivity|]. split; [|vm_compute; reflexivity].
  eexists. split; vm_compute; reflexivity.
Qed.

(** A second run with the same adapter outputs leaves the disk of the first
    run as it is. *)
Example second_run_changes_nothing :
  let run :=
    buildMetadata Sample.env Sample.allProviders
      (Sample.adaptersOf [Sample.silentAdapter; Sample.goodAdapter]
         [Sample.lidoAdapter])
      None None in
  let once := snd (run (Sample.worldWith Sample.registry)) in
  let twice := snd (run once) in
  fst (run (Sample.worldWith Sample.registry)) = Ok Next /\
  fst (run once) = Ok Next /\
  disk twice !! adapterMetadataFile Sample.env =
    disk once !! adapterMetadataFile Sample.env /\
  disk twice !! artifactPath Sample.env Sample.stableDebt =
    disk once !! artifactPath Sample.env Sample.stableDebt /\
  disk twice !! artifactPath Sample.env Sample.lidoStEth =
    disk once !! artifactPath Sample.env Sample.lidoStEth.
Proof. cbv zeta. repeat split; vm_compute; reflexivity. Qed.

(** A chain without a provider ends the run before any adapter is called. *)
Example run_without_provider :
  buildMetadata Sample.env (fun _ => false)
    (Sample.adaptersOf [Sample.goodAdapter] []) None None
    (Sample.worldWith Sample.registry) =
  (Throw (ProviderMissingError 1),
   extend (Sample.worldWith Sample.registry)
     [LoggerError 1 "No provider found for chain"]).
Proof. reflexivity. Qed.

(** The registration of a key whose chain has no name in the Chain table:
    the import is added in memory, the builder of the key object throws at
    the MetadataFiles declarator, and nothing is written. *)
Example registration_without_chain_key :
  addStaticImport Sample.env Sample.unlistedChain (Sample.worldWith Sample.registry) =
  (Throw BuilderError, Sample.worldWith Sample.registry).
Proof.
  rewrite (addStaticImport_unfold _ _ Sample.registry);
    [reflexivity|apply lookup_singleton_eq].
Qed.

(** With the protocol filter on lido, no adapter of aave-v2 is called. *)
Example run_with_protocol_filter :
  events
    (snd (buildMetadata Sample.env Sample.allProviders
            (Sample.adaptersOf [Sample.brokenAdapter] [Sample.silentAdapter])
            (Some ["lido"]) None (Sample.worldWith Sample.registry))) =
  [Invoked Sample.silentAdapter GetProtocolTokens].
Proof. vm_compute. reflexivity. Qed.

(** * Further properties of the transformer and of the command *)

(** ** The import-section edit, on any body *)

Lemma filter_filter_same {A : Type} (f : A -> bool) (l : list A) :
  List.filter f (List.filter f l) = List.filter f l.
Proof.
  induction l as [|x l IH]; simpl; [reflexivity|].
  destruct (f x) eqn:Hx; simpl; rewrite ?Hx, IH; reflexivity.
Qed.

Lemma filter_filter_other {A : Type} (f : A -> bool) (l : list A) :
  List.filter f (List.filter (fun x => negb (f x)) l) = [].
Proof.
  induction l as [|x l IH]; simpl; [reflexivity|].
  destruct (f x) eqn:Hx; simpl; rewrite ?Hx; exact IH.
Qed.

Lemma filter_split_perm {A : Type} (f : A -> bool) (l : list A) :
  List.filter f l ++ List.filter (fun x => negb (f x)) l ≡ₚ l.
Proof.
  induction l as [|x l IH]; simpl; [reflexivity|].
  destruct (f x); simpl.
  - constructor. exact IH.
  - rewrite <- Permutation_middle. constructor. exact IH.
Qed.

Lemma findR_app_none {A : Type} (p : A -> Result bool) (l1 l2 : list A) :
  findR p l1 = Ok None -> findR p (l1 ++ l2) = findR p l2.
Proof.
  induction l1 as [|x l1 IH]; simpl; [reflexivity|].
  destruct (p x) as [[]| |]; simpl; try discriminate. exact IH.
Qed.

(** X1.  On any program body whose import declarations all have a specifier
    and none of which binds the generated identifier, the import-section
    edit returns the import declarations of the body, wherever they stood,
    in their order, then the new import, then all the other statements in
    their order: imports that stood among the code are moved ahead of it. *)
Theorem X1_import_edit_hoists (env : Collaborators) (details : FileDetails)
    (programBody : list Node) :
  Forall HasSpecifier programBody ->
  Forall (fun n => ~ ImportedAs (identifierOf env details) n) programBody ->
  importEditFor env details programBody =
    Ok (List.filter isImportDeclaration programBody ++
        [importFor env details] ++
        List.filter (fun n => negb (isImportDeclaration n)) programBody) /\
  LeadingImports
    (List.filter isImportDeclaration programBody ++ [importFor env details])
    (List.filter (fun n => negb (isImportDeclaration n)) programBody).
Proof.
  intros Hspec Hnew. split.
  - unfold importEditFor. rewrite edit_unfold. rewrite findR_none; [reflexivity|].
    apply Forall_forall. intros n Hn.
    apply list_elem_of_In, filter_In in Hn as [Hn _]. apply list_elem_of_In in Hn.
    rewrite Forall_forall in Hspec, Hnew.
    apply isMetadataImport_other; [apply Hspec, Hn|apply Hnew, Hn].
  - split.
    + apply Forall_app. split; [|constructor; [reflexivity|constructor]].
      apply Forall_forall. intros n Hn.
      apply list_elem_of_In, filter_In in Hn as [_ Hn]. exact Hn.
    + apply Forall_forall. intros n Hn.
      apply list_elem_of_In, filter_In in Hn as [_ Hn].
      apply negb_true_iff, Hn.
Qed.

Lemma X1_import_edit_hoists_witness :
  importEditFor Sample.env Sample.stableDebt
    [Sample.helperFunction;
     Sample.importOf "LidoWstEthEthereumProtocolToken" "./lido.json";
     Sample.declaration [Sample.metadataFiles []]] =
  Ok [Sample.importOf "LidoWstEthEthereumProtocolToken" "./lido.json";
      importFor Sample.env Sample.stableDebt;
      Sample.helperFunction;
      Sample.declaration [Sample.metadataFiles []]].
Proof.
  apply (X1_import_edit_hoists Sample.env Sample.stableDebt
           [Sample.helperFunction;
            Sample.importOf "LidoWstEthEthereumProtocolToken" "./lido.json";
            Sample.declaration [Sample.metadataFiles []]]).
  - repeat constructor; intros source; discriminate.
  - repeat constructor; intros (t & specifiers & source & H); discriminate.
Defined.

(** X2.  Whenever the import-section edit completes, it has dropped and
    duplicated nothing: the body it returns is the body it was given, or a
    rearrangement of that body with the one new import. *)
Theorem X2_import_edit_keeps_statements (env : Collaborators) (details : FileDetails)
    (programBody body' : list Node) :
  importEditFor env details programBody = Ok body' ->
  body' = programBody \/
  (body' ≡ₚ importFor env details :: programBody /\
   length body' = S (length programBody)).
Proof.
  unfold importEditFor. rewrite edit_unfold.
  destruct (findR _ _) as [[found|]| |]; cbn [bindR]; try discriminate.
  - intros [= <-]. left. reflexivity.
  - intros [= <-]. right.
    assert (Hperm : List.filter isImportDeclaration programBody ++
              [importFor env details] ++
              List.filter (fun n => negb (isImportDeclaration n)) programBody
              ≡ₚ importFor env details :: programBody).
    { simpl. rewrite <- Permutation_middle. constructor. apply filter_split_perm. }
    split; [exact Hperm|]. rewrite Hperm. reflexivity.
Qed.

Lemma X2_import_edit_keeps_statements_witness :
  [Sample.importOf "LidoWstEthEthereumProtocolToken" "./lido.json";
   importFor Sample.env Sample.stableDebt; Sample.helperFunction] =
  [Sample.importOf "LidoWstEthEthereumProtocolToken" "./lido.json";
   Sample.helperFunction] \/
  ([Sample.importOf "LidoWstEthEthereumProtocolToken" "./lido.json";
    importFor Sample.env Sample.stableDebt; Sample.helperFunction]
   ≡ₚ importFor Sample.env Sample.stableDebt ::
      [Sample.importOf "LidoWstEthEthereumProtocolToken" "./lido.json";
       Sample.helperFunction] /\
   length [Sample.importOf "LidoWstEthEthereumProtocolToken" "./lido.json";
           importFor Sample.env Sample.stableDebt; Sample.helperFunction] =
   S (length [Sample.importOf "LidoWstEthEthereumProtocolToken" "./lido.json";
              Sample.helperFunction])).
Proof.
  apply (X2_import_edit_keeps_statements Sample.env Sample.stableDebt
           [Sample.importOf "LidoWstEthEthereumProtocolToken" "./lido.json";
            Sample.helperFunction]).
  reflexivity.
Defined.

(** After the edit, the lookup finds the import. *)
Lemma importEdit_found (env : Collaborators) (details : FileDetails)
    (programBody body' : list Node) :
  importEditFor env details programBody = Ok body' ->
  exists found,
    findR (isMetadataImport env (findProtocolKey env (protocolId details))
             (productId details) (findChainKey env (chainId details))
             (fileKey details))
      (List.filter isImportDeclaration body') = Ok (Some found) /\
    ImportedAs (identifierOf env details) found.
Proof.
  unfold importEditFor. rewrite edit_unfold.
  destruct (findR _ _) as [[found|]| |] eqn:Hfind; cbn [bindR]; try discriminate.
  - intros [= <-]. exists found. split; [exact Hfind|].
    apply findR_found in Hfind as [_ Htrue].
    apply isMetadataImport_true_inv, Htrue.
  - intros [= <-]. exists (importFor env details).
    rewrite List.filter_app, filter_filter_same.
    rewrite (findR_app_none _ _ _ Hfind). split.
    + simpl. rewrite bool_decide_eq_true_2; reflexivity.
    + unfold ImportedAs, importFor, buildImportAdapterMetadataEntry. eauto.
Qed.

(** X3.  The import-section edit is idempotent: applied to a body it has
    returned, it returns that body. *)
Theorem X3_import_edit_idempotent (env : Collaborators) (details : FileDetails)
    (programBody body' : list Node) :
  importEditFor env details programBody = Ok body' ->
  importEditFor env details body' = Ok body'.
Proof.
  intros Hedit. destruct (importEdit_found env details _ _ Hedit) as (found & Hfind & _).
  unfold importEditFor. rewrite edit_unfold, Hfind. reflexivity.
Qed.

Lemma X3_import_edit_idempotent_witness :
  importEditFor Sample.env Sample.stableDebt
    [importFor Sample.env Sample.stableDebt; Sample.helperFunction] =
  Ok [importFor Sample.env Sample.stableDebt; Sample.helperFunction].
Proof.
  apply (X3_import_edit_idempotent Sample.env Sample.stableDebt
           [Sample.helperFunction]).
  reflexivity.
Defined.

(** ** The registry-entry edit, once more *)

Lemma insertSorted_perm {A : Type} (x : option string * A)
    (l : list (option string * A)) :
  insertSorted x l ≡ₚ x :: l.
Proof.
  induction l as [|y l IH]; simpl; [reflexivity|].
  destruct (keyLt (fst y) (fst x)); [|reflexivity].
  rewrite IH. apply perm_swap.
Qed.

Lemma sortByName_perm (entries : list Node) : sortByName entries ≡ₚ entries.
Proof.
  unfold sortByName.
  assert (H : foldr insertSorted [] (map (fun entry => (nameKey entry, entry)) entries)
              ≡ₚ map (fun entry => (nameKey entry, entry)) entries).
  { induction (map (fun entry => (nameKey entry, entry)) entries) as [|x l IH];
      simpl; [reflexivity|]. rewrite insertSorted_perm, IH. reflexivity. }
  rewrite H, map_map. simpl. rewrite map_id. reflexivity.
Qed.

Lemma edit_ok_holds (env : Collaborators)
    (protocolKey chainKey : option string) (productId fileKey : string)
    (n edited : Node) :
  addAdapterMetadataEntry env n protocolKey productId chainKey fileKey = Ok edited ->
  HoldsPair (generatedIdentifier env protocolKey productId chainKey fileKey) edited.
Proof.
  destruct (edit_shape env protocolKey chainKey productId fileKey n)
    as [(id & callee & others & elements & ->)|Hbad]; [|rewrite Hbad; discriminate].
  rewrite edit_unfold_entry.
  destruct (List.find _ elements) as [found|] eqn:Hfind.
  - intros [= <-]. apply find_some in Hfind as [Hin Htrue].
    apply isMetadataFileEntry_spec in Htrue.
    unfold HoldsPair, NewMapOfArray. eexists _, _, _, found.
    split; [reflexivity|]. split; [eauto|]. split; [apply list_elem_of_In, Hin|exact Htrue].
  - destruct protocolKey as [pk|]; cbn [b_identifier bindR]; try discriminate.
    destruct chainKey as [ck|]; cbn [b_identifier bindR]; try discriminate.
    destruct (sortEntries _ entryName) as [sorted|e|] eqn:Hsort; simpl; try discriminate.
    intros [= <-]. apply sortEntries_ok in Hsort as [_ ->].
    unfold HoldsPair, NewMapOfArray. eexists _, _, _, _.
    split; [reflexivity|]. split; [eauto|]. split.
    + apply (proj2 (sortByName_elem _ _)), elem_of_app. right. left.
    + apply newEntry_pair.
Qed.

(** X4.  Whenever the registry-entry edit completes, the declarator it
    leaves holds a pair for the generated identifier, and the edit applied
    to that declarator again changes nothing. *)
Theorem X4_entry_edit_idempotent (env : Collaborators) (details : FileDetails)
    (declarator edited : Node) :
  entryEditFor env details declarator = Ok edited ->
  HoldsPair (identifierOf env details) edited /\
  entryEditFor env details edited = Ok edited.
Proof.
  intros Hedit. apply edit_ok_holds in Hedit.
  split; [exact Hedit|]. apply edit_registered_entry, Hedit.
Qed.

Lemma X4_entry_edit_idempotent_witness :
  entryEditFor Sample.env Sample.stableDebt
    (declaratorOf (Identifier "MetadataFiles") (Identifier "Map") []
       [entryFor Sample.env (Some "AaveV2") "stable-debt-token" (Some "Ethereum")
          "stable-debt-token-v2"]) =
  Ok (declaratorOf (Identifier "MetadataFiles") (Identifier "Map") []
        [entryFor Sample.env (Some "AaveV2") "stable-debt-token" (Some "Ethereum")
           "stable-debt-token-v2"]).
Proof.
  apply (X4_entry_edit_idempotent Sample.env Sample.stableDebt (Sample.metadataFiles [])).
  reflexivity.
Defined.

(** X5.  Whenever the registry-entry edit completes on a declarator of the
    expected shape, it has touched nothing but the array: the id, the callee
    and the other arguments of the new-expression are the same, and the
    array is the one it was, or a rearrangement of it with the one new
    pair, no entry lost and none repeated. *)
Theorem X5_entry_edit_keeps_entries (env : Collaborators) (details : FileDetails)
    (id callee : Node) (others elements : list Node) (edited : Node) :
  entryEditFor env details (declaratorOf id callee others elements) = Ok edited ->
  exists elements',
    edited = declaratorOf id callee others elements' /\
    (elements' = elements \/
     elements' ≡ₚ
       elements ++
       [entryFor env (findProtocolKey env (protocolId details)) (productId details)
          (findChainKey env (chainId details)) (fileKey details)] /\
     length elements' = S (length elements)).
Proof.
  unfold entryEditFor. rewrite edit_unfold_entry.
  destruct (List.find _ elements) as [found|].
  - intros [= <-]. exists elements. auto.
  - destruct (findProtocolKey env (protocolId details)) as [pk|];
      cbn [b_identifier bindR]; try discriminate.
    destruct (findChainKey env (chainId details)) as [ck|];
      cbn [b_identifier bindR]; try discriminate.
    destruct (sortEntries _ entryName) as [sorted|e|] eqn:Hsort; simpl; try discriminate.
    intros [= <-]. apply sortEntries_ok in Hsort as [_ ->].
    eexists. split; [reflexivity|]. right.
    split; [apply sortByName_perm|].
    rewrite sortByName_perm, length_app. simpl. lia.
Qed.

Lemma X5_entry_edit_keeps_entries_witness :
  exists elements',
    declaratorOf (Identifier "MetadataFiles") (Identifier "Map") []
      [entryFor Sample.env (Some "AaveV2") "stable-debt-token" (Some "Ethereum")
         "stable-debt-token-v2";
       Sample.pairFor "LidoWstEthEthereumProtocolToken"] =
    declaratorOf (Identifier "MetadataFiles") (Identifier "Map") [] elements' /\
    (elements' = [Sample.pairFor "LidoWstEthEthereumProtocolToken"] \/
     elements' ≡ₚ
       [Sample.pairFor "LidoWstEthEthereumProtocolToken"] ++
       [entryFor Sample.env (findProtocolKey Sample.env (protocolId Sample.stableDebt))
          (productId Sample.stableDebt)
          (findChainKey Sample.env (chainId Sample.stableDebt))
          (fileKey Sample.stableDebt)] /\
     length elements' = S (length [Sample.pairFor "LidoWstEthEthereumProtocolToken"])).
Proof.
  apply (X5_entry_edit_keeps_entries Sample.env Sample.stableDebt
           (Identifier "MetadataFiles") (Identifier "Map") []
           [Sample.pairFor "LidoWstEthEthereumProtocolToken"]).
  reflexivity.
Defined.

(** ** The lookups in the Protocol and Chain tables *)



(** X6.  The lookups of the symbolic keys go back and forth: the key found
    for a protocol id (a chain id) is a property of the table with that
    value; and in a table with no repeated name and no repeated value the
    name of every entry is found from its value, so that two ids with the
    same key are the same id. *)
Theorem X6_symbolic_key_lookup (env : Collaborators) :
  (forall protocolId protocolKey,
     findProtocolKey env protocolId = Some protocolKey ->
     (protocolKey, protocolId) ∈ Protocol env) /\
  (forall chainId chainKey,
     findChainKey env chainId = Some chainKey -> (chainKey, chainId) ∈ Chain env) /\
  (NoDup (map fst (Protocol env)) -> NoDup (map snd (Protocol env)) ->
   (forall protocolKey protocolId,
      (protocolKey, protocolId) ∈ Protocol env ->
      findProtocolKey env protocolId = Some protocolKey) /\
   (forall id1 id2 protocolKey,
      findProtocolKey env id1 = Some protocolKey ->
      findProtocolKey env id2 = Some protocolKey -> id1 = id2)) /\
  (NoDup (map fst (Chain env)) -> NoDup (map snd (Chain env)) ->
   forall chainKey chainId,
     (chainKey, chainId) ∈ Chain env -> findChainKey env chainId = Some chainKey).
Proof.
  split; [|split; [|split]].
  - intros protocolId protocolKey. apply find_key_sound.
  - intros chainId chainKey. apply find_key_sound.
  - intros Hkeys Hvalues. split.
    + intros protocolKey protocolId. apply find_key_complete; assumption.
    + intros id1 id2 protocolKey H1 H2.
      apply find_key_sound in H1, H2.
      apply (getProp_unique _ _ _ Hkeys) in H1, H2. congruence.
  - intros Hkeys Hvalues chainKey chainId. apply find_key_complete; assumption.
Qed.

Lemma X6_symbolic_key_lookup_witness :
  findProtocolKey Sample.env "lido" = Some "Lido" /\
  findChainKey Sample.env 10%Z = Some "Optimism".
Proof.
  destruct (X6_symbolic_key_lookup Sample.env) as (_ & _ & Hprotocol & Hchain).
  split.
  - apply Hprotocol.
    + apply (bool_decide_unpack _). vm_compute. exact I.
    + apply (bool_decide_unpack _). vm_compute. exact I.
    + right. left.
  - apply Hchain.
    + apply (bool_decide_unpack _). vm_compute. exact I.
    + apply (bool_decide_unpack _). vm_compute. exact I.
    + right. left.
Defined.

(** ** What a completed traversal returns *)

Lemma mapR_ok_Forall2 {A B : Type} (f : A -> Result B) (l : list A) (l' : list B) :
  mapR f l = Ok l' -> Forall2 (fun x y => f x = Ok y) l l'.
Proof.
  revert l'. induction l as [|x l IH]; simpl; intros l' H.
  - injection H as <-. constructor.
  - destruct (f x) as [y| |] eqn:Hx; simpl in H; try discriminate.
    destruct (mapR f l) as [ys| |]; simpl in H; try discriminate.
    injection H as <-. constructor; [exact Hx|apply IH; reflexivity].
Qed.

Lemma Forall2_elem_r {A B : Type} (R : A -> B -> Prop) (l : list A) (l' : list B)
    (y : B) :
  Forall2 R l l' -> y ∈ l' -> exists x, x ∈ l /\ R x y.
Proof.
  induction 1 as [|x y' l l' Hxy _ IH]; intros Hy; [inversion Hy|].
  apply elem_of_cons in Hy as [->|Hy]; [exists x; split; [left|exact Hxy]|].
  destruct (IH Hy) as (x' & Hx' & HR). exists x'. split; [right|]; assumption.
Qed.

Lemma Forall2_elem_l {A B : Type} (R : A -> B -> Prop) (l : list A) (l' : list B)
    (x : A) :
  Forall2 R l l' -> x ∈ l -> exists y, y ∈ l' /\ R x y.
Proof.
  induction 1 as [|x' y l l' Hxy _ IH]; intros Hx; [inversion Hx|].
  apply elem_of_cons in Hx as [->|Hx]; [exists y; split; [left|exact Hxy]|].
  destruct (IH Hx) as (y' & Hy' & HR). exists y'. split; [right|]; assumption.
Qed.

Lemma Forall2_filter_same {A : Type} (R : A -> A -> Prop) (f : A -> bool)
    (l l' : list A) :
  (forall x y, R x y -> f y = f x) ->
  Forall2 R l l' -> Forall2 R (List.filter f l) (List.filter f l').
Proof.
  intros Hf. induction 1 as [|x y l l' Hxy _ IH]; simpl; [constructor|].
  rewrite (Hf x y Hxy). destruct (f x); [constructor|]; assumption.
Qed.

Lemma findR_Forall2 {A : Type} (R : A -> A -> Prop) (p : A -> Result bool)
    (l l' : list A) (x : A) :
  (forall a b, R a b -> p b = p a) ->
  Forall2 R l l' -> findR p l = Ok (Some x) ->
  exists y, findR p l' = Ok (Some y) /\ R x y.
Proof.
  intros Hp. induction 1 as [|a b l l' Hab _ IH]; simpl; [discriminate|].
  rewrite (Hp a b Hab). destruct (p a) as [[]| |]; simpl; try discriminate.
  - intros [= <-]. eauto.
  - exact IH.
Qed.

Lemma sameHead_refl (n : Node) : SameHead n n.
Proof. destruct n; simpl; tauto. Qed.

Lemma sameHead_identifier (n : Node) (declared : string) :
  SameHead n (Identifier declared) -> n = Identifier declared.
Proof. destruct n; simpl; try contradiction. congruence. Qed.

Lemma sameHead_identifier_l (n : Node) (declared : string) :
  SameHead (Identifier declared) n -> n = Identifier declared.
Proof. destruct n; simpl; try contradiction. congruence. Qed.

Lemma sameHead_import (n n' : Node) :
  SameHead n n' -> isImportDeclaration n' = isImportDeclaration n.
Proof. destruct n, n'; simpl; try contradiction; reflexivity. Qed.

Lemma sameHead_name (n n' : Node) : SameHead n n' -> prop_name n' = prop_name n.
Proof. destruct n, n'; simpl; try contradiction; congruence. Qed.

Lemma optR_ok_inv (visit : Node -> Result Node) (o o' : option Node) :
  optR visit o = Ok o' ->
  (o = None <-> o' = None) /\
  Forall2 (fun c c' => visit c = Ok c') (option_list o) (option_list o').
Proof.
  destruct o as [x|]; simpl.
  - destruct (visit x) as [y| |] eqn:Hx; simpl; try discriminate.
    intros [= <-]. split; [split; discriminate|]. repeat constructor. exact Hx.
  - intros [= <-]. split; [tauto|constructor].
Qed.

(** A traversal that completes returns a node of the same type, whose
    children are the visited children, one for one. *)
Lemma traverse_ok_structure (visit : Node -> Result Node) (n n' : Node) :
  traverse visit n = Ok n' ->
  SameHead n n' /\
  Forall2 (fun c c' => visit c = Ok c') (childNodes n) (childNodes n').
Proof.
  destruct n as [| | | | | | | | |t l| |i init|]; simpl; intros H;
    repeat match goal with
    | H : Ok _ = Ok _ |- _ => injection H as <-
    | H : bindR ?m _ = Ok _ |- _ =>
        let E := fresh "E" in destruct m eqn:E; simpl in H; try discriminate H
    | H : mapR _ _ = Ok _ |- _ => apply mapR_ok_Forall2 in H
    | H : optR _ _ = Ok _ |- _ => apply optR_ok_inv in H as [? ?]
    end;
    simpl; (split; [try tauto; try reflexivity|]);
    repeat first [assumption | apply Forall2_app | constructor].
Qed.

Section VisitResult.

Variable env : Collaborators.
Variables (protocolKey chainKey : option string) (productId fileKey : string).

Local Abbreviation name :=
  (generatedIdentifier env protocolKey productId chainKey fileKey).
Local Abbreviation visitAt fuel :=
  (visitNode env fuel protocolKey productId chainKey fileKey).
Local Abbreviation edit n :=
  (addAdapterMetadataEntry env n protocolKey productId chainKey fileKey).

Lemma edit_ok_declarator (n edited : Node) :
  edit n = Ok edited ->
  exists id callee others elements elements',
    n = declaratorOf id callee others elements /\
    edited = declaratorOf id callee others elements'.
Proof.
  intros H. pose proof H as H'. apply edit_ok_inv in H as [->|H].
  - unfold addAdapterMetadataEntry in H'.
    destruct n as [| | | | | | | | | | |id [[]|]|]; try discriminate.
    destruct arguments as [|[] others]; try discriminate.
    eexists _, _, _, _, _. split; reflexivity.
  - destruct H as (id & callee & others & elements & -> & _ & ->).
    eexists _, _, _, _, _. split; reflexivity.
Qed.

Lemma visit_same_head (fuel : nat) (n n' : Node) :
  visitAt fuel n = Ok n' -> SameHead n n'.
Proof.
  destruct fuel as [|fuel]; [discriminate|]. rewrite visitAt_S.
  destruct n as [| | | | | | | | | | |id init|];
    try (intros H; exact (proj1 (traverse_ok_structure _ _ _ H))).
  destruct id as [declared| | | | | | | | | | | |];
    try (intros [= <-]; apply sameHead_refl).
  destruct (bool_decide (declared = "MetadataFiles")).
  - destruct (edit _) as [edited| |] eqn:Hedit; cbn [bindR]; try discriminate.
    intros H. apply traverse_ok_structure in H as [Hhead _].
    apply edit_ok_declarator in Hedit
      as (id & callee & others & elements & elements' & Hn & ->).
    unfold declaratorOf in Hn. injection Hn as _ ->.
    destruct n'; simpl in Hhead |- *; try contradiction.
    destruct Hhead as [_ Hback].
    split; intros Hnone; [discriminate Hnone|discriminate (Hback Hnone)].
  - cbn [bindR]. intros H. exact (proj1 (traverse_ok_structure _ _ _ H)).
Qed.

Lemma visit_local_name (fuel : nat) (n n' : Node) :
  visitAt fuel n = Ok n' ->
  prop_local n' ≫= prop_name = prop_local n ≫= prop_name.
Proof.
  intros H. pose proof (visit_same_head _ _ _ H) as Hhead.
  destruct n as [| | | | | | | | |t l| | |];
    try (destruct n'; simpl in Hhead; try contradiction; reflexivity).
  destruct fuel as [|fuel]; [discriminate|].
  rewrite visitAt_S in H. simpl in H.
  destruct l as [x|]; simpl in H.
  - destruct (visitAt fuel x) as [x'| |] eqn:Hx; simpl in H; try discriminate.
    injection H as <-. simpl. apply sameHead_name, (visit_same_head _ _ _ Hx).
  - injection H as <-. reflexivity.
Qed.

Lemma visit_isMetadataImport (fuel : nat) (n n' : Node)
    (otherProtocolKey otherChainKey : option string)
    (otherProductId otherFileKey : string) :
  visitAt fuel n = Ok n' ->
  isMetadataImport env otherProtocolKey otherProductId otherChainKey otherFileKey n' =
  isMetadataImport env otherProtocolKey otherProductId otherChainKey otherFileKey n.
Proof.
  intros H. pose proof (visit_same_head _ _ _ H) as Hhead.
  destruct n as [| | | | | | | | | |specifiers source| |];
    try (destruct n'; simpl in Hhead; try contradiction; reflexivity).
  destruct fuel as [|fuel]; [discriminate|].
  rewrite visitAt_S in H. simpl in H.
  destruct (mapR (visitAt fuel) specifiers) as [specifiers'| |] eqn:Hmap;
    simpl in H; try discriminate.
  destruct (visitAt fuel source) as [source'| |]; simpl in H; try discriminate.
  injection H as <-. apply mapR_ok_Forall2 in Hmap.
  destruct Hmap as [|first first' rest rest' Hfirst _]; [reflexivity|].
  simpl. rewrite (visit_local_name _ _ _ Hfirst). reflexivity.
Qed.

Lemma visit_pair (fuel : nat) (n n' : Node) (other : string) :
  visitAt fuel n = Ok n' -> PairOf other n -> PairOf other n'.
Proof.
  intros H [k ->]. destruct fuel as [|fuel]; [discriminate|].
  rewrite visitAt_S in H. simpl in H.
  destruct (visitAt fuel k) as [k'| |]; simpl in H; try discriminate.
  destruct (visitAt fuel (Identifier other)) as [x'| |] eqn:Hx; simpl in H;
    try discriminate.
  injection H as <-. apply visit_same_head, sameHead_identifier_l in Hx as ->.
  exists k'. reflexivity.
Qed.

(** After the traversal of a declarator that holds a pair, the declarator
    holds a pair. *)
Lemma traverse_holds_pair (fuel : nat) (declared : string) (init : option Node)
    (n' : Node) (other : string) :
  HoldsPair other (VariableDeclarator (Identifier declared) init) ->
  traverse (visitAt fuel) (VariableDeclarator (Identifier declared) init) = Ok n' ->
  HoldsPair other n' /\ exists init', n' = VariableDeclarator (Identifier declared) init'.
Proof.
  intros (id & init0 & elements & entry & Hn & (callee & others & ->) & Hin & Hpair) H.
  injection Hn as <- ->.
  change (VariableDeclarator (Identifier declared)
            (Some (NewExpression callee (ArrayExpression elements :: others))))
    with (declaratorOf (Identifier declared) callee others elements) in H.
  rewrite traverse_declaratorOf in H.
  destruct fuel as [|[|fuel']]; try discriminate.
  destruct (visitAt (S fuel') callee) as [callee'| |]; try discriminate.
  cbn [bindR] in H.
  destruct (mapR (visitAt fuel') elements) as [elements'| |] eqn:Helements;
    try discriminate.
  cbn [bindR] in H.
  destruct (mapR (visitAt (S fuel')) others) as [others'| |]; try discriminate.
  injection H as <-. split; [|unfold declaratorOf; eauto].
  apply mapR_ok_Forall2 in Helements.
  destruct (Forall2_elem_l _ _ _ _ Helements Hin) as (entry' & Hin' & Hvisit).
  unfold HoldsPair, NewMapOfArray, declaratorOf. eexists _, _, _, entry'.
  split; [reflexivity|]. split; [eauto|]. split; [exact Hin'|].
  exact (visit_pair _ _ _ _ Hvisit Hpair).
Qed.

(** The postcondition of the traversal: every MetadataFiles declarator on
    the way in the tree it returns holds a pair for the identifier. *)
Lemma visit_result_registered (fuel : nat) :
  forall n n',
    visitAt fuel n = Ok n' ->
    forall d, ReachedFrom n' d -> MetadataFilesDeclarator d -> HoldsPair name d.
Proof.
  induction fuel as [|fuel IH]; intros n n' Hvisit d Hreach Hnamed; [discriminate|].
  assert (Hbelow : forall m, traverse (visitAt fuel) m = Ok n' ->
            forall c', c' ∈ childNodes n' -> ReachedFrom c' d -> HoldsPair name d).
  { intros m Ht c' Hc' Hcd. apply traverse_ok_structure in Ht as [_ Hchildren].
    destruct (Forall2_elem_r _ _ _ _ Hchildren Hc') as (c & _ & Hc).
    exact (IH c c' Hc d Hcd Hnamed). }
  assert (Hplain : forall m, traverse (visitAt fuel) m = Ok n' ->
            ~ MetadataFilesDeclarator m ->
            (forall i init, m = VariableDeclarator i init ->
                            exists declared, i = Identifier declared) ->
            HoldsPair name d).
  { intros m Ht Hm Hid.
    inversion Hreach as [|n0 c' d0 _ Hc' Hcd]; subst; [|exact (Hbelow m Ht c' Hc' Hcd)].
    exfalso. apply Hm. destruct Hnamed as [init' ->].
    pose proof (traverse_ok_structure _ _ _ Ht) as [Hhead Hchildren].
    destruct m; simpl in Hhead; try contradiction.
    destruct (Hid _ _ eq_refl) as [declared ->].
    simpl in Hchildren. inversion Hchildren as [|? ? ? ? Hvisit' _]; subst.
    apply visit_same_head, sameHead_identifier_l in Hvisit'. injection Hvisit' as <-.
    eexists. reflexivity. }
  rewrite visitAt_S in Hvisit.
  destruct n as [| | | | | | | | | | |id init|];
    try (apply (Hplain _ Hvisit);
         [intros [init' H]; discriminate H|intros i init' H; discriminate H]).
  destruct id as [declared| | | | | | | | | | | |];
    try (injection Hvisit as <-;
         inversion Hreach as [|n0 c' d0 Hdesc _ _]; subst;
         [destruct Hnamed as [init' H]; discriminate H
         |specialize (Hdesc _ _ eq_refl); discriminate Hdesc]).
  revert Hvisit.
  destruct (bool_decide_reflect (declared = "MetadataFiles")) as [Hsame|Hother];
    intros Hvisit.
  - subst declared.
    destruct (edit _) as [edited| |] eqn:Hedit; cbn [bindR] in Hvisit;
      try discriminate.
    pose proof (edit_ok_holds _ _ _ _ _ _ _ Hedit) as Hholds.
    apply edit_ok_declarator in Hedit
      as (id & callee & others & elements & elements' & Hn & ->).
    unfold declaratorOf in Hn. injection Hn as <- _.
    inversion Hreach as [|n0 c' d0 _ Hc' Hcd]; subst;
      [|exact (Hbelow _ Hvisit c' Hc' Hcd)].
    exact (proj1 (traverse_holds_pair _ _ _ _ _ Hholds Hvisit)).
  - cbn [bindR] in Hvisit. apply (Hplain _ Hvisit).
    + intros [init' H]. congruence.
    + intros i init' [= <- _]. eauto.
Qed.

(** The entries the traversal finds it keeps: where every MetadataFiles
    declarator on the way holds a pair for some identifier, so does every
    one in the tree the traversal returns. *)
Lemma visit_keeps_pairs (other : string) (fuel : nat) :
  forall n n',
    visitAt fuel n = Ok n' ->
    (forall d, ReachedFrom n d -> MetadataFilesDeclarator d -> HoldsPair other d) ->
    forall d', ReachedFrom n' d' -> MetadataFilesDeclarator d' -> HoldsPair other d'.
Proof.
  induction fuel as [|fuel IH]; intros n n' Hvisit Hheld d' Hreach Hnamed;
    [discriminate|].
  assert (Hstep : forall m, Descends m -> traverse (visitAt fuel) m = Ok n' ->
            (forall i init, m = VariableDeclarator i init ->
                            exists declared, i = Identifier declared) ->
            (forall d, ReachedFrom m d -> MetadataFilesDeclarator d ->
                       HoldsPair other d) ->
            HoldsPair other d').
  { intros m Hdesc Ht Hid Hm.
    pose proof (traverse_ok_structure _ _ _ Ht) as [Hhead Hchildren].
    inversion Hreach as [|n0 c' d0 _ Hc' Hcd]; subst.
    - destruct Hnamed as [init' ->].
      destruct m; simpl in Hhead; try contradiction.
      destruct (Hid _ _ eq_refl) as [declared ->].
      simpl in Hchildren. inversion Hchildren as [|? ? ? ? Hvisit' _]; subst.
      apply visit_same_head, sameHead_identifier_l in Hvisit'.
      injection Hvisit' as <-.
      refine (proj1 (traverse_holds_pair _ _ _ _ _ _ Ht)).
      apply Hm; [constructor|eexists; reflexivity].
    - destruct (Forall2_elem_r _ _ _ _ Hchildren Hc') as (c & Hc & Hcvisit).
      apply (IH c c' Hcvisit); [|exact Hcd|exact Hnamed].
      intros d Hd. apply Hm. exact (reached_below _ _ _ Hdesc Hc Hd). }
  rewrite visitAt_S in Hvisit.
  destruct n as [| | | | | | | | | | |id init|];
    try (refine (Hstep _ _ Hvisit _ Hheld);
         [apply descends_other; not_declarator|intros i init' H; discriminate H]).
  destruct id as [declared| | | | | | | | | | | |];
    try (injection Hvisit as <-; exact (Hheld d' Hreach Hnamed)).
  assert (Hid : forall i init', VariableDeclarator (Identifier declared) init =
                                VariableDeclarator i init' ->
                                exists declared0, i = Identifier declared0)
    by (intros i init' [= <- _]; eauto).
  revert Hvisit.
  destruct (bool_decide_reflect (declared = "MetadataFiles")) as [Hsame|Hother];
    intros Hvisit;
    [subst declared|exact (Hstep _ (descends_named _ _) Hvisit Hid Hheld)].
  destruct (edit _) as [edited| |] eqn:Hedit; cbn [bindR] in Hvisit; try discriminate.
  apply edit_ok_inv in Hedit
    as [->|(id & callee & others & elements & Hn & _ & ->)];
    [exact (Hstep _ (descends_named _ _) Hvisit Hid Hheld)|].
  injection Hn as <- ->.
  apply (Hstep _ (descends_named _ _) Hvisit).
  { intros i init' [= <- _]. eauto. }
  intros d Hd Hdnamed.
  destruct (reached_declarator_inv _ _ _ _ _ Hd)
    as [->|[Hbelow|[(x & Hx & Hbelow)|(o & Ho & Hbelow)]]].
  - destruct Hdnamed as [init' ->]. eauto.
  - destruct (Hheld (declaratorOf (Identifier "MetadataFiles") callee others elements))
      as (id0 & init0 & elements0 & entry & Hshape & (callee0 & others0 & ->) & Hin & Hpair);
      [constructor|eexists; reflexivity|].
    injection Hshape as <- <- <-.
    unfold HoldsPair, NewMapOfArray, declaratorOf. eexists _, _, _, entry.
    split; [reflexivity|]. split; [eauto|]. split; [|exact Hpair].
    apply (proj2 (sortByName_elem _ _)), elem_of_app. left. exact Hin.
  - apply Hheld; [exact (reached_callee _ _ _ _ _ Hbelow)|exact Hdnamed].
  - apply (proj1 (sortByName_elem _ _)), elem_of_app in Hx as [Hx|Hx].
    + apply Hheld; [exact (reached_element _ _ _ _ _ _ Hx Hbelow)|exact Hdnamed].
    + apply list_elem_of_singleton in Hx as ->. exfalso.
      destruct Hdnamed as [init' ->].
      exact (declaratorFree_reached _ _ (newEntry_free env _ _ _ _) Hbelow _ _ eq_refl).
  - apply Hheld; [exact (reached_other _ _ _ _ _ _ Ho Hbelow)|exact Hdnamed].
Qed.

End VisitResult.

(** ** What the transform returns *)

Lemma visit_ok_inv (env : Collaborators) (details : FileDetails) (ast ast' : Program) :
  visit env ast details = Ok ast' ->
  exists body1,
    importEditFor env details (body ast) = Ok body1 /\
    Forall2 (fun n n' =>
               visitNode env (fuelFor ast) (findProtocolKey env (protocolId details))
                 (productId details) (findChainKey env (chainId details))
                 (fileKey details) n = Ok n')
      body1 (body ast').
Proof.
  rewrite visit_unfold.
  destruct (importEditFor env details (body ast)) as [body1| |]; cbn [bindR];
    try discriminate.
  destruct (mapR _ body1) as [body2| |] eqn:Hmap; cbn [bindR]; try discriminate.
  intros [= <-]. exists body1. split; [reflexivity|].
  apply mapR_ok_Forall2, Hmap.
Qed.

Lemma visit_registers (env : Collaborators) (details : FileDetails) (ast ast' : Program) :
  visit env ast details = Ok ast' -> Registers env details ast'.
Proof.
  intros Hvisit. apply visit_ok_inv in Hvisit as (body1 & Hedit & Hbody). split.
  - destruct (importEdit_found _ _ _ _ Hedit) as (found & Hfind & _).
    destruct (findR_Forall2 _ _ _ _ found
                (fun a b H => visit_isMetadataImport env _ _ _ _ _ a b _ _ _ _ H)
                (Forall2_filter_same _ isImportDeclaration _ _
                   (fun a b H => sameHead_import _ _
                                   (visit_same_head env _ _ _ _ _ _ _ H)) Hbody)
                Hfind) as (found' & Hfind' & _).
    exists found'. split; [exact Hfind'|].
    apply findR_found in Hfind' as [_ Htrue].
    apply isMetadataImport_true_inv, Htrue.
  - intros d (n' & Hn' & Hreach) Hnamed.
    destruct (Forall2_elem_r _ _ _ _ Hbody Hn') as (n & _ & Hn).
    exact (visit_result_registered env _ _ _ _ _ _ _ Hn d Hreach Hnamed).
Qed.

Lemma registers_fixpoint (env : Collaborators) (details : FileDetails) (ast : Program) :
  Registers env details ast -> visit env ast details = Ok ast.
Proof.
  intros [(found & Hfind & _) Hpairs]. apply visit_registered_program; [|exact Hpairs].
  unfold importEditFor. rewrite edit_unfold, Hfind. reflexivity.
Qed.

(** X7.  The postcondition of the transform, and its idempotence.  Whenever
    [visit] completes on a tree, in the tree it returns the import lookup
    finds an import that binds the generated identifier, and every
    MetadataFiles declarator on the way of the traversal holds a pair for
    that identifier; the transform applied to the returned tree returns it
    unchanged. *)
Theorem X7_transform_registers_once (env : Collaborators) (details : FileDetails)
    (ast ast' : Program) :
  visit env ast details = Ok ast' ->
  Registers env details ast' /\ visit env ast' details = Ok ast'.
Proof.
  intros Hvisit. apply visit_registers in Hvisit.
  split; [exact Hvisit|apply registers_fixpoint, Hvisit].
Qed.

Lemma X7_transform_registers_once_witness :
  exists ast',
    visit Sample.env Sample.registered Sample.lidoStEth = Ok ast' /\
    Registers Sample.env Sample.lidoStEth ast' /\
    visit Sample.env ast' Sample.lidoStEth = Ok ast'.
Proof.
  eexists. split; [vm_compute; reflexivity|].
  apply (X7_transform_registers_once Sample.env Sample.lidoStEth Sample.registered).
  vm_compute. reflexivity.
Defined.

(** X8.  A registration that succeeds settles the registry file.  After any
    call of [addStaticImport] that completes, the registry file on disk is a
    tree that registers the key, and a second call for the same key
    completes too, writes that same tree back and leaves the whole disk as
    the first call left it. *)
Theorem X8_registration_settles (env : Collaborators) (details : FileDetails)
    (w w1 : World) :
  addStaticImport env details w = (Ok tt, w1) ->
  exists ast',
    disk w1 !! adapterMetadataFile env = Some (SourceFile ast') /\
    Registers env details ast' /\
    addStaticImport env details w1 =
      (Ok tt,
       {| disk := disk w1;
          events := events w1 ++ [Written (adapterMetadataFile env) (SourceFile ast')] |}).
Proof.
  intros Hcall.
  destruct (disk w !! adapterMetadataFile env) as [[payload|ast]|] eqn:Hfile;
    try (rewrite addStaticImport_unreadable in Hcall;
         [discriminate|intros ast; rewrite Hfile; discriminate]).
  rewrite (addStaticImport_unfold env details ast w Hfile) in Hcall.
  destruct (visit env ast details) as [ast'| |] eqn:Hvisit; try discriminate.
  injection Hcall as <-. exists ast'.
  assert (Hfile' : <[adapterMetadataFile env := SourceFile ast']> (disk w)
                     !! adapterMetadataFile env = Some (SourceFile ast'))
    by apply lookup_insert_eq.
  pose proof (visit_registers _ _ _ _ Hvisit) as Hreg.
  split; [exact Hfile'|]. split; [exact Hreg|].
  rewrite (addStaticImport_unfold env details ast'
             {| disk := <[adapterMetadataFile env := SourceFile ast']> (disk w);
                events := events w ++
                            [Written (adapterMetadataFile env) (SourceFile ast')] |}
             Hfile').
  rewrite (registers_fixpoint _ _ _ Hreg). cbn [disk events].
  rewrite insert_insert_eq. reflexivity.
Qed.

Lemma X8_registration_settles_witness :
  exists ast',
    disk (snd (addStaticImport Sample.env Sample.lidoStEth
                 (Sample.worldWith Sample.registered)))
      !! adapterMetadataFile Sample.env = Some (SourceFile ast') /\
    Registers Sample.env Sample.lidoStEth ast'.
Proof.
  destruct (X8_registration_settles Sample.env Sample.lidoStEth
              (Sample.worldWith Sample.registered)
              (snd (addStaticImport Sample.env Sample.lidoStEth
                      (Sample.worldWith Sample.registered))))
    as (ast' & Hfile & Hreg & _).
  - rewrite (addStaticImport_unfold Sample.env Sample.lidoStEth Sample.registered);
      [|apply lookup_singleton_eq].
    reflexivity.
  - exists ast'. split; assumption.
Defined.

(** ** Why the transform throws *)

Section ThrowCauses.

Variable env : Collaborators.
Variables (protocolKey chainKey : option string) (productId fileKey : string).

Local Abbreviation visitAt fuel :=
  (visitNode env fuel protocolKey productId chainKey fileKey).
Local Abbreviation edit n :=
  (addAdapterMetadataEntry env n protocolKey productId chainKey fileKey).

Lemma edit_shaped (id callee : Node) (others elements : list Node) :
  edit (declaratorOf id callee others elements) <> Throw IncorrectlyTypedMetadataFiles.
Proof.
  rewrite edit_unfold_entry.
  destruct (List.find _ elements); [discriminate|].
  destruct protocolKey; cbn [b_identifier bindR]; try discriminate.
  destruct chainKey; cbn [b_identifier bindR]; try discriminate.
  destruct (sortEntries _ entryName) as [sorted|e'|] eqn:Hsort; simpl;
    try discriminate.
  apply sortEntries_throws in Hsort as [-> _]. discriminate.
Qed.

Lemma edit_throw_cause (id : Node) (init : option Node) (e : Error) :
  edit (VariableDeclarator id init) = Throw e ->
  (e = IncorrectlyTypedMetadataFiles /\ forall elements, ~ NewMapOfArray init elements) \/
  (e = TypeError /\
   exists elements, NewMapOfArray init elements /\ ~ Forall HasSecond elements) \/
  (e = BuilderError /\ (protocolKey = None \/ chainKey = None) /\
   exists elements,
     NewMapOfArray init elements /\
     forall entry, entry ∈ elements ->
                   ~ PairOf (generatedIdentifier env protocolKey productId chainKey
                               fileKey) entry).
Proof.
  intros H.
  destruct (edit_shape env protocolKey chainKey productId fileKey
              (VariableDeclarator id init))
    as [(id' & callee & others & elements & Hn)|Hbad].
  - right. unfold declaratorOf in Hn. injection Hn as _ ->.
    pose proof H as H0.
    apply edit_throw_inv in H0 as [->|[[-> Hcause]|(-> & Hkey & Hcause)]].
    + exfalso. exact (edit_shaped id callee others elements H).
    + left. split; [reflexivity|].
      destruct Hcause as (id0 & callee0 & others0 & elements0 & Hn & Hno).
      injection Hn as _ <- <- <-. exists elements. split; [|exact Hno].
      unfold NewMapOfArray. eauto.
    + right. split; [reflexivity|]. split; [exact Hkey|].
      destruct Hcause as (id0 & callee0 & others0 & elements0 & Hn & Hno).
      injection Hn as _ <- <- <-. exists elements. split; [|exact Hno].
      unfold NewMapOfArray. eauto.
  - rewrite Hbad in H. injection H as <-. left. split; [reflexivity|].
    intros elements (callee & others & ->).
    exact (edit_shaped id callee others elements Hbad).
Qed.

Lemma entryCause_declarator (other : string) (keyless : Prop) (e : Error) (d : Node) :
  EntryCause other keyless e d -> exists id init, d = VariableDeclarator id init.
Proof.
  intros [[_ (init & -> & _)]|[[_ (init & els & -> & _)]|(_ & _ & init & els & -> & _)]];
    eauto.
Qed.

(** An error of the traversal comes from a MetadataFiles declarator on the
    way: a mistyped one, one whose array cannot be sorted, or one that
    lacks the pair of a key without a name for its protocol or chain. *)
Lemma visit_throw_cause (fuel : nat) :
  forall (n : Node) (e : Error),
    visitAt fuel n = Throw e ->
    exists d,
      ReachedFrom n d /\
      EntryCause (generatedIdentifier env protocolKey productId chainKey fileKey)
        (protocolKey = None \/ chainKey = None) e d.
Proof.
  induction fuel as [fuel IH] using lt_wf_ind. intros n e Hthrow.
  destruct fuel as [|fuel]; [discriminate|].
  assert (Hstep : Descends n -> traverse (visitAt fuel) n = Throw e ->
            exists d,
              ReachedFrom n d /\
              EntryCause (generatedIdentifier env protocolKey productId chainKey fileKey)
                (protocolKey = None \/ chainKey = None) e d).
  { intros Hdesc Ht. apply traverse_throw_inv in Ht as (c & Hc & Hcthrow).
    destruct (IH fuel (Nat.lt_succ_diag_r _) c e Hcthrow) as (d & Hd & Hcause).
    exists d. split; [exact (reached_below _ _ _ Hdesc Hc Hd)|exact Hcause]. }
  rewrite visitAt_S in Hthrow.
  destruct n as [| | | | | | | | | | |id init0|];
    try (apply Hstep; [apply descends_other; not_declarator|exact Hthrow]).
  destruct id as [declared| | | | | | | | | | | |]; try discriminate.
  revert Hthrow.
  destruct (bool_decide_reflect (declared = "MetadataFiles")) as [Hsame|Hother];
    intros Hthrow; [subst declared|apply Hstep; [apply descends_named|exact Hthrow]].
  destruct (edit _) as [edited|e'|] eqn:Hedit; try discriminate.
  - cbn [bindR] in Hthrow.
    apply edit_ok_inv in Hedit
      as [->|(id & callee & others & elements & Hn & _ & ->)];
      [apply Hstep; [apply descends_named|exact Hthrow]|].
    injection Hn as <- ->.
    rewrite traverse_declaratorOf in Hthrow.
    destruct fuel as [|[|fuel']]; try discriminate.
    destruct (visitAt (S fuel') callee) as [callee'|e1|] eqn:Hcallee;
      try discriminate.
    + cbn [bindR] in Hthrow.
      destruct (mapR (visitAt fuel') _) as [elements'|e2|] eqn:Helements;
        try discriminate.
      * cbn [bindR] in Hthrow.
        destruct (mapR (visitAt (S fuel')) others) as [others'|e3|] eqn:Hothers;
          try discriminate.
        injection Hthrow as ->.
        apply mapR_throw_inv in Hothers as (o & Ho & Hothrow).
        apply (IH (S fuel')) in Hothrow as (d & Hd & Hcause); [|lia].
        exists d. split; [exact (reached_other _ _ _ _ _ _ Ho Hd)|exact Hcause].
      * injection Hthrow as ->.
        apply mapR_throw_inv in Helements as (x & Hx & Hxthrow).
        apply (IH fuel') in Hxthrow as (d & Hd & Hcause); [|lia].
        apply (proj1 (sortByName_elem _ _)), elem_of_app in Hx as [Hx|Hx].
        -- exists d. split; [exact (reached_element _ _ _ _ _ _ Hx Hd)|exact Hcause].
        -- apply list_elem_of_singleton in Hx as ->. exfalso.
           destruct (entryCause_declarator _ _ _ _ Hcause) as (id & init & ->).
           exact (declaratorFree_reached _ _ (newEntry_free env _ _ _ _) Hd _ _ eq_refl).
    + injection Hthrow as ->.
      apply (IH (S fuel')) in Hcallee as (d & Hd & Hcause); [|lia].
      exists d. split; [exact (reached_callee _ _ _ _ _ Hd)|exact Hcause].
  - cbn [bindR] in Hthrow. injection Hthrow as ->.
    exists (VariableDeclarator (Identifier "MetadataFiles") init0).
    split; [constructor|].
    apply edit_throw_cause in Hedit
      as [[-> Hbad]|[[-> (elements & Hshape & Hno)]|(-> & Hkey & elements & Hshape & Hno)]].
    + left. split; [reflexivity|]. exists init0. auto.
    + right. left. split; [reflexivity|]. exists init0, elements. auto.
    + right. right. split; [reflexivity|]. split; [exact Hkey|].
      exists init0, elements. auto.
Qed.

End ThrowCauses.

Lemma visit_throw_program (env : Collaborators) (details : FileDetails)
    (ast : Program) (e : Error) :
  visit env ast details = Throw e -> ThrowCause env details ast e.
Proof.
  rewrite visit_unfold.
  destruct (importEditFor env details (body ast)) as [body1|e1|] eqn:Hedit;
    cbn [bindR]; try discriminate.
  - destruct (mapR _ body1) as [body2|e2|] eqn:Hmap; cbn [bindR]; try discriminate.
    intros [= <-]. apply mapR_throw_inv in Hmap as (x & Hx & Hthrow).
    apply visit_throw_cause in Hthrow as (d & Hd & Hcause).
    apply (importEdit_elements _ _ _ _ Hedit) in Hx as [Hx| ->].
    + right. exists d. split; [exists x; auto|].
      destruct Hcause as [Hcause|[Hcause|(He & Hkey & Hd')]];
        [left; exact Hcause|right; left; exact Hcause|].
      right. right. split; [exact He|]. split; [|exact Hd'].
      intros [[pk Hp] [ck Hc]]. destruct Hkey as [Hkey|Hkey]; congruence.
    + exfalso. destruct (entryCause_declarator _ _ _ _ Hcause) as (id & init & ->).
      exact (declaratorFree_reached _ _ (importFor_free env details) Hd _ _ eq_refl).
  - intros [= <-]. left. exact (edit_throws _ _ _ _ _ _ _ _ _ Hedit).
Qed.

(** X9.  Every failure of [addStaticImport] leaves the world as it was, disk
    and log, and has a cause that can be read off the registry file and the
    key: the file is not there as a source file (modelled as
    RegistryUnreadable), or it holds a tree with an import without
    specifiers (TypeError), with a mistyped MetadataFiles declarator on the
    way of the traversal (the 'Incorrectly typed' error), with a
    MetadataFiles array that holds an entry without a second element, from
    which the sort cannot read a key (TypeError), or with a well-formed
    MetadataFiles declarator on the way that lacks the pair of a key whose
    protocol or chain id has no name in its table (the Error of the node
    builder).  No other error comes out of the registration. *)
Theorem X9_registration_failure_causes (env : Collaborators) (details : FileDetails)
    (w w' : World) (e : Error) :
  addStaticImport env details w = (Throw e, w') ->
  w' = w /\
  ((e = RegistryUnreadable /\
    forall ast, disk w !! adapterMetadataFile env <> Some (SourceFile ast)) \/
   (exists ast,
      disk w !! adapterMetadataFile env = Some (SourceFile ast) /\
      ThrowCause env details ast e)).
Proof.
  intros Hcall.
  assert (Hmissing :
            (forall ast, disk w !! adapterMetadataFile env <> Some (SourceFile ast)) ->
            w' = w /\
            ((e = RegistryUnreadable /\
              forall ast, disk w !! adapterMetadataFile env <> Some (SourceFile ast)) \/
             (exists ast,
                disk w !! adapterMetadataFile env = Some (SourceFile ast) /\
                ThrowCause env details ast e))).
  { intros Hno. rewrite (addStaticImport_unreadable _ _ _ Hno) in Hcall.
    injection Hcall as <- <-. auto. }
  destruct (disk w !! adapterMetadataFile env) as [[payload|ast]|] eqn:Hfile;
    try (apply Hmissing; intros ast; discriminate).
  clear Hmissing. rewrite (addStaticImport_unfold env details ast w Hfile) in Hcall.
  destruct (visit env ast details) as [edited|e'|] eqn:Hvisit; try discriminate.
  injection Hcall as <- <-. split; [reflexivity|]. right. exists ast.
  split; [reflexivity|]. exact (visit_throw_program _ _ _ _ Hvisit).
Qed.

Lemma X9_registration_failure_causes_witness :
  snd (addStaticImport Sample.env Sample.stableDebt (Sample.worldWith Sample.mistyped)) =
  Sample.worldWith Sample.mistyped.
Proof.
  apply (X9_registration_failure_causes Sample.env Sample.stableDebt
           (Sample.worldWith Sample.mistyped) _ IncorrectlyTypedMetadataFiles).
  rewrite (addStaticImport_unfold Sample.env Sample.stableDebt Sample.mistyped);
    [|apply lookup_singleton_eq].
  reflexivity.
Defined.

(** ** What the transform keeps *)

Lemma importEdit_length (env : Collaborators) (details : FileDetails)
    (programBody body' : list Node) :
  importEditFor env details programBody = Ok body' ->
  length body' = length programBody \/ length body' = S (length programBody).
Proof.
  unfold importEditFor. rewrite edit_unfold.
  destruct (findR _ _) as [[found|]| |]; cbn [bindR]; try discriminate.
  - intros [= <-]. left. reflexivity.
  - intros [= <-]. right.
    rewrite <- (Permutation_length (filter_split_perm isImportDeclaration programBody)).
    rewrite !length_app. simpl. lia.
Qed.

(** X10.  The transform neither drops nor invents a statement.  When [visit]
    completes, the body it returns has the statements of the input and at
    most one more; every statement of the input with no MetadataFiles
    declarator on the way of the traversal is in the result, node for node
    as it was; and every statement of the result is the new import or comes
    from a statement of the input of the same type. *)
Theorem X10_transform_keeps_statements (env : Collaborators) (details : FileDetails)
    (ast ast' : Program) :
  visit env ast details = Ok ast' ->
  (length (body ast') = length (body ast) \/
   length (body ast') = S (length (body ast))) /\
  (forall n, n ∈ body ast ->
             (forall d, ReachedFrom n d -> ~ MetadataFilesDeclarator d) ->
             n ∈ body ast') /\
  (forall n', n' ∈ body ast' ->
              n' = importFor env details \/
              exists n, n ∈ body ast /\ SameHead n n').
Proof.
  intros Hvisit. apply visit_ok_inv in Hvisit as (body1 & Hedit & Hbody).
  split; [|split].
  - rewrite <- (Forall2_length _ _ _ Hbody). exact (importEdit_length _ _ _ _ Hedit).
  - intros n Hn Hnone.
    pose proof (proj1 (importEdit_elements _ _ _ _ Hedit) n Hn) as Hn1.
    destruct (Forall2_elem_l _ _ _ _ Hbody Hn1) as (n' & Hn' & Hstep).
    rewrite visit_registered in Hstep.
    + injection Hstep as <-. exact Hn'.
    + apply body_height in Hn. lia.
    + intros d Hd Hnamed. exfalso. exact (Hnone d Hd Hnamed).
  - intros n' Hn'.
    destruct (Forall2_elem_r _ _ _ _ Hbody Hn') as (n & Hn & Hstep).
    apply (importEdit_elements _ _ _ _ Hedit) in Hn as [Hn| ->].
    + right. exists n. split; [exact Hn|].
      exact (visit_same_head _ _ _ _ _ _ _ _ Hstep).
    + left. rewrite visit_declaratorFree in Hstep.
      * injection Hstep as <-. reflexivity.
      * rewrite importFor_height. unfold fuelFor. lia.
      * apply importFor_free.
Qed.

Lemma X10_transform_keeps_statements_witness :
  exists ast',
    visit Sample.env Sample.registered Sample.lidoStEth = Ok ast' /\
    (length (body ast') = length (body Sample.registered) \/
     length (body ast') = S (length (body Sample.registered))).
Proof.
  eexists. split; [vm_compute; reflexivity|].
  apply (X10_transform_keeps_statements Sample.env Sample.lidoStEth Sample.registered).
  vm_compute. reflexivity.
Defined.

(** ** Registrations accumulate *)

Lemma findR_app_some {A : Type} (p : A -> Result bool) (l1 l2 : list A) (x : A) :
  findR p l1 = Ok (Some x) -> findR p (l1 ++ l2) = Ok (Some x).
Proof.
  induction l1 as [|y l1 IH]; simpl; [discriminate|].
  destruct (p y) as [[]| |]; simpl; try discriminate; [auto|exact IH].
Qed.

Lemma importEdit_imports (env : Collaborators) (details : FileDetails)
    (programBody body' : list Node) :
  importEditFor env details programBody = Ok body' ->
  exists added,
    List.filter isImportDeclaration body' =
    List.filter isImportDeclaration programBody ++ added.
Proof.
  unfold importEditFor. rewrite edit_unfold.
  destruct (findR _ _) as [[found|]| |]; cbn [bindR]; try discriminate.
  - intros [= <-]. exists []. rewrite app_nil_r. reflexivity.
  - intros [= <-]. eexists. rewrite List.filter_app, filter_filter_same. reflexivity.
Qed.

Lemma registers_kept (env : Collaborators)
    (earlier later : FileDetails) (ast ast' : Program) :
  Registers env earlier ast ->
  visit env ast later = Ok ast' ->
  Registers env earlier ast'.
Proof.
  intros [(found & Hfind & _) Hpairs] Hvisit.
  apply visit_ok_inv in Hvisit as (body1 & Hedit & Hbody). split.
  - destruct (importEdit_imports _ _ _ _ Hedit) as [added Himports].
    apply (findR_app_some _ _ added) in Hfind. rewrite <- Himports in Hfind.
    destruct (findR_Forall2 _ _ _ _ found
                (fun a b H => visit_isMetadataImport env _ _ _ _ _ a b _ _ _ _ H)
                (Forall2_filter_same _ isImportDeclaration _ _
                   (fun a b H => sameHead_import _ _
                                   (visit_same_head env _ _ _ _ _ _ _ H)) Hbody)
                Hfind) as (found' & Hfind' & _).
    exists found'. split; [exact Hfind'|].
    apply findR_found in Hfind' as [_ Htrue].
    apply isMetadataImport_true_inv, Htrue.
  - intros d' (n' & Hn' & Hreach) Hnamed.
    destruct (Forall2_elem_r _ _ _ _ Hbody Hn') as (n & Hn & Hstep).
    apply (visit_keeps_pairs env _ _ _ _ _ _ _ _ Hstep); [|exact Hreach|exact Hnamed].
    intros d Hd Hdnamed.
    apply (importEdit_elements _ _ _ _ Hedit) in Hn as [Hn| ->].
    + apply Hpairs; [exists n; auto|exact Hdnamed].
    + exfalso. destruct Hdnamed as [init ->].
      exact (declaratorFree_reached _ _ (importFor_free env later) Hd _ _ eq_refl).
Qed.

(** X11.  Registrations accumulate.  If a tree registers one key (its import
    is found and every MetadataFiles declarator on the way holds its pair)
    and the transform completes on that tree for any other key, the tree it
    returns still registers the first key: a later registration takes no
    earlier one away. *)
Theorem X11_registrations_accumulate (env : Collaborators)
    (earlier later : FileDetails) (ast ast' : Program) :
  Registers env earlier ast ->
  visit env ast later = Ok ast' ->
  Registers env earlier ast'.
Proof.
  exact (registers_kept env earlier later ast ast').
Qed.

Lemma X11_registrations_accumulate_witness :
  exists ast',
    visit Sample.env Sample.registered Sample.lidoStEth = Ok ast' /\
    Registers Sample.env Sample.stableDebt ast'.
Proof.
  eexists. split; [vm_compute; reflexivity|].
  apply (X11_registrations_accumulate Sample.env Sample.stableDebt Sample.lidoStEth
           Sample.registered).
  - apply (visit_registers Sample.env Sample.stableDebt Sample.registered).
    vm_compute. reflexivity.
  - vm_compute. reflexivity.
Defined.

(** ** What a run of the command does, and on whose behalf *)

Lemma addStaticImport_ok_inv (env : Collaborators) (details : FileDetails)
    (w w' : World) :
  addStaticImport env details w = (Ok tt, w') ->
  exists edited,
    w' = extend w [Written (adapterMetadataFile env) (SourceFile edited)] /\
    Registers env details edited.
Proof.
  intros Hcall.
  destruct (disk w !! adapterMetadataFile env) as [[payload|ast]|] eqn:Hfile;
    try (rewrite addStaticImport_unreadable in Hcall;
         [discriminate|intros ast; rewrite Hfile; discriminate]).
  rewrite (addStaticImport_unfold env details ast w Hfile) in Hcall.
  destruct (visit env ast details) as [edited| |] eqn:Hvisit; try discriminate.
  injection Hcall as <-. exists edited.
  split; [reflexivity|exact (visit_registers _ _ _ _ Hvisit)].
Qed.

Lemma addStaticImport_throw_kind (env : Collaborators) (details : FileDetails)
    (w w' : World) (e : Error) :
  addStaticImport env details w = (Throw e, w') ->
  w' = w /\ RegistrationFailure env details e.
Proof.
  intros Hcall. unfold RegistrationFailure.
  destruct (disk w !! adapterMetadataFile env) as [[payload|ast]|] eqn:Hfile;
    try (rewrite addStaticImport_unreadable in Hcall;
         [injection Hcall as <- <-; auto|intros ast; rewrite Hfile; discriminate]).
  rewrite (addStaticImport_unfold env details ast w Hfile) in Hcall.
  destruct (visit env ast details) as [edited|e'|] eqn:Hvisit; try discriminate.
  injection Hcall as <- <-. split; [reflexivity|].
  apply visit_throw_program in Hvisit
    as [[-> _]|(d & _ & [[-> _]|[[-> _]|(-> & Hkey & _)]])]; auto.
Qed.

Lemma replay_frame (path : string) (log : list Event) (d : gmap string FileContent) :
  (forall content, Written path content ∉ log) -> replay log d !! path = d !! path.
Proof.
  revert d. induction log as [|e log IH]; intros d Hnone; [reflexivity|].
  assert (Hrest : forall content, Written path content ∉ log)
    by (intros content Hin; apply (Hnone content); right; exact Hin).
  destruct e as [| | |written content]; simpl; try (apply IH, Hrest).
  rewrite (IH _ Hrest). apply lookup_insert_ne. intros ->.
  apply (Hnone content). left.
Qed.

Lemma forOf_skip {A : Type} (l : list A) (loopBody : A -> M Control) (w : World) :
  (forall x, x ∈ l -> loopBody x w = (Ok Next, w)) ->
  forOf l loopBody w = (Ok Next, w).
Proof.
  induction l as [|x l IH]; intros Hskip; [reflexivity|].
  simpl. unfold bindM. rewrite (Hskip x) by left.
  apply IH. intros y Hy. apply Hskip. right. exact Hy.
Qed.

Section RunScope.

Variable env : Collaborators.
Variable chainProviders : Z -> bool.
Variable fetchChainProtocolAdapters : Z -> string -> list Adapter.
Variable filterProtocolIds : option (list string).
Variable filterChainIds : option (list Z).

Local Abbreviation scope :=
  (InScope env chainProviders fetchChainProtocolAdapters
     filterProtocolIds filterChainIds).
Local Abbreviation chainScope :=
  (fun chainId =>
     exists protocolId,
       ChainInScope env filterProtocolIds filterChainIds protocolId chainId).
Local Abbreviation RunLog :=
  (fun r log =>
     (forall b capability, Invoked b capability ∈ log -> scope b) /\
     (forall path content, Written path content ∈ log ->
                           OwnWrite env scope path content) /\
     RunOutcome env scope chainScope chainProviders r log).

Lemma runLog_nil : RunLog (Ok Next) [].
Proof.
  split; [|split]; [intros b c H; inversion H|intros p c H; inversion H|exact I].
Qed.

Lemma runLog_seq (l1 : list Event) (r : Result Control) (l2 : list Event) :
  RunLog (Ok Next) l1 -> RunLog r l2 -> RunLog r (l1 ++ l2).
Proof.
  intros (Hcalls1 & Hwrites1 & _) (Hcalls2 & Hwrites2 & Hout).
  split; [|split].
  - intros b c H. apply elem_of_app in H as [H|H]; eauto.
  - intros p c H. apply elem_of_app in H as [H|H]; eauto.
  - destruct r as [[]|e|]; simpl in Hout |- *; try exact Hout.
    + destruct Hout as (a & d & before & Ha & Hy & Hinvalid & ->).
      exists a, d, (l1 ++ before). rewrite <- app_assoc. auto.
    + destruct Hout as [(c & before & He & Hc & Hp & ->)|
                        [(m & a & calls & before & He & Ha & Hf & ->)|
                         (a & d & before & He & Ha & Hy & Hvalid & ->)]].
      * left. exists c, (l1 ++ before). rewrite <- app_assoc. auto.
      * right. left. exists m, a, calls, (l1 ++ before). rewrite <- app_assoc. auto.
      * right. right. exists a, d, (l1 ++ before). rewrite <- app_assoc. auto.
Qed.

Lemma invocations_no_write (a : Adapter) (path : string) (content : FileContent) :
  Written path content ∉ invocations a.
Proof.
  unfold invocations. intros H. apply elem_of_app in H as [H|H].
  - destruct (bool_decide _); [|inversion H].
    apply list_elem_of_singleton in H. discriminate.
  - destruct (adapterBuildMetadata a); [|inversion H].
    apply list_elem_of_singleton in H. discriminate.
Qed.

Lemma processAdapter_run (a : Adapter) :
  scope a -> Logs (processAdapter env a) RunLog.
Proof.
  intros Ha w.
  destruct (classify a) as [Hidle|[Hdeclines|[[d Hyields]|(message & calls & Hfails)]]].
  - exists (Ok Next), []. rewrite extend_nil.
    split; [apply processAdapter_idle, Hidle|apply runLog_nil].
  - exists (Ok Next), (invocations a).
    split; [apply processAdapter_declines, Hdeclines|].
    split; [|split]; [|intros p c H; destruct (invocations_no_write _ _ _ H)|exact I].
    intros b c H. apply invocations_of in H as ->. exact Ha.
  - rewrite (processAdapter_yields env a d w Hyields). unfold afterCalls. cbv zeta.
    destruct (bool_decide_reflect
                (0 < length (getMetadataInvalidAddresses env (metadata d))))
      as [Hinvalid|Hvalid].
    + exists (Ok Return),
        (invocations a ++
         checksumReport (getMetadataInvalidAddresses env (metadata d))).
      rewrite extend_extend. split; [reflexivity|]. split; [|split].
      * intros b c H. apply elem_of_app in H as [H|H].
        -- apply invocations_of in H as ->. exact Ha.
        -- unfold checksumReport in H.
           repeat (apply elem_of_cons in H as [H|H]; [discriminate H|]). inversion H.
      * intros p c H. apply elem_of_app in H as [H|H].
        -- destruct (invocations_no_write _ _ _ H).
        -- unfold checksumReport in H.
           repeat (apply elem_of_cons in H as [H|H]; [discriminate H|]). inversion H.
      * exists a, d, []. split; [exact Ha|]. split; [exact Hyields|].
        split; [|reflexivity]. intros Hnil. rewrite Hnil in Hinvalid.
        simpl in Hinvalid. lia.
    + assert (Hnone : getMetadataInvalidAddresses env (metadata d) = []).
      { destruct (getMetadataInvalidAddresses env (metadata d)); [reflexivity|].
        exfalso. apply Hvalid. simpl. lia. }
      rewrite extend_extend.
      destruct (addStaticImport env (fileDetails d) _) as [[[]|e|] w'] eqn:Hcall.
      * apply addStaticImport_ok_inv in Hcall as (edited & -> & Hreg).
        rewrite extend_extend.
        exists (Ok Next),
          ((invocations a ++
            [Written (artifactPath env (fileDetails d)) (JsonFile (metadata d))]) ++
           [Written (adapterMetadataFile env) (SourceFile edited)]).
        split; [reflexivity|]. split; [|split]; [| |exact I].
        -- intros b c H. apply elem_of_app in H as [H|H];
             [apply elem_of_app in H as [H|H]|].
           ++ apply invocations_of in H as ->. exact Ha.
           ++ apply list_elem_of_singleton in H. discriminate H.
           ++ apply list_elem_of_singleton in H. discriminate H.
        -- intros p c H. exists a, d. split; [exact Ha|]. split; [exact Hyields|].
           split; [exact Hnone|].
           apply elem_of_app in H as [H|H]; [apply elem_of_app in H as [H|H]|].
           ++ destruct (invocations_no_write _ _ _ H).
           ++ apply list_elem_of_singleton in H. injection H as -> ->. left. auto.
           ++ apply list_elem_of_singleton in H. injection H as -> ->. right. eauto.
      * apply addStaticImport_throw_kind in Hcall as [-> Hkind].
        exists (Throw e),
          (invocations a ++
           [Written (artifactPath env (fileDetails d)) (JsonFile (metadata d))]).
        split; [reflexivity|]. split; [|split].
        -- intros b c H. apply elem_of_app in H as [H|H].
           ++ apply invocations_of in H as ->. exact Ha.
           ++ apply list_elem_of_singleton in H. discriminate H.
        -- intros p c H. exists a, d. split; [exact Ha|]. split; [exact Hyields|].
           split; [exact Hnone|]. apply elem_of_app in H as [H|H].
           ++ destruct (invocations_no_write _ _ _ H).
           ++ apply list_elem_of_singleton in H. injection H as -> ->. left. auto.
        -- simpl. right. right. exists a, d, []. auto.
      * exfalso.
        destruct (addStaticImport_outcomes env (fileDetails d)
                    (extend w (invocations a ++
                       [Written (artifactPath env (fileDetails d))
                          (JsonFile (metadata d))])))
          as [[e He]|[edited He]]; rewrite He in Hcall; discriminate Hcall.
  - exists (Throw (AdapterError message)), calls.
    split; [apply processAdapter_fails, Hfails|]. split; [|split].
    + intros b c H. rewrite (fails_calls _ _ _ _ _ Hfails H). exact Ha.
    + intros p c H. destruct Hfails;
        repeat (apply elem_of_cons in H as [H|H]; [discriminate H|]); inversion H.
    + simpl. right. left. exists message, a, calls, []. auto.
Qed.

Lemma buildMetadata_run :
  Logs (buildMetadata env chainProviders fetchChainProtocolAdapters
          filterProtocolIds filterChainIds) RunLog.
Proof.
  unfold buildMetadata.
  apply forOf_logs; [apply runLog_nil|apply runLog_seq|].
  intros [protocolId supportedChains] Hprotocol.
  destruct (filteredOut filterProtocolIds protocolId) eqn:Hfp.
  { intros w. exists (Ok Next), []. rewrite extend_nil.
    split; [reflexivity|apply runLog_nil]. }
  apply forOf_logs; [apply runLog_nil|apply runLog_seq|]. intros chainId Hchain.
  destruct (filteredOut filterChainIds chainId) eqn:Hfc.
  { intros w. exists (Ok Next), []. rewrite extend_nil.
    split; [reflexivity|apply runLog_nil]. }
  assert (Hscope : ChainInScope env filterProtocolIds filterChainIds protocolId chainId)
    by (exists supportedChains; auto).
  destruct (chainProviders chainId) eqn:Hprovider; simpl.
  - apply forOf_logs; [apply runLog_nil|apply runLog_seq|]. intros a Ha.
    apply processAdapter_run. exists protocolId, chainId. auto.
  - intros w. exists (Throw (ProviderMissingError chainId)),
      [LoggerError chainId "No provider found for chain"].
    split; [reflexivity|]. split; [|split].
    + intros b c H. apply list_elem_of_singleton in H. discriminate H.
    + intros p c H. apply list_elem_of_singleton in H. discriminate H.
    + simpl. left. exists chainId, []. split; [reflexivity|].
      split; [eauto|]. split; [exact Hprovider|reflexivity].
Qed.

End RunScope.

(** X12.  The reach of a run.  In every run of the command, from any world,
    every call on an adapter is a call on an adapter in scope (returned by
    the controller for a supported chain of a supported protocol, neither
    filtered out, with a provider); every write is made on behalf of such an
    adapter, whose payload passed the checksum gate, and is either its
    artifact or the registry file with a tree that registers its key; and
    every file at another path is after the run as it was before. *)
Theorem X12_run_reach (env : Collaborators) (chainProviders : Z -> bool)
    (fetchChainProtocolAdapters : Z -> string -> list Adapter)
    (filterProtocolIds : option (list string)) (filterChainIds : option (list Z))
    (w : World) :
  let scope := InScope env chainProviders fetchChainProtocolAdapters
                 filterProtocolIds filterChainIds in
  exists r log,
    buildMetadata env chainProviders fetchChainProtocolAdapters
      filterProtocolIds filterChainIds w = (r, extend w log) /\
    (forall b capability, Invoked b capability ∈ log -> scope b) /\
    (forall path content, Written path content ∈ log ->
                          OwnWrite env scope path content) /\
    (forall path, (forall content, ~ OwnWrite env scope path content) ->
                  disk (extend w log) !! path = disk w !! path).
Proof.
  intros scope.
  destruct (buildMetadata_run env chainProviders fetchChainProtocolAdapters
              filterProtocolIds filterChainIds w)
    as (r & log & Hrun & Hcalls & Hwrites & _).
  exists r, log. split; [exact Hrun|]. split; [exact Hcalls|].
  split; [exact Hwrites|]. intros path Hother. simpl. apply replay_frame.
  intros content Hin. exact (Hother content (Hwrites _ _ Hin)).
Qed.

(** X13.  How a run ends.  A run of the command never runs out of depth, and
    when it does not run through it ends in one of four ways, each with its
    cause in scope and its last events: the return of the checksum gate,
    after the calls on an adapter that yields a payload with invalid
    addresses and the report; a ProviderMissingError for a chain in scope
    without provider, after the logger line; the error of a failing
    capability of an adapter, after the calls up to the failing one; or an
    error of the registration for an adapter whose payload passed the gate,
    after its artifact was written: the registry cannot be read, a
    TypeError, the error for a mistyped MetadataFiles, or the Error of the
    node builder, this last one only when the protocol or chain id of the
    payload's key has no name in its table. *)
Theorem X13_run_outcomes (env : Collaborators) (chainProviders : Z -> bool)
    (fetchChainProtocolAdapters : Z -> string -> list Adapter)
    (filterProtocolIds : option (list string)) (filterChainIds : option (list Z))
    (w : World) :
  exists r log,
    buildMetadata env chainProviders fetchChainProtocolAdapters
      filterProtocolIds filterChainIds w = (r, extend w log) /\
    RunOutcome env
      (InScope env chainProviders fetchChainProtocolAdapters
         filterProtocolIds filterChainIds)
      (fun chainId =>
         exists protocolId,
           ChainInScope env filterProtocolIds filterChainIds protocolId chainId)
      chainProviders r log.
Proof.
  destruct (buildMetadata_run env chainProviders fetchChainProtocolAdapters
              filterProtocolIds filterChainIds w)
    as (r & log & Hrun & _ & _ & Hout).
  exists r, log. split; [exact Hrun|exact Hout].
Qed.

(** X14.  Filters that leave no chain in scope make the run a no-op: when no
    supported chain of a supported protocol passes both filters (a filter
    list that names no supported protocol, say), the command returns
    normally, calls no adapter, prints nothing and leaves the world as it
    was, whatever the providers and the adapters are. *)
Theorem X14_nothing_in_scope (env : Collaborators) (chainProviders : Z -> bool)
    (fetchChainProtocolAdapters : Z -> string -> list Adapter)
    (filterProtocolIds : option (list string)) (filterChainIds : option (list Z))
    (w : World) :
  (forall protocolId chainId,
     ~ ChainInScope env filterProtocolIds filterChainIds protocolId chainId) ->
  buildMetadata env chainProviders fetchChainProtocolAdapters
    filterProtocolIds filterChainIds w = (Ok Next, w).
Proof.
  intros Hnone. unfold buildMetadata.
  apply forOf_skip. intros [protocolId supportedChains] Hprotocol.
  destruct (filteredOut filterProtocolIds protocolId) eqn:Hfp; [reflexivity|].
  apply forOf_skip. intros chainId Hchain.
  destruct (filteredOut filterChainIds chainId) eqn:Hfc; [reflexivity|].
  exfalso. apply (Hnone protocolId chainId). exists supportedChains. auto.
Qed.

Lemma X14_nothing_in_scope_witness :
  buildMetadata Sample.env (fun _ => false)
    (Sample.adaptersOf [Sample.goodAdapter] []) (Some ["no-such-protocol"]) None
    (Sample.worldWith Sample.registry) =
  (Ok Next, Sample.worldWith Sample.registry).
Proof.
  apply X14_nothing_in_scope.
  intros protocolId chainId (supportedChains & Hin & Hfilter & _).
  vm_compute in Hin.
  repeat (apply elem_of_cons in Hin as [Hin|Hin];
          [injection Hin as -> _; vm_compute in Hfilter; discriminate Hfilter|]).
  inversion Hin.
Defined.

(** ** A complete run settles the disk *)

Ltac adapter_cases :=
  try congruence;
  try (exfalso;
       match goal with
       | H : forall m, getProtocolTokens _ <> Rejects (OtherRejection m) |- _ =>
           eapply H; eassumption
       end).

Lemma yields_unique (a : Adapter) (d d' : MetadataDetails) :
  Yields a d -> Yields a d' -> d = d'.
Proof. intros [] []; adapter_cases. Qed.

Lemma yields_not_fails (a : Adapter) (d : MetadataDetails) (message : string)
    (calls : list Event) :
  Yields a d -> ~ FailsWith a message calls.
Proof. intros [] []; adapter_cases. Qed.

Lemma declines_not_fails (a : Adapter) (message : string) (calls : list Event) :
  Declines a -> ~ FailsWith a message calls.
Proof. intros [] []; adapter_cases. Qed.

Lemma declines_not_yields (a : Adapter) (d : MetadataDetails) :
  Declines a -> ~ Yields a d.
Proof. intros [] []; adapter_cases. Qed.

Lemma idle_not_fails (a : Adapter) (message : string) (calls : list Event) :
  Idle a -> ~ FailsWith a message calls.
Proof. intros [? ?] []; adapter_cases. Qed.

Lemma idle_not_yields (a : Adapter) (d : MetadataDetails) :
  Idle a -> ~ Yields a d.
Proof. intros [? ?] []; adapter_cases. Qed.

Lemma addStaticImport_ok_visit (env : Collaborators) (details : FileDetails)
    (w w' : World) :
  addStaticImport env details w = (Ok tt, w') ->
  exists ast edited,
    disk w !! adapterMetadataFile env = Some (SourceFile ast) /\
    visit env ast details = Ok edited /\
    w' = extend w [Written (adapterMetadataFile env) (SourceFile edited)].
Proof.
  intros Hcall.
  destruct (disk w !! adapterMetadataFile env) as [[payload|ast]|] eqn:Hfile;
    try (rewrite addStaticImport_unreadable in Hcall;
         [discriminate|intros ast; rewrite Hfile; discriminate]).
  rewrite (addStaticImport_unfold env details ast w Hfile) in Hcall.
  destruct (visit env ast details) as [edited| |] eqn:Hvisit; try discriminate.
  injection Hcall as <-. exists ast, edited. auto.
Qed.

Lemma forOf_collect {A I : Type} (S : A -> I -> Prop) (D : I -> World -> Prop)
    (R : World -> World -> Prop) (l : list A) (loopBody : A -> M Control) :
  (forall w, R w w) ->
  (forall w1 w2 w3, R w1 w2 -> R w2 w3 -> R w1 w3) ->
  (forall i w w', R w w' -> D i w -> D i w') ->
  (forall x, x ∈ l ->
     forall w w', loopBody x w = (Ok Next, w') ->
                  (forall i, S x i -> D i w') /\ R w w') ->
  forall w w',
    forOf l loopBody w = (Ok Next, w') ->
    (forall x i, x ∈ l -> S x i -> D i w') /\ R w w'.
Proof.
  intros Hrefl Htrans Hkeep. induction l as [|x l IH]; intros Hbody w w' Hrun.
  - injection Hrun as <-. split; [intros x i Hx; inversion Hx|apply Hrefl].
  - simpl in Hrun. unfold bindM in Hrun.
    destruct (loopBody x w) as [[[]| |] w1] eqn:Hx; try discriminate.
    destruct (Hbody x (list_elem_of_here _ _) w w1 Hx) as [Hdone Hstep].
    destruct (IH (fun y Hy => Hbody y (list_elem_of_further _ _ _ Hy)) w1 w' Hrun)
      as [Hrest Hsteps].
    split; [|exact (Htrans _ _ _ Hstep Hsteps)].
    intros y i Hy Hi. apply elem_of_cons in Hy as [->|Hy]; [|exact (Hrest y i Hy Hi)].
    exact (Hkeep i w1 w' Hsteps (Hdone i Hi)).
Qed.

Lemma forOf_stable {A : Type} (l : list A) (loopBody : A -> M Control) (w : World) :
  (forall x, x ∈ l ->
     forall w0, disk w0 = disk w ->
                exists w', loopBody x w0 = (Ok Next, w') /\ disk w' = disk w0) ->
  exists w', forOf l loopBody w = (Ok Next, w') /\ disk w' = disk w.
Proof.
  intros Hbody.
  assert (Hgen : forall w0, disk w0 = disk w ->
            exists w', forOf l loopBody w0 = (Ok Next, w') /\ disk w' = disk w0);
    [|exact (Hgen w eq_refl)].
  induction l as [|x l IH]; intros w0 Hw0.
  - exists w0. split; reflexivity.
  - destruct (Hbody x (list_elem_of_here _ _) w0 Hw0) as (w1 & Hx & Hdisk1).
    destruct (IH (fun y Hy => Hbody y (list_elem_of_further _ _ _ Hy)) w1)
      as (w' & Hrest & Hdisk'); [congruence|].
    exists w'. simpl. unfold bindM. rewrite Hx. split; [exact Hrest|congruence].
Qed.

Section Settling.

Variable env : Collaborators.
Variable chainProviders : Z -> bool.
Variable fetchChainProtocolAdapters : Z -> string -> list Adapter.
Variable filterProtocolIds : option (list string).
Variable filterChainIds : option (list Z).

Local Abbreviation scope :=
  (InScope env chainProviders fetchChainProtocolAdapters
     filterProtocolIds filterChainIds).
Local Abbreviation DoneAt :=
  (fun a (w : World) => scope a -> Done env a (disk w)).
Local Abbreviation Keeps :=
  (fun (w w' : World) => forall a, DoneAt a w -> DoneAt a w').

(** A step on a disk where the adapter is done: it completes and the disk
    is as it was. *)
Lemma processAdapter_settled (b : Adapter) (w : World) :
  Done env b (disk w) ->
  exists w', processAdapter env b w = (Ok Next, w') /\ disk w' = disk w.
Proof.
  intros [Hnofail Hdone].
  destruct (classify b) as [Hidle|[Hdeclines|[[d Hyields]|(message & calls & Hfails)]]].
  - exists w. split; [apply processAdapter_idle, Hidle|reflexivity].
  - exists (extend w (invocations b)).
    split; [apply processAdapter_declines, Hdeclines|apply replay_invocations].
  - destruct (Hdone d Hyields) as (Hvalid & Hpath & Hartifact & ast & Hfile & Hreg).
    rewrite (processAdapter_yields env b d w Hyields). unfold afterCalls. cbv zeta.
    rewrite Hvalid. rewrite bool_decide_eq_false_2 by (simpl; lia).
    rewrite extend_extend.
    assert (Hdisk : disk (extend w (invocations b ++
                       [Written (artifactPath env (fileDetails d))
                          (JsonFile (metadata d))])) = disk w).
    { simpl. rewrite replay_app, replay_invocations. simpl.
      apply insert_id, Hartifact. }
    rewrite (addStaticImport_unfold env (fileDetails d) ast);
      [|rewrite Hdisk; exact Hfile].
    rewrite (registers_fixpoint _ _ _ Hreg). eexists. split; [reflexivity|].
    cbn [disk]. rewrite Hdisk. apply insert_id, Hfile.
  - destruct (Hnofail _ _ Hfails).
Qed.

(** A step that completes: the adapter is done on the disk it leaves, and
    the adapters that were done still are. *)
Lemma processAdapter_done (b : Adapter) (w w' : World) :
  PathsAgree env scope -> scope b ->
  processAdapter env b w = (Ok Next, w') ->
  Done env b (disk w') /\ Keeps w w'.
Proof.
  intros Hagree Hb Hstep.
  destruct (classify b) as [Hidle|[Hdeclines|[[d Hyields]|(message & calls & Hfails)]]].
  - rewrite (processAdapter_idle env b w Hidle) in Hstep. injection Hstep as <-.
    split; [|intros a Ha; exact Ha]. split.
    + intros message calls. apply idle_not_fails, Hidle.
    + intros d Hd. destruct (idle_not_yields _ _ Hidle Hd).
  - rewrite (processAdapter_declines env b w Hdeclines) in Hstep.
    injection Hstep as <-. simpl. rewrite replay_invocations.
    split; [|intros a Ha; exact Ha]. split.
    + intros message calls. apply declines_not_fails, Hdeclines.
    + intros d Hd. destruct (declines_not_yields _ _ Hdeclines Hd).
  - rewrite (processAdapter_yields env b d w Hyields) in Hstep.
    unfold afterCalls in Hstep. cbv zeta in Hstep.
    destruct (bool_decide_reflect
                (0 < length (getMetadataInvalidAddresses env (metadata d))))
      as [Hinvalid|Hvalid]; [discriminate|].
    assert (Hnone : getMetadataInvalidAddresses env (metadata d) = []).
    { destruct (getMetadataInvalidAddresses env (metadata d)); [reflexivity|].
      exfalso. apply Hvalid. simpl. lia. }
    rewrite extend_extend in Hstep.
    destruct (addStaticImport env (fileDetails d) _) as [[[]| |] w1] eqn:Hcall;
      try discriminate.
    injection Hstep as <-.
    apply addStaticImport_ok_visit in Hcall as (ast & edited & Hfile & Hvisit & ->).
    simpl in Hfile. rewrite replay_app, replay_invocations in Hfile. simpl in Hfile.
    assert (Hpath : artifactPath env (fileDetails d) <> adapterMetadataFile env).
    { intros Heq. rewrite Heq, lookup_insert_eq in Hfile. discriminate. }
    rewrite lookup_insert_ne in Hfile by exact Hpath.
    assert (Hdisk : disk (extend (extend w (invocations b ++
                       [Written (artifactPath env (fileDetails d))
                          (JsonFile (metadata d))]))
                     [Written (adapterMetadataFile env) (SourceFile edited)]) =
                    <[adapterMetadataFile env := SourceFile edited]>
                      (<[artifactPath env (fileDetails d) := JsonFile (metadata d)]>
                         (disk w))).
    { simpl. rewrite replay_app, replay_invocations. reflexivity. }
    rewrite Hdisk. split.
    + split; [intros message calls; exact (yields_not_fails _ _ _ _ Hyields)|].
      intros d' Hd'. rewrite <- (yields_unique _ _ _ Hyields Hd').
      split; [exact Hnone|]. split; [exact Hpath|]. split.
      * rewrite lookup_insert_ne by (intros Heq; exact (Hpath (eq_sym Heq))).
        apply lookup_insert_eq.
      * exists edited. split; [apply lookup_insert_eq|].
        exact (visit_registers _ _ _ _ Hvisit).
    + intros a Hdone Ha. destruct (Hdone Ha) as [Hnofail Hyield].
      split; [exact Hnofail|]. intros da Hda.
      destruct (Hyield da Hda) as (Hvalida & Hpatha & Hartifact & ast' & Hfile' & Hreg).
      split; [exact Hvalida|]. split; [exact Hpatha|]. split.
      * rewrite lookup_insert_ne by (intros Heq; exact (Hpatha (eq_sym Heq))).
        destruct (decide (artifactPath env (fileDetails d) =
                          artifactPath env (fileDetails da))) as [Hsame|Hdiff].
        -- rewrite Hsame, lookup_insert_eq.
           rewrite (Hagree a b da d Ha Hb Hda Hyields (eq_sym Hsame)). reflexivity.
        -- rewrite lookup_insert_ne by exact Hdiff. exact Hartifact.
      * exists edited. split; [apply lookup_insert_eq|].
        assert (ast' = ast) as -> by congruence.
        exact (registers_kept _ _ _ _ _ Hreg Hvisit).
  - rewrite (processAdapter_fails env b message calls w Hfails) in Hstep.
    discriminate.
Qed.

Lemma buildMetadata_settled (w : World) :
  Settled env chainProviders fetchChainProtocolAdapters
    filterProtocolIds filterChainIds (disk w) ->
  exists w',
    buildMetadata env chainProviders fetchChainProtocolAdapters
      filterProtocolIds filterChainIds w = (Ok Next, w') /\
    disk w' = disk w.
Proof.
  intros [Hproviders Hdone]. unfold buildMetadata.
  apply forOf_stable. intros [protocolId supportedChains] Hprotocol w0 Hw0.
  destruct (filteredOut filterProtocolIds protocolId) eqn:Hfp;
    [exists w0; split; reflexivity|].
  apply forOf_stable. intros chainId Hchain w1 Hw1.
  destruct (filteredOut filterChainIds chainId) eqn:Hfc;
    [exists w1; split; reflexivity|].
  assert (Hscope : ChainInScope env filterProtocolIds filterChainIds protocolId chainId)
    by (exists supportedChains; auto).
  rewrite (Hproviders _ _ Hscope). simpl.
  apply forOf_stable. intros a Ha w2 Hw2. apply processAdapter_settled.
  rewrite Hw2, Hw1, Hw0. apply Hdone. exists protocolId, chainId.
  split; [exact Hscope|]. split; [exact (Hproviders _ _ Hscope)|exact Ha].
Qed.

Lemma buildMetadata_settles (w w1 : World) :
  PathsAgree env scope ->
  buildMetadata env chainProviders fetchChainProtocolAdapters
    filterProtocolIds filterChainIds w = (Ok Next, w1) ->
  Settled env chainProviders fetchChainProtocolAdapters
    filterProtocolIds filterChainIds (disk w1).
Proof.
  intros Hagree Hrun. unfold buildMetadata in Hrun.
  apply (forOf_collect
           (fun (entry : string * list Z) (i : string * Z) =>
              fst i = fst entry /\
              ChainInScope env filterProtocolIds filterChainIds (fst i) (snd i) /\
              snd i ∈ snd entry)
           (fun i w0 =>
              chainProviders (snd i) = true /\
              forall a, a ∈ fetchChainProtocolAdapters (snd i) (fst i) -> DoneAt a w0)
           Keeps) in Hrun.
  - destruct Hrun as [Hall _]. split.
    + intros protocolId chainId Hscope.
      pose proof Hscope as (supportedChains & Hin & _ & Hchain & _).
      exact (proj1 (Hall (protocolId, supportedChains) (protocolId, chainId) Hin
                      (conj eq_refl (conj Hscope Hchain)))).
    + intros a Ha. pose proof Ha as (protocolId & chainId & Hscope & _ & Hin).
      pose proof Hscope as (supportedChains & Hentry & _ & Hchain & _).
      exact (proj2 (Hall (protocolId, supportedChains) (protocolId, chainId) Hentry
                      (conj eq_refl (conj Hscope Hchain))) a Hin Ha).
  - intros w0 a Ha. exact Ha.
  - intros w2 w3 w4 H23 H34 a Ha. exact (H34 a (H23 a Ha)).
  - intros i w2 w3 Hkeep [Hprovider Hdone]. split; [exact Hprovider|].
    intros a Ha. exact (Hkeep a (Hdone a Ha)).
  - intros [protocolId supportedChains] Hentry w2 w3 Hbody.
    destruct (filteredOut filterProtocolIds protocolId) eqn:Hfp.
    { injection Hbody as <-. split; [|intros a Ha; exact Ha].
      intros [p c] (Hp & (chains & _ & Hfilter & _) & _). simpl in Hp, Hfilter.
      subst p. congruence. }
    apply (forOf_collect
             (fun (chainId : Z) (i : string * Z) =>
                i = (protocolId, chainId) /\ filteredOut filterChainIds chainId = false)
             (fun i w0 =>
                chainProviders (snd i) = true /\
                forall a, a ∈ fetchChainProtocolAdapters (snd i) (fst i) -> DoneAt a w0)
             Keeps) in Hbody.
    + destruct Hbody as [Hall Hkeep]. split; [|exact Hkeep].
      intros [p c] (Hp & Hscope & Hchain). simpl in Hp, Hscope, Hchain. subst p.
      apply (Hall c (protocolId, c) Hchain). split; [reflexivity|].
      destruct Hscope as (chains & _ & _ & _ & Hfc). exact Hfc.
    + intros w0 a Ha. exact Ha.
    + intros w4 w5 w6 H45 H56 a Ha. exact (H56 a (H45 a Ha)).
    + intros i w4 w5 Hkeep [Hprovider Hdone]. split; [exact Hprovider|].
      intros a Ha. exact (Hkeep a (Hdone a Ha)).
    + intros chainId Hchain w4 w5 Hinner.
      destruct (filteredOut filterChainIds chainId) eqn:Hfc.
      { injection Hinner as <-. split; [|intros a Ha; exact Ha].
        intros i [_ Hno]. congruence. }
      destruct (chainProviders chainId) eqn:Hprovider; simpl in Hinner;
        [|discriminate].
      assert (Hscope : forall a, a ∈ fetchChainProtocolAdapters chainId protocolId ->
                                 scope a).
      { intros a Ha. exists protocolId, chainId. split; [|auto].
        exists supportedChains. auto. }
      apply (forOf_collect (fun (b a : Adapter) => a = b) DoneAt Keeps) in Hinner.
      * destruct Hinner as [Hall Hkeep]. split; [|exact Hkeep].
        intros i [-> _]. simpl. split; [exact Hprovider|].
        intros a Ha. exact (Hall a a Ha eq_refl).
      * intros w0 a Ha. exact Ha.
      * intros w6 w7 w8 H67 H78 a Ha. exact (H78 a (H67 a Ha)).
      * intros a w6 w7 Hkeep Ha. exact (Hkeep a Ha).
      * intros b Hb w6 w7 Hstep.
        destruct (processAdapter_done b w6 w7 Hagree (Hscope b Hb) Hstep)
          as [Hdone Hkeep].
        split; [|exact Hkeep]. intros a -> _. exact Hdone.
Qed.

End Settling.

(** X15.  A settled disk is a fixed point of the command.  When every chain
    in scope has a provider and every adapter in scope is done on the disk
    (none of its capabilities fails, and if it yields a payload, the payload
    passes the checksum gate, its artifact is on the disk with that payload,
    and the registry file registers its key), the run completes normally and
    leaves the disk exactly as it was: every write it makes restores what
    was there. *)
Theorem X15_settled_disk_is_fixed (env : Collaborators) (chainProviders : Z -> bool)
    (fetchChainProtocolAdapters : Z -> string -> list Adapter)
    (filterProtocolIds : option (list string)) (filterChainIds : option (list Z))
    (w : World) :
  Settled env chainProviders fetchChainProtocolAdapters
    filterProtocolIds filterChainIds (disk w) ->
  exists w',
    buildMetadata env chainProviders fetchChainProtocolAdapters
      filterProtocolIds filterChainIds w = (Ok Next, w') /\
    disk w' = disk w.
Proof. apply buildMetadata_settled. Qed.

Lemma sample_scope (aave lido : list Adapter) (a : Adapter) :
  InScope Sample.env Sample.allProviders (Sample.adaptersOf aave lido) None None a ->
  a ∈ aave \/ a ∈ lido.
Proof.
  intros (protocolId & chainId & _ & _ & Hin). unfold Sample.adaptersOf in Hin.
  destruct (bool_decide _); [left; exact Hin|].
  destruct (bool_decide _); [right; exact Hin|inversion Hin].
Qed.

Lemma sample_yields (details : FileDetails) (d : MetadataDetails) :
  Yields (Sample.adapterWith
            (Resolves {| metadata := Sample.checksummed; fileDetails := details |})) d ->
  d = {| metadata := Sample.checksummed; fileDetails := details |}.
Proof.
  intros Hd. symmetry. refine (yields_unique _ _ _ _ Hd).
  apply yields_tokens; reflexivity.
Qed.

Lemma X15_settled_disk_is_fixed_witness :
  let w :=
    {| disk := <[artifactPath Sample.env Sample.stableDebt :=
                   JsonFile Sample.checksummed]>
                 {[ adapterMetadataFile Sample.env := SourceFile Sample.registered ]};
       events := [] |} in
  exists w',
    buildMetadata Sample.env Sample.allProviders
      (Sample.adaptersOf [Sample.goodAdapter] []) None None w = (Ok Next, w') /\
    disk w' = disk w.
Proof.
  intros w.
  apply (X15_settled_disk_is_fixed Sample.env Sample.allProviders
           (Sample.adaptersOf [Sample.goodAdapter] []) None None w).
  split; [reflexivity|]. intros a Ha.
  apply sample_scope in Ha as [Ha|Ha]; [|inversion Ha].
  apply list_elem_of_singleton in Ha as ->. split.
  - intros message calls Hfails. inversion Hfails; discriminate.
  - intros d Hd. apply sample_yields in Hd as ->. subst w.
    cbn [metadata fileDetails disk].
    split; [reflexivity|]. split; [vm_compute; discriminate|].
    split; [apply lookup_insert_eq|]. exists Sample.registered. split.
    + rewrite lookup_insert_ne by (vm_compute; discriminate).
      apply lookup_singleton_eq.
    + apply (visit_registers Sample.env Sample.stableDebt Sample.registered).
      vm_compute. reflexivity.
Defined.

(** X16.  A complete run settles the disk.  When no two adapters in scope
    write different payloads to one artifact path, a run that completes
    normally leaves a settled disk: every chain in scope has a provider, and
    for every adapter in scope that yields a payload the artifact is on the
    disk and the registry file registers its key, the registrations made
    later in the run having kept the earlier ones.  Hence a second run with
    the same adapter outputs completes too and leaves the disk of the first
    run exactly as it is. *)
Theorem X16_complete_run_settles (env : Collaborators) (chainProviders : Z -> bool)
    (fetchChainProtocolAdapters : Z -> string -> list Adapter)
    (filterProtocolIds : option (list string)) (filterChainIds : option (list Z))
    (w w1 : World) :
  PathsAgree env
    (InScope env chainProviders fetchChainProtocolAdapters
       filterProtocolIds filterChainIds) ->
  buildMetadata env chainProviders fetchChainProtocolAdapters
    filterProtocolIds filterChainIds w = (Ok Next, w1) ->
  Settled env chainProviders fetchChainProtocolAdapters
    filterProtocolIds filterChainIds (disk w1) /\
  exists w2,
    buildMetadata env chainProviders fetchChainProtocolAdapters
      filterProtocolIds filterChainIds w1 = (Ok Next, w2) /\
    disk w2 = disk w1.
Proof.
  intros Hagree Hrun.
  pose proof (buildMetadata_settles _ _ _ _ _ _ _ Hagree Hrun) as Hsettled.
  split; [exact Hsettled|]. apply buildMetadata_settled, Hsettled.
Qed.

Lemma X16_complete_run_settles_witness :
  let run :=
    buildMetadata Sample.env Sample.allProviders
      (Sample.adaptersOf [Sample.silentAdapter; Sample.goodAdapter]
         [Sample.lidoAdapter])
      None None in
  exists w2,
    run (snd (run (Sample.worldWith Sample.registry))) = (Ok Next, w2) /\
    disk w2 = disk (snd (run (Sample.worldWith Sample.registry))).
Proof.
  intros run.
  apply (X16_complete_run_settles Sample.env Sample.allProviders
           (Sample.adaptersOf [Sample.silentAdapter; Sample.goodAdapter]
              [Sample.lidoAdapter])
           None None (Sample.worldWith Sample.registry)).
  - intros a b da db Ha Hb Hda Hdb _.
    assert (Hpayload : forall x dx,
              InScope Sample.env Sample.allProviders
                (Sample.adaptersOf [Sample.silentAdapter; Sample.goodAdapter]
                   [Sample.lidoAdapter]) None None x ->
              Yields x dx -> metadata dx = Sample.checksummed).
    { intros x dx Hx Hdx. apply sample_scope in Hx as [Hx|Hx].
      - apply elem_of_cons in Hx as [->|Hx].
        + exfalso. refine (declines_not_yields _ _ _ Hdx).
          apply declines_tokens; reflexivity.
        + apply list_elem_of_singleton in Hx as ->.
          apply sample_yields in Hdx as ->. reflexivity.
      - apply list_elem_of_singleton in Hx as ->.
        apply sample_yields in Hdx as ->. reflexivity. }
    rewrite (Hpayload a da Ha Hda), (Hpayload b db Hb Hdb). reflexivity.
  - apply injective_projections; [vm_compute; reflexivity|reflexivity].
Defined.

(** ** The registry is keyed by the generated identifier *)

Lemma findR_ext {A : Type} (p q : A -> Result bool) (l : list A) :
  (forall x, p x = q x) -> findR p l = findR q l.
Proof.
  intros Hext. induction l as [|x l IH]; simpl; [reflexivity|].
  rewrite (Hext x), IH. reflexivity.
Qed.

(** X17.  The registry is keyed by the generated identifier alone.  When two
    keys have the same generated identifier (two product ids with the same
    PascalCase form, say) and a tree registers the first, the tree counts as
    registering the second as well: the transform for the second key returns
    the tree unchanged, so neither its import, which would point to another
    artifact, nor its pair is ever added. *)
Theorem X17_registry_keyed_by_identifier (env : Collaborators)
    (first second : FileDetails) (ast : Program) :
  identifierOf env first = identifierOf env second ->
  Registers env first ast ->
  Registers env second ast /\ visit env ast second = Ok ast.
Proof.
  intros Hsame Hreg.
  assert (Hsecond : Registers env second ast).
  { destruct Hreg as [(found & Hfind & Himported) Hpairs]. split.
    - exists found. rewrite <- Hsame. split; [|exact Himported].
      rewrite <- Hfind. apply findR_ext. intros n.
      unfold isMetadataImport. unfold identifierOf, generatedIdentifier in Hsame.
      rewrite Hsame. reflexivity.
    - rewrite <- Hsame. exact Hpairs. }
  split; [exact Hsecond|apply registers_fixpoint, Hsecond].
Qed.

Lemma X17_registry_keyed_by_identifier_witness :
  Sample.lowerKey <> Sample.upperKey /\
  exists ast',
    visit Sample.env Sample.registry Sample.lowerKey = Ok ast' /\
    visit Sample.env ast' Sample.upperKey = Ok ast'.
Proof.
  split; [discriminate|]. eexists. split; [vm_compute; reflexivity|].
  apply (X17_registry_keyed_by_identifier Sample.env Sample.lowerKey Sample.upperKey).
  - vm_compute. reflexivity.
  - apply (visit_registers Sample.env Sample.lowerKey Sample.registry).
    vm_compute. reflexivity.
Defined.

(** ** The order of the calls *)

Lemma flat_map_nested {A B C : Type} (f : A -> list B) (g : B -> list C)
    (l : list A) :
  flat_map g (flat_map f l) = flat_map (fun x => flat_map g (f x)) l.
Proof.
  induction l as [|x l IH]; simpl; [reflexivity|].
  rewrite flat_map_app, IH. reflexivity.
Qed.

Lemma callsOf_app (l1 l2 : list Event) : callsOf (l1 ++ l2) = callsOf l1 ++ callsOf l2.
Proof. apply List.filter_app. Qed.

Lemma callsOf_invocations (a : Adapter) : callsOf (invocations a) = invocations a.
Proof.
  unfold invocations.
  destruct (bool_decide _), (adapterBuildMetadata a); reflexivity.
Qed.

Lemma forOf_calls {A : Type} (f : A -> list Event) (l : list A)
    (loopBody : A -> M Control) :
  (forall x, x ∈ l ->
     Logs (loopBody x)
       (fun r log => callsOf log `prefix_of` f x /\
                     (r = Ok Next -> callsOf log = f x))) ->
  Logs (forOf l loopBody)
    (fun r log => callsOf log `prefix_of` flat_map f l /\
                  (r = Ok Next -> callsOf log = flat_map f l)).
Proof.
  induction l as [|x l IH]; intros Hbody w.
  - exists (Ok Next), []. rewrite extend_nil. split; [reflexivity|].
    split; [reflexivity|auto].
  - destruct (Hbody x (list_elem_of_here _ _) w) as (r1 & l1 & Hx & Hprefix & Hall).
    simpl. unfold bindM. rewrite Hx.
    destruct r1 as [[]| |];
      try (eexists _, l1; split; [reflexivity|];
           split; [apply prefix_app_r, Hprefix|discriminate]).
    destruct (IH (fun y Hy => Hbody y (list_elem_of_further _ _ _ Hy)) (extend w l1))
      as (r2 & l2 & Hrest & Hprefix2 & Hall2).
    exists r2, (l1 ++ l2). rewrite Hrest, extend_extend. split; [reflexivity|].
    rewrite callsOf_app, (Hall eq_refl). split.
    + apply prefix_app, Hprefix2.
    + intros Hr. rewrite (Hall2 Hr). reflexivity.
Qed.

Lemma processAdapter_calls (env : Collaborators) (a : Adapter) :
  Logs (processAdapter env a)
    (fun r log => callsOf log `prefix_of` invocations a /\
                  (r = Ok Next -> callsOf log = invocations a)).
Proof.
  intros w.
  destruct (classify a) as [Hidle|[Hdeclines|[[d Hyields]|(message & calls & Hfails)]]].
  - exists (Ok Next), []. rewrite extend_nil.
    split; [apply processAdapter_idle, Hidle|].
    destruct Hidle as [Hversion Hbuild]. unfold invocations.
    rewrite bool_decide_eq_false_2 by exact Hversion. rewrite Hbuild.
    split; [reflexivity|auto].
  - exists (Ok Next), (invocations a).
    split; [apply processAdapter_declines, Hdeclines|].
    rewrite callsOf_invocations. split; [reflexivity|auto].
  - rewrite (processAdapter_yields env a d w Hyields). unfold afterCalls. cbv zeta.
    destruct (bool_decide _).
    + eexists _, (invocations a ++ _). rewrite extend_extend. split; [reflexivity|].
      rewrite callsOf_app, callsOf_invocations. simpl. rewrite app_nil_r.
      split; [reflexivity|auto].
    + destruct (addStaticImport_extend env (fileDetails d)
                  (extend (extend w (invocations a))
                     [Written (artifactPath env (fileDetails d)) (JsonFile (metadata d))]))
        as (r & log & -> & _ & Hlog).
      rewrite !extend_extend.
      exists (match r with Ok _ => Ok Next | Throw e => Throw e | Exhausted => Exhausted end).
      exists ((invocations a ++
               [Written (artifactPath env (fileDetails d)) (JsonFile (metadata d))]) ++ log).
      split; [rewrite <- app_assoc; destruct r; reflexivity|].
      rewrite !callsOf_app, callsOf_invocations.
      assert (Hnone : callsOf log = [])
        by (destruct Hlog as [[_ ->]|[_ [edited ->]]]; reflexivity).
      rewrite Hnone. simpl. rewrite !app_nil_r. split; [reflexivity|auto].
  - exists (Throw (AdapterError message)), calls.
    split; [apply processAdapter_fails, Hfails|]. split; [|discriminate].
    destruct Hfails as [Hversion Htokens|Hversion Hbuild|Hversion Htokens Hbuild];
      unfold invocations.
    + rewrite bool_decide_eq_true_2 by exact Hversion. apply prefix_app_r. reflexivity.
    + rewrite bool_decide_eq_false_2 by exact Hversion. rewrite Hbuild. reflexivity.
    + rewrite bool_decide_eq_true_2 by exact Hversion. rewrite Hbuild. reflexivity.
Qed.

(** X18.  The order of the calls.  In every run the calls on adapters are
    made in the order of the three loops (the supported protocols, the
    chains of each, the adapters the controller returns for the pair, the
    filtered ones left out), each adapter getting its own calls in a row,
    getProtocolTokens before buildMetadata: the calls of a run are a prefix
    of that sequence, and the whole of it when the run completes normally,
    so that no adapter is then skipped or called twice. *)
Theorem X18_calls_follow_plan (env : Collaborators) (chainProviders : Z -> bool)
    (fetchChainProtocolAdapters : Z -> string -> list Adapter)
    (filterProtocolIds : option (list string)) (filterChainIds : option (list Z))
    (w : World) :
  let planned :=
    flat_map invocations
      (plan env fetchChainProtocolAdapters filterProtocolIds filterChainIds) in
  exists r log,
    buildMetadata env chainProviders fetchChainProtocolAdapters
      filterProtocolIds filterChainIds w = (r, extend w log) /\
    callsOf log `prefix_of` planned /\
    (r = Ok Next -> callsOf log = planned).
Proof.
  intros planned. subst planned. unfold plan. rewrite flat_map_nested.
  revert w. unfold buildMetadata. apply forOf_calls.
  intros [protocolId supportedChains] _. simpl.
  destruct (filteredOut filterProtocolIds protocolId).
  { intros w. exists (Ok Next), []. rewrite extend_nil. split; [reflexivity|].
    split; [reflexivity|auto]. }
  rewrite flat_map_nested. apply forOf_calls. intros chainId _.
  destruct (filteredOut filterChainIds chainId).
  { intros w. exists (Ok Next), []. rewrite extend_nil. split; [reflexivity|].
    split; [reflexivity|auto]. }
  destruct (chainProviders chainId); simpl.
  - apply forOf_calls. intros a _. apply processAdapter_calls.
  - intros w. exists (Throw (ProviderMissingError chainId)),
      [LoggerError chainId "No provider found for chain"].
    split; [reflexivity|]. split; [apply prefix_nil|discriminate].
Qed.
